(** * SpaceResource: the Hugging Face space resource of the Terraform provider

    A shallow embedding of [internal/provider/space_resource.go]: the
    resource model, the request bodies built with [fmt.Sprintf], and the
    lifecycle methods [Create], [Update] and [Delete], run against an
    arbitrary HTTP client whose exchanges are recorded in issue order. *)

From Stdlib Require Import ZArith String Ascii List DecimalString.
From stdpp Require Import gmap strings list fin_maps.
Import ListNotations.
Local Open Scope string_scope.
Local Open Scope Z_scope.
Local Open Scope list_scope.
Set Warnings "-register-all".

(** ** The framework's value types

    [types.String], [types.Bool], [types.Int64] and [types.Map] carry a
    null / unknown / known state next to the value.  [ValueString],
    [ValueBool] and [ValueInt64] return the zero value for null and
    unknown. *)

Inductive TfString := StringNull | StringUnknown | StringValue (s : string).
Inductive TfBool := BoolNull | BoolUnknown | BoolValue (b : bool).
Inductive TfInt64 := Int64Null | Int64Unknown | Int64Value (z : Z).
Inductive TfMap := MapNull | MapUnknown | MapValue (elems : gmap string TfString).
Inductive TfList := ListNull | ListUnknown | ListValue (elems : list TfString).

#[global] Instance TfString_eq_dec : EqDecision TfString.
Proof. solve_decision. Defined.
#[global] Instance TfBool_eq_dec : EqDecision TfBool.
Proof. solve_decision. Defined.
#[global] Instance TfInt64_eq_dec : EqDecision TfInt64.
Proof. solve_decision. Defined.

Definition ValueString (v : TfString) : string :=
  match v with StringValue s => s | _ => "" end.

Definition ValueBool (v : TfBool) : bool :=
  match v with BoolValue b => b | _ => false end.

Definition ValueInt64 (v : TfInt64) : Z :=
  match v with Int64Value z => z | _ => 0 end.

Definition IsNull (m : TfMap) : bool :=
  match m with MapNull => true | _ => false end.

Definition IsUnknown (m : TfMap) : bool :=
  match m with MapUnknown => true | _ => false end.

(** [Elements] of a null or unknown map is the empty Go map. *)
Definition Elements (m : TfMap) : gmap string TfString :=
  match m with MapValue e => e | _ => ∅ end.

(** ** SpaceResourceModel *)

Record SpaceResourceModel := {
  ID : TfString;
  Name : TfString;
  Private : TfBool;
  SDK : TfString;
  Template : TfString;
  Secrets : TfMap;
  Variables : TfMap;
  Hardware : TfString;
  Host : TfString;
  Storage : TfString;
  SleepTime : TfInt64;
  Author : TfString;
  LastModified : TfString;
  Likes : TfInt64;
  Tags : TfList
}.

Definition set_ID (v : TfString) (d : SpaceResourceModel) :=
  {| ID := v; Name := Name d; Private := Private d; SDK := SDK d;
     Template := Template d; Secrets := Secrets d; Variables := Variables d;
     Hardware := Hardware d; Host := Host d; Storage := Storage d;
     SleepTime := SleepTime d; Author := Author d;
     LastModified := LastModified d; Likes := Likes d; Tags := Tags d |}.

Definition set_Name (v : TfString) (d : SpaceResourceModel) :=
  {| ID := ID d; Name := v; Private := Private d; SDK := SDK d;
     Template := Template d; Secrets := Secrets d; Variables := Variables d;
     Hardware := Hardware d; Host := Host d; Storage := Storage d;
     SleepTime := SleepTime d; Author := Author d;
     LastModified := LastModified d; Likes := Likes d; Tags := Tags d |}.

Definition set_Secrets (v : TfMap) (d : SpaceResourceModel) :=
  {| ID := ID d; Name := Name d; Private := Private d; SDK := SDK d;
     Template := Template d; Secrets := v; Variables := Variables d;
     Hardware := Hardware d; Host := Host d; Storage := Storage d;
     SleepTime := SleepTime d; Author := Author d;
     LastModified := LastModified d; Likes := Likes d; Tags := Tags d |}.

Definition set_Variables (v : TfMap) (d : SpaceResourceModel) :=
  {| ID := ID d; Name := Name d; Private := Private d; SDK := SDK d;
     Template := Template d; Secrets := Secrets d; Variables := v;
     Hardware := Hardware d; Host := Host d; Storage := Storage d;
     SleepTime := SleepTime d; Author := Author d;
     LastModified := LastModified d; Likes := Likes d; Tags := Tags d |}.

Definition set_Hardware (v : TfString) (d : SpaceResourceModel) :=
  {| ID := ID d; Name := Name d; Private := Private d; SDK := SDK d;
     Template := Template d; Secrets := Secrets d; Variables := Variables d;
     Hardware := v; Host := Host d; Storage := Storage d;
     SleepTime := SleepTime d; Author := Author d;
     LastModified := LastModified d; Likes := Likes d; Tags := Tags d |}.

Definition set_Storage (v : TfString) (d : SpaceResourceModel) :=
  {| ID := ID d; Name := Name d; Private := Private d; SDK := SDK d;
     Template := Template d; Secrets := Secrets d; Variables := Variables d;
     Hardware := Hardware d; Host := Host d; Storage := v;
     SleepTime := SleepTime d; Author := Author d;
     LastModified := LastModified d; Likes := Likes d; Tags := Tags d |}.

Definition set_SleepTime (v : TfInt64) (d : SpaceResourceModel) :=
  {| ID := ID d; Name := Name d; Private := Private d; SDK := SDK d;
     Template := Template d; Secrets := Secrets d; Variables := Variables d;
     Hardware := Hardware d; Host := Host d; Storage := Storage d;
     SleepTime := v; Author := Author d;
     LastModified := LastModified d; Likes := Likes d; Tags := Tags d |}.

Definition set_SDK (v : TfString) (d : SpaceResourceModel) :=
  {| ID := ID d; Name := Name d; Private := Private d; SDK := v;
     Template := Template d; Secrets := Secrets d; Variables := Variables d;
     Hardware := Hardware d; Host := Host d; Storage := Storage d;
     SleepTime := SleepTime d; Author := Author d;
     LastModified := LastModified d; Likes := Likes d; Tags := Tags d |}.

Definition set_Template (v : TfString) (d : SpaceResourceModel) :=
  {| ID := ID d; Name := Name d; Private := Private d; SDK := SDK d;
     Template := v; Secrets := Secrets d; Variables := Variables d;
     Hardware := Hardware d; Host := Host d; Storage := Storage d;
     SleepTime := SleepTime d; Author := Author d;
     LastModified := LastModified d; Likes := Likes d; Tags := Tags d |}.

(** ** fmt.Sprintf and strings.Split

    The fragment of [fmt.Sprintf] the file uses: the verbs [%s], [%t] and
    [%d], each call site passing operands of the verb's type.  A verb with
    no operand left prints Go's [%!v(MISSING)] marker. *)

Inductive operand := S_ (s : string) | T_ (b : bool) | D_ (z : Z).

Definition render (a : operand) : string :=
  match a with
  | S_ s => s
  | T_ true => "true"
  | T_ false => "false"
  | D_ z => NilZero.string_of_int (Z.to_int z)
  end.

Fixpoint Sprintf (format : string) (a : list operand) : string :=
  match format with
  | EmptyString => EmptyString
  | String "%" (String verb rest) =>
      match a with
      | x :: a' => render x +:+ Sprintf rest a'
      | [] => String "%" (String "!" (String verb ("(MISSING)" +:+ Sprintf rest [])))
      end
  | String c rest => String c (Sprintf rest a)
  end.

(** The double quote, and the Go raw-string templates: a template is
    written here with an apostrophe where the source has a double quote
    (no template of the source holds an apostrophe), and [raw] puts the
    double quotes back. *)
Definition dquote : ascii := ascii_of_nat 34.

Fixpoint raw (template : string) : string :=
  match template with
  | EmptyString => EmptyString
  | String c rest =>
      String (if Ascii.eqb c "'" then dquote else c) (raw rest)
  end.

(** [strings.Split s sep] for a one-character separator: the pieces of
    [s] between the separators, never an empty slice. *)
Fixpoint Split_from (piece : string) (s : string) (sep : ascii) : list string :=
  match s with
  | EmptyString => [piece]
  | String c rest =>
      if Ascii.eqb c sep then piece :: Split_from EmptyString rest sep
      else Split_from (piece +:+ String c EmptyString) rest sep
  end.

Definition Split (s : string) (sep : ascii) : list string :=
  Split_from EmptyString s sep.

(** ** The HTTP client

    [net/http] is outside the repository.  A request is what the resource
    hands to [client.Get], [client.Post] or [client.Do]; the client answers
    with an error or with a response.  An error answer stands for every
    failure before a response is obtained, the failure of [http.NewRequest]
    included: the source reports both with the same diagnostic. *)

Inductive Method := MethodGet | MethodPost | MethodPut | MethodDelete.

Record Request := {
  method : Method;
  url : string;
  contentType : string;
  body : string
}.

(** A response body: the bytes [ioutil.ReadAll] returns, and the error it
    returns with them, if any. *)
Record ReadCloser := { content : string; read_err : option string }.

Record Response := { StatusCode : Z; Body : ReadCloser }.

Inductive HttpResult := TransportError (err : string) | Responded (r : Response).

Record Exchange := { sent : Request; got : HttpResult }.

Definition Trace := list Exchange.

(** The client is any deterministic function of the exchanges so far and
    the request at hand. *)
Definition Client := Trace -> Request -> HttpResult.

Definition StatusOK : Z := 200.

Definition ReadAll (b : ReadCloser) : string * option string :=
  (content b, read_err b).

(** What [json.NewDecoder(body).Decode(&m)] leaves in a
    [map[string]interface{}]: [interface{}] values are nil, bool, float64
    (kept as its literal), string, slices and nested maps. *)
Inductive JValue :=
  | JNull
  | JBool (b : bool)
  | JNumber (literal : string)
  | JString (s : string)
  | JArray (items : list JValue)
  | JObject (fields : list (string * JValue)).

(** The type assertion [v.(string)] on a map lookup. *)
Definition assert_string (v : option JValue) : string * bool :=
  match v with
  | Some (JString s) => (s, true)
  | _ => ("", false)
  end.

(** ** Diagnostics and the lifecycle responses *)

Record Diagnostic := { summary : string; detail : string }.

(** [resource.CreateResponse], [UpdateResponse] and [DeleteResponse]: the
    state the method may set and the diagnostics it appends to. *)
Record LifecycleResponse := {
  State : option SpaceResourceModel;
  Diagnostics : list Diagnostic
}.

Definition AddError (d : Diagnostic) (resp : LifecycleResponse) :=
  {| State := State resp; Diagnostics := Diagnostics resp ++ [d] |}.

(** [resp.State.Set(ctx, &m)], for a model that fits the schema. *)
Definition State_Set (m : SpaceResourceModel) (resp : LifecycleResponse) :=
  {| State := Some m; Diagnostics := Diagnostics resp |}.

(** ** The monad of a lifecycle method

    A computation threads the trace of exchanges and either goes on with a
    value or stops with the diagnostic of the [AddError; return] it ran
    into. *)

Definition M (A : Type) : Type := Trace -> Trace * (Diagnostic + A).

Definition ret {A} (a : A) : M A := fun tr => (tr, inr a).

Definition fail {A} (summ det : string) : M A :=
  fun tr => (tr, inl {| summary := summ; detail := det |}).

Definition bind {A B} (m : M A) (k : A -> M B) : M B :=
  fun tr =>
    match m tr with
    | (tr', inl d) => (tr', inl d)
    | (tr', inr a) => k a tr'
    end.

Notation "'let*' x ':=' m 'in' k" := (bind m (fun x => k))
  (at level 10, x pattern, m at level 200, k at level 200).

(** [for key, value := range kvs { ... }] with the loop's local state. *)
Fixpoint for_range {A St} (kvs : list (string * A))
    (iter : string -> A -> St -> M St) (s : St) : M St :=
  match kvs with
  | [] => ret s
  | (key, value) :: rest =>
      let* s' := iter key value s in for_range rest iter s'
  end.

Section Lifecycle.

(** [encoding/json] decoding of a body into a [map[string]interface{}]:
    the error text, or the map (empty for the document [null]). *)
Variable json_Decode : ReadCloser -> string + gmap string JValue.

(** The order in which [range] visits a Go map: unspecified, some
    enumeration of the entries. *)
Variable range : forall A, gmap string A -> list (string * A).

Variable client : Client.

(** [client.Do], recording the exchange. *)
Definition Do (r : Request) : M HttpResult :=
  fun tr => let a := client tr r in (tr ++ [{| sent := r; got := a |}], inr a).

Definition Post (u ct b : string) : M HttpResult :=
  Do {| method := MethodPost; url := u; contentType := ct; body := b |}.

Definition Get (u : string) : M HttpResult :=
  Do {| method := MethodGet; url := u; contentType := ""; body := "" |}.

(** [http.NewRequest] followed by [Header.Set("Content-Type", ...)] and
    [client.Do]. *)
Definition NewRequest_Do (m : Method) (u ct b : string) : M HttpResult :=
  Do {| method := m; url := u; contentType := ct; body := b |}.

(** What a lifecycle method leaves in the response: the diagnostic of the
    error it returned on, or the state it set on reaching its last line. *)
Definition finish (run : Trace * (Diagnostic + SpaceResourceModel))
    (resp : LifecycleResponse) : Trace * LifecycleResponse :=
  match run with
  | (tr, inl d) => (tr, AddError d resp)
  | (tr, inr m) => (tr, State_Set m resp)
  end.

(** *** Create

    The body of [Create] from the plan [data] that [req.Plan.Get]
    decoded, the check of [HasError] passed. *)

(** Add secrets. *)
Definition create_add_secrets (data : SpaceResourceModel) : M unit :=
  if negb (IsNull (Secrets data)) && negb (IsUnknown (Secrets data)) then
    let secretsMap := Elements (Secrets data) in
    for_range (range _ secretsMap)
      (fun key value _ =>
         let secretURL :=
           Sprintf "https://huggingface.co/api/spaces/%s/secrets"
             [S_ (ValueString (ID data))] in
         let secretReqBody :=
           Sprintf (raw "{'key': '%s', 'value': '%s'}")
             [S_ key; S_ (ValueString value)] in
         let* r := Post secretURL "application/json" secretReqBody in
         match r with
         | TransportError err =>
             fail "Client Error"
               (Sprintf "Unable to add secret, got error: %s" [S_ err])
         | Responded secretResp =>
             if decide (StatusCode secretResp ≠ StatusOK) then
               fail "API Error"
                 (Sprintf "Unable to add secret, got status code: %d"
                    [D_ (StatusCode secretResp)])
             else ret tt
         end)
      tt
  else ret tt.

(** Add variables. *)
Definition create_add_variables (data : SpaceResourceModel) : M unit :=
  if negb (IsNull (Variables data)) && negb (IsUnknown (Variables data)) then
    let variablesMap := Elements (Variables data) in
    for_range (range _ variablesMap)
      (fun key value _ =>
         let variableURL :=
           Sprintf "https://huggingface.co/api/spaces/%s/variables"
             [S_ (ValueString (ID data))] in
         let variableReqBody :=
           Sprintf (raw "{'key': '%s', 'value': '%s'}")
             [S_ key; S_ (ValueString value)] in
         let* r := Post variableURL "application/json" variableReqBody in
         match r with
         | TransportError err =>
             fail "Client Error"
               (Sprintf "Unable to add variable, got error: %s" [S_ err])
         | Responded variableResp =>
             if decide (StatusCode variableResp ≠ StatusOK) then
               fail "API Error"
                 (Sprintf "Unable to add variable, got status code: %d"
                    [D_ (StatusCode variableResp)])
             else ret tt
         end)
      tt
  else ret tt.

Definition create_steps (data : SpaceResourceModel) : M SpaceResourceModel :=
  let url := "https://huggingface.co/api/repos/create" in
  let reqBody :=
    Sprintf (raw "{'type': 'space', 'name': '%s', 'private': %t, 'sdk': '%s', 'template': '%s', 'hardware': '%s', 'storage': '%s', 'sleepTime': %d}")
      [S_ (ValueString (Name data)); T_ (ValueBool (Private data));
       S_ (ValueString (SDK data)); S_ (ValueString (Template data));
       S_ (ValueString (Hardware data)); S_ (ValueString (Storage data));
       D_ (ValueInt64 (SleepTime data))] in
  let* r := Post url "application/json" reqBody in
  match r with
  | TransportError err =>
      fail "Client Error" (Sprintf "Unable to create space, got error: %s" [S_ err])
  | Responded httpResp =>
      if decide (StatusCode httpResp ≠ StatusOK) then
        fail "API Error"
          (Sprintf "Unable to create space, got status code: %d" [D_ (StatusCode httpResp)])
      else
        match json_Decode (Body httpResp) with
        | inl err =>
            fail "JSON Decode Error"
              (Sprintf "Unable to decode create space response, got error: %s" [S_ err])
        | inr responseData =>
            let '(spaceName, ok) := assert_string (responseData !! "name") in
            if negb ok then
              fail "Invalid Response"
                "Unable to extract space name from create space response"
            else
              let data := set_ID (StringValue spaceName) data in
              let* _ := create_add_secrets data in
              let* _ := create_add_variables data in
              ret data
        end
  end.

Definition Create (data : SpaceResourceModel) (resp : LifecycleResponse)
    : Trace * LifecycleResponse :=
  finish (create_steps data []) resp.

(** *** Read

    [Read] fetches the space and checks the status; the mapping of the
    answer onto the model is commented out in the source, so the state it
    sets is the one it was given. *)

Definition read_steps (data : SpaceResourceModel) : M SpaceResourceModel :=
  let url := Sprintf "https://huggingface.co/api/spaces/%s" [S_ (ValueString (ID data))] in
  let* r := Get url in
  match r with
  | TransportError err =>
      fail "Client Error" (Sprintf "Unable to read space, got error: %s" [S_ err])
  | Responded httpResp =>
      if decide (StatusCode httpResp ≠ StatusOK) then
        fail "API Error"
          (Sprintf "Unable to read space, got status code: %d" [D_ (StatusCode httpResp)])
      else ret data
  end.

Definition Read (data : SpaceResourceModel) (resp : LifecycleResponse)
    : Trace * LifecycleResponse :=
  finish (read_steps data []) resp.

(** *** Update

    [data] is the plan and [state] the prior state, as [req.Plan.Get] and
    [req.State.Get] decoded them.  Each block of the method is one step on
    the working copy of [state], named after the block's comment. *)

(** Check if the space needs to be renamed. *)
Definition update_rename (data state : SpaceResourceModel) : M SpaceResourceModel :=
  if decide (ValueString (Name state) ≠ ValueString (Name data)) then
    let url := "https://huggingface.co/api/repos/move" in
    let fromRepo := ValueString (ID state) in
    let toRepo :=
      Sprintf "%s/%s"
        [S_ (nth 0 (Split (ValueString (ID state)) "/") "");
         S_ (ValueString (Name data))] in
    let reqBody :=
      Sprintf (raw "{'fromRepo': '%s', 'toRepo': '%s', 'type': 'space'}")
        [S_ fromRepo; S_ toRepo] in
    let* r := Post url "application/json" reqBody in
    match r with
    | TransportError err =>
        fail "Client Error" (Sprintf "Unable to rename space, got error: %s" [S_ err])
    | Responded httpResp =>
        match ReadAll (Body httpResp) with
        | (_, Some err) =>
            fail "API Response Error"
              (Sprintf "Unable to read response body, got error: %s" [S_ err])
        | (_, None) =>
            if decide (StatusCode httpResp ≠ StatusOK) then
              fail "API Error"
                (Sprintf "Unable to rename space, got status code: %d"
                   [D_ (StatusCode httpResp)])
            else
              let state := set_ID (StringValue toRepo) state in
              let state := set_Name (Name data) state in
              ret state
        end
    end
  else ret state.

(** Check if the space visibility needs to be updated. *)
Definition update_visibility (data state : SpaceResourceModel) : M SpaceResourceModel :=
  if decide (Private state ≠ Private data) then
    let url :=
      Sprintf "https://huggingface.co/api/spaces/%s/settings"
        [S_ (ValueString (ID data))] in
    let reqBody := Sprintf (raw "{'private': %t}") [T_ (ValueBool (Private data))] in
    let* r := NewRequest_Do MethodPut url "application/json" reqBody in
    match r with
    | TransportError err =>
        fail "Client Error"
          (Sprintf "Unable to update space visibility, got error: %s" [S_ err])
    | Responded httpResp =>
        match ReadAll (Body httpResp) with
        | (_, Some err) =>
            fail "API Response Error"
              (Sprintf "Unable to read response body, got error: %s" [S_ err])
        | (_, None) =>
            if decide (StatusCode httpResp ≠ StatusOK) then
              fail "API Error"
                (Sprintf "Unable to update space visibility, got status code: %d"
                   [D_ (StatusCode httpResp)])
            else ret state
        end
    end
  else ret state.

(** Update secrets. *)
Definition update_secrets (data state : SpaceResourceModel) : M SpaceResourceModel :=
  if negb (IsNull (Secrets data)) && negb (IsUnknown (Secrets data)) then
    (* Delete existing secrets *)
    let secretsURL :=
      Sprintf "https://huggingface.co/api/spaces/%s/secrets"
        [S_ (ValueString (ID data))] in
    let* r := Get secretsURL in
    match r with
    | TransportError err =>
        fail "Client Error" (Sprintf "Unable to retrieve secrets, got error: %s" [S_ err])
    | Responded secretsResp =>
        let* _ :=
          if decide (StatusCode secretsResp = StatusOK) then
            match json_Decode (Body secretsResp) with
            | inl err =>
                fail "JSON Decode Error"
                  (Sprintf "Unable to decode secrets response, got error: %s" [S_ err])
            | inr existingSecrets =>
                for_range (range _ existingSecrets)
                  (fun key _ _ =>
                     let deleteSecretURL :=
                       Sprintf "https://huggingface.co/api/spaces/%s/secrets"
                         [S_ (ValueString (ID data))] in
                     let deleteSecretReqBody := Sprintf (raw "{'key': '%s'}") [S_ key] in
                     let* r := NewRequest_Do MethodDelete deleteSecretURL
                                 "application/json" deleteSecretReqBody in
                     match r with
                     | TransportError err =>
                         fail "Client Error"
                           (Sprintf "Unable to delete secret, got error: %s" [S_ err])
                     | Responded deleteSecretResp =>
                         if decide (StatusCode deleteSecretResp ≠ StatusOK) then
                           fail "API Error"
                             (Sprintf "Unable to delete secret, got status code: %d"
                                [D_ (StatusCode deleteSecretResp)])
                         else ret tt
                     end)
                  tt
            end
          else ret tt in
        (* Add new secrets *)
        let secretsMap := Elements (Secrets data) in
        let* stateSecretsMap :=
          for_range (range _ secretsMap)
            (fun key value (stateSecretsMap : gmap string TfString) =>
               let secretURL :=
                 Sprintf "https://huggingface.co/api/spaces/%s/secrets"
                   [S_ (ValueString (ID data))] in
               let secretReqBody :=
                 Sprintf (raw "{'key': '%s', 'value': '%s'}")
                   [S_ key; S_ (ValueString value)] in
               let* r := Post secretURL "application/json" secretReqBody in
               match r with
               | TransportError err =>
                   fail "Client Error"
                     (Sprintf "Unable to add secret, got error: %s" [S_ err])
               | Responded secretResp =>
                   if decide (StatusCode secretResp ≠ StatusOK) then
                     fail "API Error"
                       (Sprintf "Unable to add secret, got status code: %d"
                          [D_ (StatusCode secretResp)])
                   else ret (<[key := value]> stateSecretsMap)
               end)
            ∅ in
        ret (set_Secrets (MapValue stateSecretsMap) state)
    end
  else ret state.

(** Update variables. *)
Definition update_variables (data state : SpaceResourceModel) : M SpaceResourceModel :=
  if negb (IsNull (Variables data)) && negb (IsUnknown (Variables data)) then
    (* Delete existing variables *)
    let variablesURL :=
      Sprintf "https://huggingface.co/api/spaces/%s/variables"
        [S_ (ValueString (ID data))] in
    let* r := Get variablesURL in
    match r with
    | TransportError err =>
        fail "Client Error"
          (Sprintf "Unable to retrieve variables, got error: %s" [S_ err])
    | Responded variablesResp =>
        let* _ :=
          if decide (StatusCode variablesResp = StatusOK) then
            match json_Decode (Body variablesResp) with
            | inl err =>
                fail "JSON Decode Error"
                  (Sprintf "Unable to decode variables response, got error: %s" [S_ err])
            | inr existingVariables =>
                for_range (range _ existingVariables)
                  (fun key _ _ =>
                     let deleteVariableURL :=
                       Sprintf "https://huggingface.co/api/spaces/%s/variables"
                         [S_ (ValueString (ID data))] in
                     let deleteVariableReqBody := Sprintf (raw "{'key': '%s'}") [S_ key] in
                     let* r := NewRequest_Do MethodDelete deleteVariableURL
                                 "application/json" deleteVariableReqBody in
                     match r with
                     | TransportError err =>
                         fail "Client Error"
                           (Sprintf "Unable to delete variable, got error: %s" [S_ err])
                     | Responded deleteVariableResp =>
                         if decide (StatusCode deleteVariableResp ≠ StatusOK) then
                           fail "API Error"
                             (Sprintf "Unable to delete variable, got status code: %d"
                                [D_ (StatusCode deleteVariableResp)])
                         else ret tt
                     end)
                  tt
            end
          else ret tt in
        (* Add new variables *)
        let variablesMap := Elements (Variables data) in
        let* stateVariablesMap :=
          for_range (range _ variablesMap)
            (fun key value (stateVariablesMap : gmap string TfString) =>
               let variableURL :=
                 Sprintf "https://huggingface.co/api/spaces/%s/variables"
                   [S_ (ValueString (ID data))] in
               let variableReqBody :=
                 Sprintf (raw "{'key': '%s', 'value': '%s'}")
                   [S_ key; S_ (ValueString value)] in
               let* r := Post variableURL "application/json" variableReqBody in
               match r with
               | TransportError err =>
                   fail "Client Error"
                     (Sprintf "Unable to add variable, got error: %s" [S_ err])
               | Responded variableResp =>
                   if decide (StatusCode variableResp ≠ StatusOK) then
                     fail "API Error"
                       (Sprintf "Unable to add variable, got status code: %d"
                          [D_ (StatusCode variableResp)])
                   else ret (<[key := value]> stateVariablesMap)
               end)
            ∅ in
        ret (set_Variables (MapValue stateVariablesMap) state)
    end
  else ret state.

(** Check if the space hardware needs to be updated. *)
Definition update_hardware (data state : SpaceResourceModel) : M SpaceResourceModel :=
  if decide (ValueString (Hardware state) ≠ ValueString (Hardware data)) then
    let url :=
      Sprintf "https://huggingface.co/api/spaces/%s/hardware"
        [S_ (ValueString (ID data))] in
    let reqBody := Sprintf (raw "{'flavor': '%s'}") [S_ (ValueString (Hardware data))] in
    let* r := Post url "application/json" reqBody in
    match r with
    | TransportError err =>
        fail "Client Error"
          (Sprintf "Unable to update space hardware, got error: %s" [S_ err])
    | Responded httpResp =>
        if decide (StatusCode httpResp ≠ StatusOK) then
          let '(respBody, _) := ReadAll (Body httpResp) in
          fail "API Error"
            (Sprintf "Unable to update space hardware, got status code: %d, response body: %s"
               [D_ (StatusCode httpResp); S_ respBody])
        else
          match json_Decode (Body httpResp) with
          | inl err =>
              fail "JSON Decode Error"
                (Sprintf "Unable to decode update space hardware response, got error: %s"
                   [S_ err])
          | inr hardwareResp => ret (set_Hardware (Hardware data) state)
          end
    end
  else ret state.

(** Check if the space storage needs to be updated. *)
Definition update_storage (data state : SpaceResourceModel) : M SpaceResourceModel :=
  if decide (ValueString (Storage state) ≠ ValueString (Storage data)) then
    let url :=
      Sprintf "https://huggingface.co/api/spaces/%s/storage"
        [S_ (ValueString (ID data))] in
    let reqBody := Sprintf (raw "{'tier': '%s'}") [S_ (ValueString (Storage data))] in
    let* r := Post url "application/json" reqBody in
    match r with
    | TransportError err =>
        fail "Client Error"
          (Sprintf "Unable to update space storage, got error: %s" [S_ err])
    | Responded httpResp =>
        if decide (StatusCode httpResp ≠ StatusOK) then
          let '(respBody, _) := ReadAll (Body httpResp) in
          fail "API Error"
            (Sprintf "Unable to update space storage, got status code: %d, response body: %s"
               [D_ (StatusCode httpResp); S_ respBody])
        else
          match json_Decode (Body httpResp) with
          | inl err =>
              fail "JSON Decode Error"
                (Sprintf "Unable to decode update space storage response, got error: %s"
                   [S_ err])
          | inr storageResp => ret (set_Storage (Storage data) state)
          end
    end
  else ret state.

(** Check if the space sleep time needs to be updated. *)
Definition update_sleeptime (data state : SpaceResourceModel) : M SpaceResourceModel :=
  if decide (ValueInt64 (SleepTime state) ≠ ValueInt64 (SleepTime data)) then
    let url :=
      Sprintf "https://huggingface.co/api/spaces/%s/sleeptime"
        [S_ (ValueString (ID data))] in
    let reqBody := Sprintf (raw "{'seconds': %d}") [D_ (ValueInt64 (SleepTime data))] in
    let* r := Post url "application/json" reqBody in
    match r with
    | TransportError err =>
        fail "Client Error"
          (Sprintf "Unable to update space sleep time, got error: %s" [S_ err])
    | Responded httpResp =>
        if decide (StatusCode httpResp ≠ StatusOK) then
          let '(respBody, _) := ReadAll (Body httpResp) in
          fail "API Error"
            (Sprintf "Unable to update space sleep time, got status code: %d, response body: %s"
               [D_ (StatusCode httpResp); S_ respBody])
        else
          match json_Decode (Body httpResp) with
          | inl err =>
              fail "JSON Decode Error"
                (Sprintf "Unable to decode update space sleep time response, got error: %s"
                   [S_ err])
          | inr sleepTimeResp => ret (set_SleepTime (SleepTime data) state)
          end
    end
  else ret state.

(** The blocks in the order of the source; [resp.State.Set(ctx, &state)]
    is reached when none of them returned. *)
Definition update_steps (data state : SpaceResourceModel) : M SpaceResourceModel :=
  let* state := update_rename data state in
  let* state := update_visibility data state in
  let* state := update_secrets data state in
  let* state := update_variables data state in
  let* state := update_hardware data state in
  let* state := update_storage data state in
  let* state := update_sleeptime data state in
  ret state.

Definition Update (data state : SpaceResourceModel) (resp : LifecycleResponse)
    : Trace * LifecycleResponse :=
  finish (update_steps data state []) resp.

(** *** Delete *)

Definition delete_steps (data : SpaceResourceModel) : M unit :=
  let url := "https://huggingface.co/api/repos/delete" in
  let reqBody :=
    Sprintf (raw "{'type': 'space', 'name': '%s'}") [S_ (ValueString (Name data))] in
  let* r := NewRequest_Do MethodDelete url "application/json" reqBody in
  match r with
  | TransportError err =>
      fail "Client Error" (Sprintf "Unable to delete space, got error: %s" [S_ err])
  | Responded httpResp =>
      if decide (StatusCode httpResp ≠ StatusOK) then
        fail "API Error"
          (Sprintf "Unable to delete space, got status code: %d"
             [D_ (StatusCode httpResp)])
      else ret tt
  end.

(** [Delete] sets no state: it returns with what diagnostics it added. *)
Definition Delete (data : SpaceResourceModel) (resp : LifecycleResponse)
    : Trace * LifecycleResponse :=
  match delete_steps data [] with
  | (tr, inl d) => (tr, AddError d resp)
  | (tr, inr _) => (tr, resp)
  end.

End Lifecycle.

(** ** The two collections, and the names of what the methods send

    The "secrets" and "variables" blocks of [Create] and [Update] are the
    same code over two collections.  The definitions below name the
    collection, its endpoint and its requests, and give the shared code
    once; the blocks of the source are shown to be its two instances. *)

Inductive Collection := SecretsC | VariablesC.

#[global] Instance Collection_eq_dec : EqDecision Collection.
Proof. solve_decision. Defined.

Definition collection_url (c : Collection) (id : string) : string :=
  match c with
  | SecretsC => Sprintf "https://huggingface.co/api/spaces/%s/secrets" [S_ id]
  | VariablesC => Sprintf "https://huggingface.co/api/spaces/%s/variables" [S_ id]
  end.

Definition plural (c : Collection) : string :=
  match c with SecretsC => "secrets" | VariablesC => "variables" end.

Definition singular (c : Collection) : string :=
  match c with SecretsC => "secret" | VariablesC => "variable" end.

Definition collection_of (c : Collection) (data : SpaceResourceModel) : TfMap :=
  match c with SecretsC => Secrets data | VariablesC => Variables data end.

Definition set_collection (c : Collection) (v : TfMap) (state : SpaceResourceModel) :=
  match c with SecretsC => set_Secrets v state | VariablesC => set_Variables v state end.

Definition json : string := "application/json".

Definition entry_body (key value : string) : string :=
  Sprintf (raw "{'key': '%s', 'value': '%s'}") [S_ key; S_ value].

Definition key_body (key : string) : string :=
  Sprintf (raw "{'key': '%s'}") [S_ key].

Definition add_request (c : Collection) (id key value : string) : Request :=
  {| method := MethodPost; url := collection_url c id;
     contentType := json; body := entry_body key value |}.

Definition delete_request (c : Collection) (id key : string) : Request :=
  {| method := MethodDelete; url := collection_url c id;
     contentType := json; body := key_body key |}.

Definition list_request (c : Collection) (id : string) : Request :=
  {| method := MethodGet; url := collection_url c id;
     contentType := ""; body := "" |}.


Definition create_url : string := "https://huggingface.co/api/repos/create".

Definition create_body (data : SpaceResourceModel) : string :=
  Sprintf (raw "{'type': 'space', 'name': '%s', 'private': %t, 'sdk': '%s', 'template': '%s', 'hardware': '%s', 'storage': '%s', 'sleepTime': %d}")
    [S_ (ValueString (Name data)); T_ (ValueBool (Private data));
     S_ (ValueString (SDK data)); S_ (ValueString (Template data));
     S_ (ValueString (Hardware data)); S_ (ValueString (Storage data));
     D_ (ValueInt64 (SleepTime data))].

Definition invalid_response : Diagnostic :=
  {| summary := "Invalid Response";
     detail := "Unable to extract space name from create space response" |}.

Definition move_url : string := "https://huggingface.co/api/repos/move".

Definition toRepo (data state : SpaceResourceModel) : string :=
  Sprintf "%s/%s"
    [S_ (nth 0 (Split (ValueString (ID state)) "/") "");
     S_ (ValueString (Name data))].

Definition move_body (fromRepo toRepo : string) : string :=
  Sprintf (raw "{'fromRepo': '%s', 'toRepo': '%s', 'type': 'space'}")
    [S_ fromRepo; S_ toRepo].

Definition settings_url (id : string) : string :=
  Sprintf "https://huggingface.co/api/spaces/%s/settings" [S_ id].

Definition settings_request (data : SpaceResourceModel) : Request :=
  {| method := MethodPut; url := settings_url (ValueString (ID data));
     contentType := json;
     body := Sprintf (raw "{'private': %t}") [T_ (ValueBool (Private data))] |}.

Definition hardware_url (id : string) : string :=
  Sprintf "https://huggingface.co/api/spaces/%s/hardware" [S_ id].

Definition storage_url (id : string) : string :=
  Sprintf "https://huggingface.co/api/spaces/%s/storage" [S_ id].

Definition sleeptime_url (id : string) : string :=
  Sprintf "https://huggingface.co/api/spaces/%s/sleeptime" [S_ id].

Definition delete_url : string := "https://huggingface.co/api/repos/delete".

Definition delete_body (data : SpaceResourceModel) : string :=
  Sprintf (raw "{'type': 'space', 'name': '%s'}") [S_ (ValueString (Name data))].


Section Collections.

Variable json_Decode : ReadCloser -> string + gmap string JValue.
Variable range : forall A, gmap string A -> list (string * A).
Variable client : Client.

(** One pass of the "add" loops of [Create] and [Update], going on with
    [next]. *)
Definition add_entry {A} (c : Collection) (id key : string) (value : TfString)
    (next : A) : M A :=
  let* r := Do client (add_request c id key (ValueString value)) in
  match r with
  | TransportError err =>
      fail "Client Error"
        (Sprintf ("Unable to add " +:+ singular c +:+ ", got error: %s") [S_ err])
  | Responded resp =>
      if decide (StatusCode resp ≠ StatusOK) then
        fail "API Error"
          (Sprintf ("Unable to add " +:+ singular c +:+ ", got status code: %d")
             [D_ (StatusCode resp)])
      else ret next
  end.

(** One pass of the "delete existing" loops of [Update]. *)
Definition delete_entry (c : Collection) (id key : string) : M unit :=
  let* r := Do client (delete_request c id key) in
  match r with
  | TransportError err =>
      fail "Client Error"
        (Sprintf ("Unable to delete " +:+ singular c +:+ ", got error: %s") [S_ err])
  | Responded resp =>
      if decide (StatusCode resp ≠ StatusOK) then
        fail "API Error"
          (Sprintf ("Unable to delete " +:+ singular c +:+ ", got status code: %d")
             [D_ (StatusCode resp)])
      else ret tt
  end.

Definition create_add_all (c : Collection) (data : SpaceResourceModel) : M unit :=
  if negb (IsNull (collection_of c data)) && negb (IsUnknown (collection_of c data)) then
    for_range (range _ (Elements (collection_of c data)))
      (fun key value _ => add_entry c (ValueString (ID data)) key value tt) tt
  else ret tt.

(** "Delete existing": taken only on a 200 answer to the listing. *)
Definition delete_existing (c : Collection) (id : string) (listing : Response) : M unit :=
  if decide (StatusCode listing = StatusOK) then
    match json_Decode (Body listing) with
    | inl err =>
        fail "JSON Decode Error"
          (Sprintf ("Unable to decode " +:+ plural c +:+ " response, got error: %s")
             [S_ err])
    | inr existing =>
        for_range (range _ existing) (fun key _ _ => delete_entry c id key) tt
    end
  else ret tt.

(** "Add new": every desired entry is posted and copied into the map
    the state receives. *)
Definition add_new (c : Collection) (id : string) (elems : gmap string TfString)
    : M (gmap string TfString) :=
  for_range (range _ elems)
    (fun key value (stateMap : gmap string TfString) =>
       add_entry c id key value (<[key := value]> stateMap))
    ∅.

(** The "Update secrets" and "Update variables" blocks: the same code
    over the two collections. *)
Definition update_collection (c : Collection) (data state : SpaceResourceModel)
    : M SpaceResourceModel :=
  if negb (IsNull (collection_of c data)) && negb (IsUnknown (collection_of c data)) then
    let id := ValueString (ID data) in
    let* r := Get client (collection_url c id) in
    match r with
    | TransportError err =>
        fail "Client Error"
          (Sprintf ("Unable to retrieve " +:+ plural c +:+ ", got error: %s") [S_ err])
    | Responded listing =>
        let* _ := delete_existing c id listing in
        let* stateMap := add_new c id (Elements (collection_of c data)) in
        ret (set_collection c (MapValue stateMap) state)
    end
  else ret state.


End Collections.

(** ** Vocabulary of the statements *)

(** The requests of the scalar steps of [Update], by name. *)
Definition move_request (data state : SpaceResourceModel) : Request :=
  {| method := MethodPost; url := move_url; contentType := json;
     body := move_body (ValueString (ID state)) (toRepo data state) |}.

Definition hardware_request (data : SpaceResourceModel) : Request :=
  {| method := MethodPost; url := hardware_url (ValueString (ID data));
     contentType := json;
     body := Sprintf (raw "{'flavor': '%s'}") [S_ (ValueString (Hardware data))] |}.

Definition storage_request (data : SpaceResourceModel) : Request :=
  {| method := MethodPost; url := storage_url (ValueString (ID data));
     contentType := json;
     body := Sprintf (raw "{'tier': '%s'}") [S_ (ValueString (Storage data))] |}.

Definition sleeptime_request (data : SpaceResourceModel) : Request :=
  {| method := MethodPost; url := sleeptime_url (ValueString (ID data));
     contentType := json;
     body := Sprintf (raw "{'seconds': %d}") [D_ (ValueInt64 (SleepTime data))] |}.

(** An exchange after which the method went on: an answer with status 200,
    or any answer at all to a listing (a GET). *)
Definition passed (e : Exchange) : Prop :=
  match got e with
  | TransportError _ => False
  | Responded r => method (sent e) = MethodGet \/ StatusCode r = StatusOK
  end.

(** A call that failed: no response, or a status other than 200. *)
Definition failed (g : HttpResult) : Prop :=
  match g with
  | TransportError _ => True
  | Responded r => StatusCode r <> StatusOK
  end.

(** The diagnostic the hardware step adds for a failed call. *)
Definition hardware_error (g : HttpResult) : Diagnostic :=
  match g with
  | TransportError err =>
      {| summary := "Client Error";
         detail := Sprintf "Unable to update space hardware, got error: %s" [S_ err] |}
  | Responded r =>
      {| summary := "API Error";
         detail :=
           Sprintf "Unable to update space hardware, got status code: %d, response body: %s"
             [D_ (StatusCode r); S_ (content (Body r))] |}
  end.

(** A request of the steps that follow the hardware step. *)
Definition after_hardware (data : SpaceResourceModel) (r : Request) : Prop :=
  r = storage_request data \/ r = sleeptime_request data.

(** The steps of the pass before and after the one on collection [c]. *)
Definition before_collection json_Decode range client (c : Collection)
    (data : SpaceResourceModel) : list (SpaceResourceModel -> M SpaceResourceModel) :=
  match c with
  | SecretsC => [update_rename client data; update_visibility client data]
  | VariablesC =>
      [update_rename client data; update_visibility client data;
       update_collection json_Decode range client SecretsC data]
  end.

Definition after_collection json_Decode range client (c : Collection)
    (data : SpaceResourceModel) : list (SpaceResourceModel -> M SpaceResourceModel) :=
  match c with
  | SecretsC =>
      [update_collection json_Decode range client VariablesC data;
       update_hardware json_Decode client data;
       update_storage json_Decode client data;
       update_sleeptime json_Decode client data]
  | VariablesC =>
      [update_hardware json_Decode client data;
       update_storage json_Decode client data;
       update_sleeptime json_Decode client data]
  end.

(** A desired map the configuration leaves out: null, or not yet known. *)
Definition unset (m : TfMap) : Prop := IsNull m = true \/ IsUnknown m = true.

(** An exchange with the endpoint of collection [c] of the space [id]. *)
Definition on_collection (c : Collection) (id : string) (e : Exchange) : Prop :=
  url (sent e) = collection_url c id.

(** A run of [m] from any trace appends exchanges that all satisfy [P];
    when it goes on with a value, they all satisfy [Pok] and the value
    satisfies [Q]. *)
Definition triple {A} (m : M A) (P Pok : Exchange -> Prop) (Q : A -> Prop) : Prop :=
  forall tr tr' out, m tr = (tr', out) ->
    exists ext, tr' = tr ++ ext /\ Forall P ext /\
      forall a, out = inr a -> Forall Pok ext /\ Q a.

(** A pass is its steps in order, each handing the working state to the
    next. *)
Fixpoint pipeline (steps : list (SpaceResourceModel -> M SpaceResourceModel))
    (s : SpaceResourceModel) : M SpaceResourceModel :=
  match steps with
  | [] => ret s
  | step :: rest => let* s' := step s in pipeline rest s'
  end.

(** The seven steps of [Update], in the order of the source. *)
Definition update_pipeline json_Decode range client (data : SpaceResourceModel)
    : list (SpaceResourceModel -> M SpaceResourceModel) :=
  [update_rename client data;
   update_visibility client data;
   update_collection json_Decode range client SecretsC data;
   update_collection json_Decode range client VariablesC data;
   update_hardware json_Decode client data;
   update_storage json_Decode client data;
   update_sleeptime json_Decode client data].

(** A step that stays off collection [c] of the space [id]: it sends
    nothing to that collection's endpoint and hands on the map the working
    state holds for it. *)
Definition off_step (c : Collection) (id : string)
    (step : SpaceResourceModel -> M SpaceResourceModel) : Prop :=
  forall s, triple (step s) (fun e => ~ on_collection c id e) passed
              (fun s' => collection_of c s' = collection_of c s).

(** The diagnostic a collection step adds when its listing gets no
    response. *)
Definition listing_error (c : Collection) (err : string) : Diagnostic :=
  {| summary := "Client Error";
     detail := Sprintf ("Unable to retrieve " +:+ plural c +:+ ", got error: %s")
                 [S_ err] |}.

(** A deletion sent to collection [c] of the space [id]. *)
Definition deletes_on (c : Collection) (id : string) (e : Exchange) : Prop :=
  method (sent e) = MethodDelete /\ on_collection c id e.


(** The request [Create] opens with. *)
Definition create_request (data : SpaceResourceModel) : Request :=
  {| method := MethodPost; url := create_url; contentType := json;
     body := create_body data |}.

(** Every diagnostic a computation can stop on satisfies [D]. *)
Definition stops_with {A} (m : M A) (D : Diagnostic -> Prop) : Prop :=
  forall tr tr' d, m tr = (tr', inl d) -> D d.

(** ** Test doubles

    A map order, a decoder for the documents the examples use, a client
    that answers from a script, and a few spaces. *)

Definition map_order : forall A, gmap string A -> list (string * A) :=
  fun A m => map_to_list m.

Definition answer (code : Z) (text : string) : HttpResult :=
  Responded {| StatusCode := code; Body := {| content := text; read_err := None |} |}.

Definition decode_examples (b : ReadCloser) : string + gmap string JValue :=
  match read_err b with
  | Some err => inl err
  | None =>
      if decide (content b = "{}") then inr ∅
      else if decide (content b = raw "{'a': '1', 'b': '2'}") then
        inr {[ "a" := JString "1"; "b" := JString "2" ]}
      else if decide (content b = raw "{'name': 'alice/demo'}") then
        inr {[ "name" := JString "alice/demo" ]}
      else inl "invalid character"
  end.

(** The n-th request of a pass gets the n-th answer of the script, and
    200 with an empty object past its end. *)
Definition scripted (answers : list HttpResult) : Client :=
  fun tr _ => nth (length tr) answers (answer 200 "{}").

Definition space (id name : string) (private : bool) (hardware : string)
    (secrets : TfMap) : SpaceResourceModel :=
  {| ID := StringValue id; Name := StringValue name; Private := BoolValue private;
     SDK := StringValue "gradio"; Template := StringNull;
     Secrets := secrets; Variables := MapNull;
     Hardware := StringValue hardware; Host := StringNull;
     Storage := StringValue "small"; SleepTime := Int64Value 3600;
     Author := StringNull; LastModified := StringNull;
     Likes := Int64Null; Tags := ListNull |}.

(** The response the framework hands to [Update]: the prior state, no
    diagnostics. *)
Definition response_for (prior : SpaceResourceModel) : LifecycleResponse :=
  {| State := Some prior; Diagnostics := [] |}.

Definition secrets_ab : TfMap :=
  MapValue {[ "a" := StringValue "1"; "b" := StringValue "2" ]}.

Definition secrets_bc : TfMap :=
  MapValue {[ "b" := StringValue "2"; "c" := StringValue "3" ]}.

(** ** Further vocabulary *)

(** A fail-fast computation: of the exchanges it appends, all but the last
    have passed, and all of them when it goes on. *)
Definition fail_fast {A} (m : M A) : Prop :=
  forall tr tr' out, m tr = (tr', out) ->
    exists ext, tr' = tr ++ ext /\ Forall passed (removelast ext) /\
      forall a, out = inr a -> Forall passed ext.

#[global] Instance Method_eq_dec : EqDecision Method.
Proof. solve_decision. Defined.

#[global] Instance passed_dec (e : Exchange) : Decision (passed e).
Proof. unfold passed. destruct (got e); apply _. Defined.

(** The calls of a scalar step: none, or the one request [q]. *)
Definition at_most_call (q : Request) (seg : list Exchange) : Prop :=
  seg = [] \/ exists a, seg = [{| sent := q; got := a |}].

(** The calls of a collection step: none, or the listing, then deletions,
    then additions. *)
Definition collection_calls (c : Collection) (id : string) (seg : list Exchange) : Prop :=
  seg = [] \/
  exists a dels adds,
    seg = {| sent := list_request c id; got := a |} :: dels ++ adds /\
    Forall (fun e => exists key, sent e = delete_request c id key) dels /\
    Forall (fun e => exists key value, sent e = add_request c id key value) adds.

(** Every run of [m] appends exchanges of the shape [R]. *)
Definition emits {A} (m : M A) (R : list Exchange -> Prop) : Prop :=
  forall tr tr' out, m tr = (tr', out) -> exists ext, tr' = tr ++ ext /\ R ext.

(** The scalar properties that a pass writes, already at their desired
    values. *)
Definition settled (data s : SpaceResourceModel) : Prop :=
  ValueString (Name s) = ValueString (Name data) /\
  ValueString (Hardware s) = ValueString (Hardware data) /\
  ValueString (Storage s) = ValueString (Storage data) /\
  ValueInt64 (SleepTime s) = ValueInt64 (SleepTime data).

(** A string with no slash in it. *)
Fixpoint no_slash (s : string) : bool :=
  match s with
  | EmptyString => true
  | String c rest => negb (Ascii.eqb c "/") && no_slash rest
  end.

(** The fields no step after the rename writes. *)
Definition kept (f : SpaceResourceModel -> Prop) : Prop :=
  forall s (v : TfString) (m : TfMap),
    (f s -> f (set_Hardware v s)) /\ (f s -> f (set_Storage v s)) /\
    (forall z : TfInt64, f s -> f (set_SleepTime z s)) /\
    (f s -> f (set_Secrets m s)) /\ (f s -> f (set_Variables m s)).

(** The diagnostic a collection step adds when the listing, answered with
    status 200, does not decode. *)
Definition listing_decode_error (c : Collection) (err : string) : Diagnostic :=
  {| summary := "JSON Decode Error";
     detail := Sprintf ("Unable to decode " +:+ plural c +:+ " response, got error: %s")
                 [S_ err] |}.

(** The calls of a scalar step that went on: the one request [q] when the
    property has drifted, none otherwise. *)
Definition called_iff (drift : Prop) `{Decision drift} (q : Request)
    (seg : list Exchange) : Prop :=
  if decide drift then exists a, seg = [{| sent := q; got := a |}] else seg = [].

(** The calls of a collection step that went on: none for a map the
    configuration leaves out; for a managed one the listing, then calls
    other than listings on the same collection. *)
Definition listed_iff (c : Collection) (data : SpaceResourceModel)
    (seg : list Exchange) : Prop :=
  let id := ValueString (ID data) in
  match collection_of c data with
  | MapValue _ =>
      exists a rest, seg = {| sent := list_request c id; got := a |} :: rest /\
        Forall (fun e => on_collection c id e /\ method (sent e) <> MethodGet) rest
  | _ => seg = []
  end.

(** The request of [Read], and the request of [Delete]. *)
Definition read_request (data : SpaceResourceModel) : Request :=
  {| method := MethodGet;
     url := Sprintf "https://huggingface.co/api/spaces/%s" [S_ (ValueString (ID data))];
     contentType := ""; body := "" |}.

Definition space_delete_request (data : SpaceResourceModel) : Request :=
  {| method := MethodDelete; url := delete_url; contentType := json;
     body := delete_body data |}.

(** ** The definitions on small inputs *)

Example Sprintf_secret :
  Sprintf (raw "{'key': '%s', 'value': %d, 'on': %t}") [S_ "k"; D_ (-42); T_ true]
  = raw "{'key': 'k', 'value': -42, 'on': true}".
Proof. reflexivity. Qed.

Example Split_owner : Split "alice/demo/x" "/" = ["alice"; "demo"; "x"].
Proof. reflexivity. Qed.

Example Split_no_sep : Split "demo" "/" = ["demo"].
Proof. reflexivity. Qed.


(** ** Reasoning about runs *)

Lemma bind_ret_l {A B} (a : A) (k : A -> M B) : bind (ret a) k = k a.
Proof. reflexivity. Qed.

Lemma triple_ret {A} (a : A) P Pok (Q : A -> Prop) : Q a -> triple (ret a) P Pok Q.
Proof.
  intros Ha tr tr' out [= <- <-]. exists []. rewrite app_nil_r.
  repeat split; auto. all: intros; simplify_eq; auto.
Qed.

Lemma triple_fail {A} s d P Pok (Q : A -> Prop) : triple (fail s d) P Pok Q.
Proof.
  intros tr tr' out [= <- <-]. exists []. rewrite app_nil_r.
  repeat split; auto; intros; simplify_eq.
Qed.

Lemma triple_bind {A B} (m : M A) (k : A -> M B) P Pok (Q : A -> Prop) (R : B -> Prop) :
  triple m P Pok Q -> (forall a, Q a -> triple (k a) P Pok R) ->
  triple (bind m k) P Pok R.
Proof.
  intros Hm Hk tr tr' out H. unfold bind in H.
  destruct (m tr) as [tr1 [d|a]] eqn:E.
  - simplify_eq. destruct (Hm _ _ _ E) as (ext & -> & HP & _).
    exists ext. repeat split; auto; intros; simplify_eq.
  - destruct (Hm _ _ _ E) as (ext1 & -> & HP1 & Hok1).
    destruct (Hok1 a eq_refl) as [Hok1' HQ].
    destruct (Hk a HQ _ _ _ H) as (ext2 & -> & HP2 & Hok2).
    exists (ext1 ++ ext2). rewrite app_assoc. repeat split.
    + apply Forall_app; auto.
    + destruct (Hok2 _ H0). apply Forall_app; auto.
    + destruct (Hok2 _ H0); auto.
Qed.

Lemma triple_weaken {A} (m : M A) (P P' Pok Pok' : Exchange -> Prop) (Q Q' : A -> Prop) :
  triple m P Pok Q ->
  (forall e, P e -> P' e) -> (forall e, Pok e -> Pok' e) -> (forall a, Q a -> Q' a) ->
  triple m P' Pok' Q'.
Proof.
  intros Hm HP Hok HQ tr tr' out H.
  destruct (Hm _ _ _ H) as (ext & -> & H1 & H2).
  exists ext. repeat split.
  - eapply Forall_impl; eauto.
  - destruct (H2 _ H0). eapply Forall_impl; eauto.
  - destruct (H2 _ H0); auto.
Qed.

(** *** Endpoints are told apart by their last segment *)

Lemma append_inv_head (p a b : string) : p +:+ a = p +:+ b -> a = b.
Proof.
  induction p as [|ch p IH]; simpl; intros H; [assumption|].
  injection H as H. auto.
Qed.

Ltac url_discr H :=
  unfold settings_request, hardware_request, storage_request, sleeptime_request,
    move_request in H;
  cbn [url sent] in H;
  unfold on_collection, collection_url, settings_url, hardware_url, storage_url,
    sleeptime_url, move_url in H;
  cbn [Sprintf render] in H;
  simplify_eq;
  try match goal with
      | H' : _ +:+ _ = _ +:+ _ |- _ => apply append_inv_head in H'; discriminate
      end.

Lemma collection_url_inj c c' id : collection_url c id = collection_url c' id -> c = c'.
Proof.
  destruct c, c'; intros H; try reflexivity; exfalso; url_discr H.
Qed.

Lemma move_url_not_collection c id : move_url <> collection_url c id.
Proof. destruct c; intros H; url_discr H. Qed.

Lemma settings_url_not_collection c id : settings_url id <> collection_url c id.
Proof. destruct c; intros H; url_discr H. Qed.

Lemma hardware_url_not_collection c id : hardware_url id <> collection_url c id.
Proof. destruct c; intros H; url_discr H. Qed.

Lemma storage_url_not_collection c id : storage_url id <> collection_url c id.
Proof. destruct c; intros H; url_discr H. Qed.

Lemma sleeptime_url_not_collection c id : sleeptime_url id <> collection_url c id.
Proof. destruct c; intros H; url_discr H. Qed.

(** *** Runs of one call or none *)

Lemma ran_no_call {A} (P Pok : Exchange -> Prop) (Q : A -> Prop) tr (out : Diagnostic + A) :
  (forall a, out = inr a -> Q a) ->
  exists ext, tr = tr ++ ext /\ Forall P ext /\
    forall a, out = inr a -> Forall Pok ext /\ Q a.
Proof.
  intros HQ. exists []. rewrite app_nil_r. repeat split; auto.
Qed.

Lemma ran_one_call {A} (P Pok : Exchange -> Prop) (Q : A -> Prop) tr e (out : Diagnostic + A) :
  P e -> (forall a, out = inr a -> Pok e /\ Q a) ->
  exists ext, tr ++ [e] = tr ++ ext /\ Forall P ext /\
    forall a, out = inr a -> Forall Pok ext /\ Q a.
Proof.
  intros HP HQ. exists [e]. repeat split; auto.
  all: destruct (HQ _ H); auto.
Qed.

(** *** The steps of [Update], one triple each *)

Section Steps.

Variable json_Decode : ReadCloser -> string + gmap string JValue.
Variable range : forall A, gmap string A -> list (string * A).
Variable client : Client.

Local Abbreviation add_entry := (add_entry client).
Local Abbreviation delete_entry := (delete_entry client).
Local Abbreviation delete_existing := (delete_existing json_Decode range client).
Local Abbreviation add_new := (add_new range client).
Local Abbreviation update_collection := (update_collection json_Decode range client).
Local Abbreviation create_add_all := (create_add_all range client).
Local Abbreviation create_add_secrets := (create_add_secrets range client).
Local Abbreviation create_add_variables := (create_add_variables range client).
Local Abbreviation create_steps := (create_steps json_Decode range client).
Local Abbreviation Create := (Create json_Decode range client).
Local Abbreviation update_rename := (update_rename client).
Local Abbreviation update_visibility := (update_visibility client).
Local Abbreviation update_secrets := (update_secrets json_Decode range client).
Local Abbreviation update_variables := (update_variables json_Decode range client).
Local Abbreviation update_hardware := (update_hardware json_Decode client).
Local Abbreviation update_storage := (update_storage json_Decode client).
Local Abbreviation update_sleeptime := (update_sleeptime json_Decode client).
Local Abbreviation update_pipeline := (update_pipeline json_Decode range client).
Local Abbreviation before_collection := (before_collection json_Decode range client).
Local Abbreviation after_collection := (after_collection json_Decode range client).
Local Abbreviation update_steps := (update_steps json_Decode range client).
Local Abbreviation Update := (Update json_Decode range client).

(** The blocks of the source on the secrets and on the variables are the
    shared code at the two collections. *)
Ltac unfold_view :=
  unfold update_collection, delete_existing, add_new, create_add_all, add_entry,
    delete_entry, list_request, add_request, delete_request, Post, Get,
    NewRequest_Do, collection_url, collection_of, set_collection, entry_body,
    key_body, json, plural, singular;
  cbn [String.append].

Lemma create_add_secrets_view data :
  create_add_secrets data = create_add_all SecretsC data.
Proof. unfold create_add_secrets. unfold_view. reflexivity. Qed.

Lemma create_add_variables_view data :
  create_add_variables data = create_add_all VariablesC data.
Proof. unfold create_add_variables. unfold_view. reflexivity. Qed.

Lemma update_secrets_view data state :
  update_secrets data state = update_collection SecretsC data state.
Proof. unfold update_secrets. unfold_view. reflexivity. Qed.

Lemma update_variables_view data state :
  update_variables data state = update_collection VariablesC data state.
Proof. unfold update_variables. unfold_view. reflexivity. Qed.

Ltac each_step :=
  lazymatch goal with
  | |- Forall _ [] => constructor
  | |- Forall _ (_ :: _) => constructor; [|each_step]
  end.

Ltac run_step H :=
  cbv beta iota zeta delta [bind Post Get Do NewRequest_Do fail ret ReadAll] in H;
  repeat (case_match; simplify_eq); simplify_eq.

Ltac unfold_names :=
  unfold move_request, settings_request, hardware_request, storage_request,
    sleeptime_request, create_request, add_request, delete_request, list_request,
    move_url, move_body, toRepo, settings_url, hardware_url, storage_url,
    sleeptime_url, create_url, create_body, delete_url, delete_body,
    collection_url, entry_body, key_body, json.

Ltac close_run :=
  first [ apply ran_no_call
        | apply ran_one_call; [try (unfold_names; reflexivity)|] ];
  let a := fresh "a" in let Ha := fresh "Ha" in
  intros a Ha; simplify_eq;
  try (split; [unfold passed; simpl; auto; try (right; unfold StatusOK in *; lia)|]).

Lemma triple_rename data state :
  triple (update_rename data state)
    (fun e => sent e = move_request data state) passed
    (fun s => s = state \/
              s = set_Name (Name data) (set_ID (StringValue (toRepo data state)) state)).
Proof.
  intros tr tr' out H. unfold update_rename in H.
  case_decide; run_step H; close_run; auto.
Qed.

Lemma triple_visibility data state :
  triple (update_visibility data state)
    (fun e => sent e = settings_request data) passed (fun s => s = state).
Proof.
  intros tr tr' out H. unfold update_visibility in H.
  case_decide; run_step H; close_run; auto.
Qed.

Lemma triple_hardware data state :
  triple (update_hardware data state)
    (fun e => sent e = hardware_request data) passed
    (fun s => s = state \/ s = set_Hardware (Hardware data) state).
Proof.
  intros tr tr' out H. unfold update_hardware in H.
  case_decide; run_step H; close_run; auto.
Qed.

Lemma triple_storage data state :
  triple (update_storage data state)
    (fun e => sent e = storage_request data) passed
    (fun s => s = state \/ s = set_Storage (Storage data) state).
Proof.
  intros tr tr' out H. unfold update_storage in H.
  case_decide; run_step H; close_run; auto.
Qed.

Lemma triple_sleeptime data state :
  triple (update_sleeptime data state)
    (fun e => sent e = sleeptime_request data) passed
    (fun s => s = state \/ s = set_SleepTime (SleepTime data) state).
Proof.
  intros tr tr' out H. unfold update_sleeptime in H.
  case_decide; run_step H; close_run; auto.
Qed.

Lemma triple_add_entry {A} c id key value (next : A) :
  triple (add_entry c id key value next)
    (fun e => sent e = add_request c id key (ValueString value)) passed
    (fun _ => True).
Proof.
  intros tr tr' out H. unfold add_entry in H.
  run_step H; close_run; auto.
Qed.

Lemma triple_delete_entry c id key :
  triple (delete_entry c id key)
    (fun e => sent e = delete_request c id key) passed (fun _ => True).
Proof.
  intros tr tr' out H. unfold delete_entry in H.
  run_step H; close_run; auto.
Qed.

Lemma triple_for_range {A St} (kvs : list (string * A)) iter (s : St) P Pok :
  (forall key value s', triple (iter key value s') P Pok (fun _ => True)) ->
  triple (for_range kvs iter s) P Pok (fun _ => True).
Proof.
  intros Hiter. revert s. induction kvs as [|[key value] rest IH]; intros s; simpl.
  - apply triple_ret; auto.
  - eapply triple_bind; [apply Hiter|]. intros s' _. apply IH.
Qed.

Lemma triple_delete_existing c id listing :
  triple (delete_existing c id listing) (on_collection c id) passed (fun _ => True).
Proof.
  unfold delete_existing. case_decide; [|apply triple_ret; auto].
  destruct (json_Decode (Body listing)); [apply triple_fail|].
  apply triple_for_range. intros key _ _.
  eapply triple_weaken; [apply triple_delete_entry|..]; auto.
  intros e He. unfold on_collection. rewrite He. reflexivity.
Qed.

Lemma triple_add_new c id elems :
  triple (add_new c id elems) (on_collection c id) passed (fun _ => True).
Proof.
  unfold add_new. apply triple_for_range. intros key value stateMap.
  eapply triple_weaken; [apply triple_add_entry|..]; auto.
  intros e He. unfold on_collection. rewrite He. reflexivity.
Qed.

Lemma update_collection_unmanaged c data state :
  unset (collection_of c data) -> update_collection c data state = ret state.
Proof.
  intros Hm. unfold update_collection.
  destruct (collection_of c data) as [| |elems]; try reflexivity.
  destruct Hm; discriminate.
Qed.

Lemma triple_collection c data state :
  triple (update_collection c data state)
    (on_collection c (ValueString (ID data))) passed
    (fun s => s = state \/ exists m, s = set_collection c (MapValue m) state).
Proof.
  unfold update_collection.
  destruct (negb _ && negb _); [|apply triple_ret; auto].
  intros tr tr' out H. unfold bind at 1 in H. unfold Get, Do in H.
  destruct (client tr _) as [err|listing] eqn:Hc.
  - unfold fail in H. simplify_eq. apply ran_one_call; [reflexivity|]. intros; simplify_eq.
  - cbv zeta in H. 
    assert (Hrest : triple
      (let* _ := delete_existing c (ValueString (ID data)) listing in
       let* stateMap := add_new c (ValueString (ID data)) (Elements (collection_of c data)) in
       ret (set_collection c (MapValue stateMap) state))
      (on_collection c (ValueString (ID data))) passed
      (fun s => s = state \/ exists m, s = set_collection c (MapValue m) state)).
    { eapply triple_bind; [apply triple_delete_existing|]. intros _ _.
      eapply triple_bind; [apply triple_add_new|]. intros m _.
      apply triple_ret. right. eexists; reflexivity. }
    destruct (Hrest _ _ _ H) as (ext & -> & HP & Hok).
    exists ({| sent := list_request c (ValueString (ID data)); got := Responded listing |} :: ext).
    split; [rewrite <- app_assoc; reflexivity|]. split.
    + constructor; [reflexivity|assumption].
    + intros a Ha. destruct (Hok a Ha) as [H1 H2]. split; [|assumption].
      constructor; [|assumption]. unfold passed; simpl. auto.
Qed.


(** *** The pass as a pipeline of its seven steps *)

Lemma bind_ok {A B} (m : M A) (k : A -> M B) tr tr' b :
  bind m k tr = (tr', inr b) ->
  exists tr1 a, m tr = (tr1, inr a) /\ k a tr1 = (tr', inr b).
Proof.
  unfold bind. destruct (m tr) as [tr1 [d|a]]; [discriminate|]. eauto.
Qed.

Lemma update_steps_pipeline data state tr :
  update_steps data state tr = pipeline (update_pipeline data) state tr.
Proof.
  unfold update_steps, update_pipeline, pipeline, bind.
  destruct (update_rename data state tr) as [tr1 [d|s1]]; [reflexivity|].
  destruct (update_visibility data s1 tr1) as [tr2 [d|s2]]; [reflexivity|].
  rewrite update_secrets_view.
  destruct (update_collection SecretsC data s2 tr2) as [tr3 [d|s3]]; [reflexivity|].
  rewrite update_variables_view.
  destruct (update_collection VariablesC data s3 tr3) as [tr4 [d|s4]]; [reflexivity|].
  destruct (update_hardware data s4 tr4) as [tr5 [d|s5]]; [reflexivity|].
  destruct (update_storage data s5 tr5) as [tr6 [d|s6]]; [reflexivity|].
  reflexivity.
Qed.

Lemma pipeline_split l1 f l2 s tr tr' out :
  pipeline (l1 ++ f :: l2) s tr = (tr', out) ->
  (exists d, pipeline l1 s tr = (tr', inl d) /\ out = inl d) \/
  (exists tr1 s1, pipeline l1 s tr = (tr1, inr s1) /\
     ((exists d, f s1 tr1 = (tr', inl d) /\ out = inl d) \/
      (exists tr2 s2, f s1 tr1 = (tr2, inr s2) /\ pipeline l2 s2 tr2 = (tr', out)))).
Proof.
  revert s tr. induction l1 as [|g l1 IH]; intros s tr H; simpl in H.
  - right. exists tr, s. split; [reflexivity|].
    unfold bind in H. destruct (f s tr) as [tr2 [d|s2]]; simplify_eq; eauto 7.
  - unfold bind in H. simpl. unfold bind.
    destruct (g s tr) as [tr1 [d|s1]]; simplify_eq; eauto.
Qed.

Lemma triple_pipeline l s P Pok (Inv : SpaceResourceModel -> Prop) :
  Inv s ->
  Forall (fun f => forall s0, Inv s0 -> triple (f s0) P Pok Inv) l ->
  triple (pipeline l s) P Pok Inv.
Proof.
  intros Hs Hl. revert s Hs. induction Hl as [|f l Hf Hl IH]; intros s Hs; simpl.
  - apply triple_ret, Hs.
  - eapply triple_bind; [apply Hf, Hs|]. intros s' Hs'. apply IH, Hs'.
Qed.

Lemma Update_outcome data state resp tr resp' :
  Update data state resp = (tr, resp') ->
  (exists d, update_steps data state [] = (tr, inl d) /\ resp' = AddError d resp) \/
  (exists st', update_steps data state [] = (tr, inr st') /\ resp' = State_Set st' resp).
Proof.
  unfold Update, finish. destruct (update_steps data state []) as [tr0 [d|st']].
  - intros [= <- <-]. left. eauto.
  - intros [= <- <-]. right. eauto.
Qed.

Lemma Update_sets_state data state resp tr st' :
  Update data state resp = (tr, State_Set st' resp) ->
  update_steps data state [] = (tr, inr st').
Proof.
  intros H. apply Update_outcome in H as [(d & Hrun & Heq)|(st & Hrun & Heq)].
  - apply (f_equal Diagnostics) in Heq. simpl in Heq.
    apply (f_equal length) in Heq. rewrite length_app in Heq. simpl in Heq. lia.
  - injection Heq as <-. exact Hrun.
Qed.

Lemma triple_run {A} (m : M A) P Pok Q tr out :
  triple m P Pok Q -> m [] = (tr, out) ->
  Forall P tr /\ forall a, out = inr a -> Forall Pok tr /\ Q a.
Proof.
  intros Hm H. destruct (Hm _ _ _ H) as (ext & -> & HP & Hok). auto.
Qed.

(** C10: drift in the SDK or template fields triggers nothing.  The pass
    reads neither field of the desired configuration, so its calls and its
    result are the same whatever they hold; a state it returns keeps the
    SDK and template of the observed state; and every call it issues is the
    rename, the visibility update, a call on the secrets or the variables
    collection, or the hardware, storage or sleep-time update. *)
Theorem C10_sdk_template_not_reconciled data state resp sdk template :
  Update (set_SDK sdk (set_Template template data)) state resp = Update data state resp
  /\ forall tr resp', Update data state resp = (tr, resp') ->
       (State resp' = State resp \/
        exists st', State resp' = Some st' /\ SDK st' = SDK state /\ Template st' = Template state)
       /\ Forall (fun e =>
            sent e = move_request data state \/ sent e = settings_request data \/
            on_collection SecretsC (ValueString (ID data)) e \/
            on_collection VariablesC (ValueString (ID data)) e \/
            sent e = hardware_request data \/ sent e = storage_request data \/
            sent e = sleeptime_request data) tr.
Proof.
  split; [reflexivity|]. intros tr resp' H.
  assert (Hsteps : triple (pipeline (update_pipeline data) state)
    (fun e =>
       sent e = move_request data state \/ sent e = settings_request data \/
       on_collection SecretsC (ValueString (ID data)) e \/
       on_collection VariablesC (ValueString (ID data)) e \/
       sent e = hardware_request data \/ sent e = storage_request data \/
       sent e = sleeptime_request data)
    passed
    (fun s => SDK s = SDK state /\ Template s = Template state)).
  { unfold update_pipeline, pipeline.
    set (Inv := fun s => SDK s = SDK state /\ Template s = Template state).
    apply triple_bind with (Q := Inv).
    { eapply triple_weaken; [apply triple_rename|..]; auto.
      intros s [->| ->]; split; auto. }
    intros s1 [Hsdk1 Htpl1]. apply triple_bind with (Q := Inv).
    { eapply triple_weaken; [apply triple_visibility|..]; auto.
      intros s' ->; split; auto. }
    intros s2 [Hsdk2 Htpl2]. apply triple_bind with (Q := Inv).
    { eapply triple_weaken; [apply (triple_collection SecretsC)|..]; auto.
      intros s' [->|[m ->]]; split; auto. }
    intros s3 [Hsdk3 Htpl3]. apply triple_bind with (Q := Inv).
    { eapply triple_weaken; [apply (triple_collection VariablesC)|..]; auto.
      intros s' [->|[m ->]]; split; auto. }
    intros s4 [Hsdk4 Htpl4]. apply triple_bind with (Q := Inv).
    { eapply triple_weaken; [apply triple_hardware|..]; auto 10.
      intros s' [->| ->]; split; auto. }
    intros s5 [Hsdk5 Htpl5]. apply triple_bind with (Q := Inv).
    { eapply triple_weaken; [apply triple_storage|..]; auto 10.
      intros s' [->| ->]; split; auto. }
    intros s6 [Hsdk6 Htpl6]. apply triple_bind with (Q := Inv).
    { eapply triple_weaken; [apply triple_sleeptime|..]; auto 10.
      intros s' [->| ->]; split; auto. }
    intros s7 Hs7. apply triple_ret, Hs7. }
  destruct (Update_outcome _ _ _ _ _ H) as [(d & Hrun & ->)|(st' & Hrun & ->)];
    rewrite update_steps_pipeline in Hrun;
    destruct (triple_run _ _ _ _ _ _ Hsteps Hrun) as [Hcalls Hok].
  - split; [left; reflexivity|assumption].
  - split; [|assumption]. right. exists st'. destruct (Hok _ eq_refl) as [_ [? ?]]. auto.
Qed.



(** *** Steps that stay off a collection *)

Lemma off_rename c data : off_step c (ValueString (ID data)) (update_rename data).
Proof.
  intros s; eapply triple_weaken; [apply triple_rename|..]; auto.
  - intros e He Hon. unfold on_collection in Hon. rewrite He in Hon.
    exact (move_url_not_collection _ _ Hon).
  - intros s' [->| ->]; destruct c; reflexivity.
Qed.

Lemma off_visibility c data : off_step c (ValueString (ID data)) (update_visibility data).
Proof.
  intros s; eapply triple_weaken; [apply triple_visibility|..]; auto.
  - intros e He Hon. unfold on_collection in Hon. rewrite He in Hon.
    exact (settings_url_not_collection _ _ Hon).
  - intros s' ->; reflexivity.
Qed.

Lemma off_hardware c data : off_step c (ValueString (ID data)) (update_hardware data).
Proof.
  intros s; eapply triple_weaken; [apply triple_hardware|..]; auto.
  - intros e He Hon. unfold on_collection in Hon. rewrite He in Hon.
    exact (hardware_url_not_collection _ _ Hon).
  - intros s' [->| ->]; destruct c; reflexivity.
Qed.

Lemma off_storage c data : off_step c (ValueString (ID data)) (update_storage data).
Proof.
  intros s; eapply triple_weaken; [apply triple_storage|..]; auto.
  - intros e He Hon. unfold on_collection in Hon. rewrite He in Hon.
    exact (storage_url_not_collection _ _ Hon).
  - intros s' [->| ->]; destruct c; reflexivity.
Qed.

Lemma off_sleeptime c data : off_step c (ValueString (ID data)) (update_sleeptime data).
Proof.
  intros s; eapply triple_weaken; [apply triple_sleeptime|..]; auto.
  - intros e He Hon. unfold on_collection in Hon. rewrite He in Hon.
    exact (sleeptime_url_not_collection _ _ Hon).
  - intros s' [->| ->]; destruct c; reflexivity.
Qed.

Lemma off_other_collection c c' data :
  c' <> c -> off_step c (ValueString (ID data)) (update_collection c' data).
Proof.
  intros Hne s. eapply triple_weaken; [apply triple_collection|..]; auto.
  - intros e He Hon. unfold on_collection in He, Hon. rewrite Hon in He.
    apply collection_url_inj in He. auto.
  - intros s' [->|[m ->]]; [reflexivity|].
    destruct c, c'; try reflexivity; contradiction.
Qed.

Lemma off_unset_collection c data :
  unset (collection_of c data) ->
  off_step c (ValueString (ID data)) (update_collection c data).
Proof.
  intros Hunset s. rewrite update_collection_unmanaged by assumption.
  apply triple_ret. reflexivity.
Qed.

Lemma off_pipeline c id l s :
  Forall (off_step c id) l ->
  triple (pipeline l s) (fun e => ~ on_collection c id e) passed
    (fun s' => collection_of c s' = collection_of c s).
Proof.
  intros Hl. apply triple_pipeline; [reflexivity|].
  eapply Forall_impl; [exact Hl|]. intros f Hf s0 Hs0.
  eapply triple_weaken; [apply Hf|..]; auto.
  intros s' Hs'. congruence.
Qed.

(** C5: a desired secrets (or variables) map that is null or unknown is
    not reconciled.  No call of the pass goes to that collection's
    endpoint, and the pass either stops on an error, setting no state, or
    sets a state whose map for that collection is the observed one. *)
Theorem C5_unset_collection_untouched c data state resp tr resp' :
  unset (collection_of c data) ->
  Update data state resp = (tr, resp') ->
  Forall (fun e => ~ on_collection c (ValueString (ID data)) e) tr /\
  ((exists d, resp' = AddError d resp) \/
   (exists st', resp' = State_Set st' resp /\
                collection_of c st' = collection_of c state)).
Proof.
  intros Hunset H.
  assert (Hsteps : triple (pipeline (update_pipeline data) state)
    (fun e => ~ on_collection c (ValueString (ID data)) e) passed
    (fun s => collection_of c s = collection_of c state)).
  { apply off_pipeline. unfold update_pipeline.
    each_step;
      auto using off_rename, off_visibility, off_hardware, off_storage, off_sleeptime.
    - destruct c; [apply off_unset_collection, Hunset|now apply off_other_collection].
    - destruct c; [now apply off_other_collection|apply off_unset_collection, Hunset]. }
  destruct (Update_outcome _ _ _ _ _ H) as [(d & Hrun & ->)|(st' & Hrun & ->)];
    rewrite update_steps_pipeline in Hrun;
    destruct (triple_run _ _ _ _ _ _ Hsteps Hrun) as [Hcalls Hok].
  - split; [assumption|]. left. eauto.
  - split; [assumption|]. right. exists st'. destruct (Hok _ eq_refl) as [_ ?]. auto.
Qed.

(** *** Runs that go on *)

Lemma delete_entry_ok c id key tr tr' u :
  delete_entry c id key tr = (tr', inr u) ->
  exists g, tr' = tr ++ [{| sent := delete_request c id key; got := g |}].
Proof.
  intros H. unfold delete_entry in H. run_step H; eauto.
Qed.

Lemma add_entry_ok {A} c id key value (next a : A) tr tr' :
  add_entry c id key value next tr = (tr', inr a) ->
  a = next /\
  exists g, tr' = tr ++ [{| sent := add_request c id key (ValueString value); got := g |}].
Proof.
  intros H. unfold add_entry in H. run_step H; eauto.
Qed.

Lemma delete_loop_ok {A} c id (kvs : list (string * A)) tr tr' u :
  for_range kvs (fun key _ _ => delete_entry c id key) tt tr = (tr', inr u) ->
  exists ext, tr' = tr ++ ext /\
    map sent ext = map (fun kv => delete_request c id kv.1) kvs.
Proof.
  revert tr. induction kvs as [|[key value] rest IH]; intros tr H; simpl in H.
  - unfold ret in H. simplify_eq. exists []. rewrite app_nil_r. auto.
  - apply bind_ok in H as (tr1 & [] & H1 & H2).
    apply delete_entry_ok in H1 as [g ->].
    apply IH in H2 as (ext & -> & Hext).
    eexists (_ :: ext). rewrite <- app_assoc. split; [reflexivity|].
    simpl. rewrite Hext. reflexivity.
Qed.

Lemma add_loop_ok c id (kvs : list (string * TfString)) acc tr tr' m :
  for_range kvs
    (fun key value (stateMap : gmap string TfString) =>
       add_entry c id key value (<[key := value]> stateMap))
    acc tr = (tr', inr m) ->
  exists ext, tr' = tr ++ ext /\
    map sent ext = map (fun kv => add_request c id kv.1 (ValueString kv.2)) kvs /\
    m = foldl (fun stateMap kv => <[kv.1 := kv.2]> stateMap) acc kvs.
Proof.
  revert tr acc. induction kvs as [|[key value] rest IH]; intros tr acc H; simpl in H.
  - unfold ret in H. simplify_eq. exists []. rewrite app_nil_r. auto.
  - apply bind_ok in H as (tr1 & acc1 & H1 & H2).
    apply add_entry_ok in H1 as [-> [g ->]].
    apply IH in H2 as (ext & -> & Hext & ->).
    eexists (_ :: ext). rewrite <- app_assoc. split; [reflexivity|].
    simpl. rewrite Hext. auto.
Qed.

(** Inserting the entries of a map one by one, in any order, rebuilds it. *)
Lemma foldl_insert_entries {V} (m : gmap string V) (kvs : list (string * V)) :
  kvs ≡ₚ map_to_list m ->
  foldl (fun acc kv => <[kv.1 := kv.2]> acc) ∅ kvs = m.
Proof.
  intros Hperm.
  assert (Hfold : forall l (acc : gmap string V),
    foldl (fun acc kv => <[kv.1 := kv.2]> acc) acc l
    = foldr (fun kv acc => <[kv.1 := kv.2]> acc) acc (reverse l)).
  { induction l as [|kv l IH]; intros acc; simpl; [reflexivity|].
    rewrite IH, reverse_cons, foldr_app. reflexivity. }
  rewrite Hfold.
  transitivity (list_to_map (M := gmap string V) (reverse kvs)).
  { generalize (reverse kvs). induction l as [|[k v] l IH]; simpl; [reflexivity|].
    rewrite IH. reflexivity. }
  etransitivity; [|apply list_to_map_to_list].
  apply list_to_map_proper.
  - apply (NoDup_Permutation_proper _ (map_to_list m).*1); [|apply NoDup_fst_map_to_list].
    apply fmap_Permutation. rewrite reverse_Permutation. exact Hperm.
  - rewrite reverse_Permutation. exact Hperm.
Qed.

(** A collection step that goes on: the listing got an answer, the
    deletions are those of the listed keys when the status is 200 and none
    otherwise, and every desired entry was added. *)
Lemma update_collection_ok c data state elems tr tr' s' :
  collection_of c data = MapValue elems ->
  update_collection c data state tr = (tr', inr s') ->
  let id := ValueString (ID data) in
  exists listing dels adds,
    client tr (list_request c id) = Responded listing /\
    tr' = tr ++ [{| sent := list_request c id; got := Responded listing |}]
             ++ dels ++ adds /\
    (if decide (StatusCode listing = StatusOK) then
       exists existing, json_Decode (Body listing) = inr existing /\
         map sent dels = map (fun kv => delete_request c id kv.1) (range _ existing)
     else dels = []) /\
    map sent adds
      = map (fun kv => add_request c id kv.1 (ValueString kv.2)) (range _ elems) /\
    s' = set_collection c
           (MapValue (foldl (fun stateMap kv => <[kv.1 := kv.2]> stateMap) ∅
                        (range _ elems))) state.
Proof.
  intros Hm H id. subst id. unfold list_request.
  unfold update_collection in H. rewrite Hm in H.
  cbn [IsNull IsUnknown negb andb Elements] in H.
  apply bind_ok in H as (tr1 & r & Hget & H).
  unfold Get, Do in Hget. injection Hget as <- <-.
  destruct (client tr _) as [err|listing] eqn:Hc; [unfold fail in H; discriminate|].
  apply bind_ok in H as (tr2 & [] & Hdel & H).
  apply bind_ok in H as (tr3 & stateMap & Hadd & Hret).
  unfold ret in Hret. simplify_eq.
  apply add_loop_ok in Hadd as (adds & -> & Hadds & ->).
  exists listing. unfold delete_existing in Hdel.
  destruct (decide (StatusCode listing = StatusOK)) as [Hok|Hne].
  - destruct (json_Decode (Body listing)) as [err|existing] eqn:Hdec; [unfold fail in Hdel; discriminate|].
    apply delete_loop_ok in Hdel as (dels & -> & Hdels).
    exists dels, adds. rewrite <- !app_assoc. repeat split; eauto.
  - unfold ret in Hdel. simplify_eq.
    exists [], adds. rewrite <- !app_assoc. repeat split; eauto.
Qed.


(** *** The hardware step and what runs around it *)

Lemma update_hardware_run data s tr tr' out :
  update_hardware data s tr = (tr', out) ->
  (tr' = tr /\ out = inr s) \/
  (exists g, tr' = tr ++ [{| sent := hardware_request data; got := g |}] /\
     ((failed g /\ out = inl (hardware_error g)) \/
      (~ failed g /\ forall d, out = inl d -> summary d = "JSON Decode Error"))).
Proof.
  intros H. unfold update_hardware in H. case_decide.
  - right. run_step H; eexists; (split; [unfold_names; reflexivity|]).
    + left. split; [exact I|reflexivity].
    + left. split; [assumption|reflexivity].
    + right. split; [simpl; auto|]. intros d [= <-]. reflexivity.
    + right. split; [simpl; auto|]. intros d [=].
  - left. unfold ret in H. simplify_eq. auto.
Qed.

Lemma not_after_hardware_head data :
  Forall (fun f => forall s0 : SpaceResourceModel, True ->
            triple (f s0)
              (fun e => sent e <> hardware_request data /\
                        ~ after_hardware data (sent e))
              passed (fun _ => True))
    [update_rename data; update_visibility data;
     update_collection SecretsC data; update_collection VariablesC data].
Proof.
  each_step; intros s0 _.
  - eapply triple_weaken; [apply triple_rename|..]; auto.
    intros e He. rewrite He. unfold after_hardware.
    split; [|intros [H|H]]; intros; discriminate.
  - eapply triple_weaken; [apply triple_visibility|..]; auto.
    intros e He. rewrite He. unfold after_hardware.
    split; [|intros [H|H]]; intros; discriminate.
  - eapply triple_weaken; [apply triple_collection|..]; auto.
    intros e He. unfold on_collection in He. unfold after_hardware.
    split; [intros H|intros [H|H]]; rewrite H in He.
    + exact (hardware_url_not_collection _ _ He).
    + exact (storage_url_not_collection _ _ He).
    + exact (sleeptime_url_not_collection _ _ He).
  - eapply triple_weaken; [apply triple_collection|..]; auto.
    intros e He. unfold on_collection in He. unfold after_hardware.
    split; [intros H|intros [H|H]]; rewrite H in He.
    + exact (hardware_url_not_collection _ _ He).
    + exact (storage_url_not_collection _ _ He).
    + exact (sleeptime_url_not_collection _ _ He).
Qed.

Lemma hardware_request_not_after data : ~ after_hardware data (hardware_request data).
Proof.
  intros [H|H]; apply (f_equal url) in H; url_discr H.
Qed.

Lemma only_after_hardware_tail data :
  Forall (fun f => forall s0 : SpaceResourceModel, True ->
            triple (f s0) (fun e => after_hardware data (sent e))
              passed (fun _ => True))
    [update_storage data; update_sleeptime data].
Proof.
  each_step; intros s0 _.
  - eapply triple_weaken; [apply triple_storage|..]; auto.
    intros e He. left. exact He.
  - eapply triple_weaken; [apply triple_sleeptime|..]; auto.
    intros e He. right. exact He.
Qed.

(** C6, as amended: when the rename has succeeded and the hardware call
    then fails, by a transport error or a status other than 200, [Update]
    adds the hardware error and returns; no storage or sleep-time call is
    issued; and no state is set: the response keeps the state it came
    with, the renamed working copy being dropped. *)
Theorem C6_hardware_failure_aborts data state resp tr resp' renamed g :
  Update data state resp = (tr, resp') ->
  In {| sent := move_request data state; got := Responded renamed |} tr ->
  StatusCode renamed = StatusOK -> read_err (Body renamed) = None ->
  In {| sent := hardware_request data; got := g |} tr ->
  failed g ->
  resp' = AddError (hardware_error g) resp /\
  Forall (fun e => ~ after_hardware data (sent e)) tr /\
  State resp' = State resp.
Proof.
  intros HU _ _ _ Hin Hfailed.
  assert (Hrun : exists out, update_steps data state [] = (tr, out) /\
                   resp' = match out with
                           | inl d => AddError d resp
                           | inr st' => State_Set st' resp
                           end).
  { apply Update_outcome in HU as [(d & Hrun & ->)|(st' & Hrun & ->)]; eauto. }
  destruct Hrun as (out & Hrun & ->).
  rewrite update_steps_pipeline in Hrun.
  change (update_pipeline data)
    with ([update_rename data; update_visibility data;
           update_collection SecretsC data; update_collection VariablesC data]
            ++ update_hardware data
            :: [update_storage data; update_sleeptime data]) in Hrun.
  pose proof (not_after_hardware_head data) as Hhead.
  pose proof (only_after_hardware_tail data) as Htail.
  apply pipeline_split in Hrun
    as [(d & Hrun & ->)|(tr1 & s1 & Hrun & [(d & Hhw & ->)|(tr2 & s2 & Hhw & Hrest)])].
  - (* a step before the hardware step stopped the pass *)
    exfalso.
    destruct (triple_pipeline _ _ _ _ _ I Hhead _ _ _ Hrun) as (ext & -> & HP & _).
    rewrite Forall_forall in HP. apply list_elem_of_In, HP in Hin.
    destruct Hin as [Hin _]. apply Hin. reflexivity.
  - (* the hardware step stopped the pass *)
    destruct (triple_pipeline _ _ _ _ _ I Hhead _ _ _ Hrun) as (ext & -> & HP & _).
    cbn [app] in *.
    apply update_hardware_run in Hhw as [[-> [=]]|(g' & -> & Hg')].
    assert (g' = g) as ->.
    { apply in_app_or in Hin as [Hin|[Hin|[]]]; [|congruence].
      rewrite Forall_forall in HP. apply list_elem_of_In, HP in Hin.
      destruct Hin as [Hin _]. exfalso. apply Hin. reflexivity. }
    destruct Hg' as [[_ [= ->]]|[Hnot _]]; [|contradiction].
    split; [reflexivity|]. split; [|reflexivity].
    apply Forall_app. split.
    + eapply Forall_impl; [exact HP|]. intros e [_ He]. exact He.
    + repeat constructor. apply hardware_request_not_after.
  - (* the hardware step went on: its call cannot have failed *)
    exfalso.
    destruct (triple_pipeline _ _ _ _ _ I Hhead _ _ _ Hrun) as (ext & -> & HP & _).
    destruct (triple_hardware _ _ _ _ _ Hhw) as (ext2 & -> & HP2 & Hok2).
    destruct (triple_pipeline _ _ _ _ _ I Htail _ _ _ Hrest) as (ext3 & -> & HP3 & _).
    destruct (Hok2 _ eq_refl) as [Hpassed _].
    cbn [app] in Hin. rewrite !in_app_iff in Hin. destruct Hin as [[Hin|Hin]|Hin].
    + rewrite Forall_forall in HP. apply list_elem_of_In, HP in Hin.
      destruct Hin as [Hin _]. apply Hin. reflexivity.
    + rewrite Forall_forall in Hpassed. apply list_elem_of_In, Hpassed in Hin.
      unfold passed in Hin. simpl in Hin. destruct g as [err|r]; [contradiction|].
      destruct Hin as [Hin|Hin]; [discriminate|]. contradiction.
    + rewrite Forall_forall in HP3. apply list_elem_of_In, HP3 in Hin.
      exact (hardware_request_not_after _ Hin).
Qed.

(** *** A collection step, whatever its outcome *)

Lemma update_pipeline_around c data :
  update_pipeline data
  = before_collection c data ++ update_collection c data :: after_collection c data.
Proof. destruct c; reflexivity. Qed.

Lemma off_before_collection c data :
  Forall (off_step c (ValueString (ID data))) (before_collection c data).
Proof.
  destruct c; unfold before_collection; each_step;
    first [apply off_rename | apply off_visibility | now apply off_other_collection].
Qed.

Lemma off_after_collection c data :
  Forall (off_step c (ValueString (ID data))) (after_collection c data).
Proof.
  destruct c; unfold after_collection; each_step;
    first [apply off_hardware | apply off_storage | apply off_sleeptime
          | now apply off_other_collection].
Qed.

Lemma triple_delete_existing_calls c id listing :
  triple (delete_existing c id listing)
    (fun e => deletes_on c id e /\ StatusCode listing = StatusOK) passed
    (fun _ => True).
Proof.
  unfold delete_existing. case_decide; [|apply triple_ret; auto].
  destruct (json_Decode (Body listing)); [apply triple_fail|].
  apply triple_for_range. intros key _ _.
  eapply triple_weaken; [apply triple_delete_entry|..]; auto.
  intros e He. unfold deletes_on, on_collection. rewrite He. auto.
Qed.

Lemma triple_add_new_calls c id elems :
  triple (add_new c id elems) (fun e => method (sent e) = MethodPost) passed
    (fun _ => True).
Proof.
  unfold add_new. apply triple_for_range. intros key value stateMap.
  eapply triple_weaken; [apply triple_add_entry|..]; auto.
  intros e He. rewrite He. reflexivity.
Qed.

Lemma update_collection_run c data s elems tr tr' out :
  collection_of c data = MapValue elems ->
  update_collection c data s tr = (tr', out) ->
  let id := ValueString (ID data) in
  let g := client tr (list_request c id) in
  let fetch := {| sent := list_request c id; got := g |} in
  exists rest,
    tr' = tr ++ fetch :: rest /\
    Forall (fun e => method (sent e) <> MethodGet) rest /\
    (Exists (deletes_on c id) rest ->
       exists listing, g = Responded listing /\ StatusCode listing = StatusOK) /\
    match g with
    | TransportError err => rest = [] /\ out = inl (listing_error c err)
    | Responded listing =>
        StatusCode listing <> StatusOK ->
        exists added,
          add_new c id elems (tr ++ [fetch]) = (tr ++ fetch :: rest, added) /\
          out = match added with
                | inl d => inl d
                | inr stateMap => inr (set_collection c (MapValue stateMap) s)
                end
    end.
Proof.
  intros Hm H id g fetch. unfold update_collection in H. rewrite Hm in H.
  cbn [IsNull IsUnknown negb andb Elements] in H.
  unfold bind at 1 in H. unfold Get, Do in H. cbv zeta in H.
  fold id in H. fold (list_request c id) in H. fold g in H. fold fetch in H.
  destruct g as [err|listing] eqn:Hg.
  - unfold fail in H. simplify_eq. exists []. repeat split; auto.
    intros Hex. inversion Hex.
  - unfold bind at 1 in H.
    destruct (delete_existing c id listing (tr ++ [fetch])) as [tr1 [d|[]]] eqn:Hdel.
    + (* a deletion, or the decoding of the listing, stopped the step *)
      simplify_eq.
      destruct (triple_delete_existing_calls _ _ _ _ _ _ Hdel) as (dels & -> & HP & _).
      exists dels. rewrite <- app_assoc. split; [reflexivity|]. split; [|split].
      * eapply Forall_impl; [exact HP|]. intros e [[He _] _]. rewrite He. discriminate.
      * intros _. exists listing. split; [reflexivity|].
        unfold delete_existing in Hdel. case_decide; [assumption|].
        unfold ret in Hdel. discriminate.
      * intros Hne. unfold delete_existing in Hdel.
        rewrite decide_False in Hdel by exact Hne. unfold ret in Hdel. discriminate.
    + destruct (triple_delete_existing_calls _ _ _ _ _ _ Hdel) as (dels & -> & HP & _).
      unfold bind in H.
      destruct (add_new c id elems ((tr ++ [fetch]) ++ dels)) as [tr2 added] eqn:Hadd.
      destruct (triple_add_new_calls _ _ _ _ _ _ Hadd) as (adds & -> & HPa & _).
      assert (tr' = ((tr ++ [fetch]) ++ dels) ++ adds) as ->.
      { destruct added; unfold ret in H; simplify_eq; reflexivity. }
      exists (dels ++ adds). rewrite <- !app_assoc. split; [reflexivity|].
      split; [|split].
      * apply Forall_app. split.
        -- eapply Forall_impl; [exact HP|]. intros e [[He _] _]. rewrite He. discriminate.
        -- eapply Forall_impl; [exact HPa|]. intros e He. rewrite He. discriminate.
      * intros Hex. exists listing. split; [reflexivity|].
        apply Exists_app in Hex as [Hex|Hex].
        -- apply Exists_exists in Hex as (e & He & _).
           rewrite Forall_forall in HP. apply HP in He. tauto.
        -- apply Exists_exists in Hex as (e & He & [Hdelete _]).
           rewrite Forall_forall in HPa. apply HPa in He. congruence.
      * intros Hne. unfold delete_existing in Hdel.
        rewrite decide_False in Hdel by exact Hne. unfold ret in Hdel.
        injection Hdel as Hdel. apply (f_equal length) in Hdel.
        rewrite !length_app in Hdel. destruct dels; [|simpl in Hdel; lia].
        rewrite app_nil_r in Hadd. cbn [app]. exists added. split.
        -- rewrite Hadd. rewrite <- app_assoc. reflexivity.
        -- destruct added; unfold ret in H; simplify_eq; reflexivity.
Qed.

(** C7: the listing that opens the reconciliation of a managed collection
    decides what follows.  An error instead of a response ends the whole
    pass with the listing's diagnostic, the listing being its last call.
    A response with a status other than 200 skips the deletions: the
    additions start right after the listing.  And a deletion on the
    collection is only ever sent after a listing answered with status
    200. *)
Theorem C7_listing_decides_deletion c data state resp tr resp' elems g :
  collection_of c data = MapValue elems ->
  Update data state resp = (tr, resp') ->
  let id := ValueString (ID data) in
  let fetch := {| sent := list_request c id; got := g |} in
  In fetch tr ->
  (Exists (deletes_on c id) tr ->
     exists listing, g = Responded listing /\ StatusCode listing = StatusOK) /\
  match g with
  | TransportError err =>
      resp' = AddError (listing_error c err) resp /\
      exists before, tr = before ++ [fetch]
  | Responded listing =>
      StatusCode listing <> StatusOK ->
      exists before adds after added,
        tr = before ++ fetch :: adds ++ after /\
        add_new c id elems (before ++ [fetch]) = (before ++ fetch :: adds, added) /\
        forall d, added = inl d -> after = [] /\ resp' = AddError d resp
  end.
Proof.
  intros Hm HU id fetch Hin. subst id fetch.
  set (fetch := {| sent := list_request c (ValueString (ID data)); got := g |}) in *.
  assert (Hrun : exists out, update_steps data state [] = (tr, out) /\
                   resp' = match out with
                           | inl d => AddError d resp
                           | inr st' => State_Set st' resp
                           end).
  { apply Update_outcome in HU as [(d & Hrun & ->)|(st' & Hrun & ->)]; eauto. }
  destruct Hrun as (out & Hrun & ->).
  rewrite update_steps_pipeline, (update_pipeline_around c) in Hrun.
  pose proof (off_before_collection c data) as Hhead.
  pose proof (off_after_collection c data) as Htail.
  assert (Hoff : forall l, Forall (fun e => ~ on_collection c (ValueString (ID data)) e) l -> ~ In fetch l).
  { intros l Hl Hfetch. rewrite Forall_forall in Hl.
    apply list_elem_of_In, Hl in Hfetch. apply Hfetch. reflexivity. }
  assert (Hnodel : forall l, Forall (fun e => ~ on_collection c (ValueString (ID data)) e) l ->
                     ~ Exists (deletes_on c (ValueString (ID data))) l).
  { intros l Hl Hex. apply Exists_exists in Hex as (e & He & [_ Hon]).
    rewrite Forall_forall in Hl. exact (Hl _ He Hon). }
  apply pipeline_split in Hrun
    as [(d & Hrun & ->)|(before & s1 & Hrun & Hstep)].
  { exfalso.
    destruct (off_pipeline _ _ _ _ Hhead _ _ _ Hrun) as (ext & -> & HP & _).
    exact (Hoff _ HP Hin). }
  destruct (off_pipeline _ _ _ _ Hhead _ _ _ Hrun) as (ext & -> & Hbefore & _).
  cbn [app] in *. rename ext into before.
  assert (Hshape : exists tr2 out2 after,
    update_collection c data s1 before = (tr2, out2) /\ tr = tr2 ++ after /\
    Forall (fun e => ~ on_collection c (ValueString (ID data)) e) after /\
    match out2 with
    | inl d => after = [] /\ out = inl d
    | inr _ => True
    end).
  { destruct Hstep as [(d & Hstep & ->)|(tr2 & s2 & Hstep & Hrest)].
    - exists tr, (inl d), []. rewrite app_nil_r. repeat split; auto.
    - destruct (off_pipeline _ _ _ _ Htail _ _ _ Hrest) as (after & -> & Hafter & _).
      exists tr2, (inr s2), after. repeat split; auto. }
  clear Hstep. destruct Hshape as (tr2 & out2 & after & Hstep & -> & Hafter & Hout).
  destruct (update_collection_run _ _ _ _ _ _ _ Hm Hstep)
    as (rest & -> & Hrest & Hdel & Hg).
  set (g' := client before (list_request c (ValueString (ID data)))) in *.
  assert (g' = g) as Heq.
  { rewrite <- app_assoc in Hin. cbn [app] in Hin.
    apply in_app_or in Hin as [Hin|[Hin|Hin]].
    - exfalso. exact (Hoff _ Hbefore Hin).
    - unfold fetch in Hin. injection Hin as Hin. exact Hin.
    - apply in_app_or in Hin as [Hin|Hin]; exfalso.
      + rewrite Forall_forall in Hrest. apply list_elem_of_In, Hrest in Hin.
        apply Hin. reflexivity.
      + exact (Hoff _ Hafter Hin). }
  clearbody g'. subst g'. fold fetch in Hstep, Hg, Hin |- *. split.
  - intros Hex. apply Hdel.
    rewrite <- app_assoc in Hex. cbn [app] in Hex.
    apply Exists_app in Hex as [Hex|Hex]; [destruct (Hnodel _ Hbefore Hex)|].
    apply Exists_cons in Hex as [[Hex _]|Hex]; [discriminate|].
    apply Exists_app in Hex as [Hex|Hex]; [assumption|destruct (Hnodel _ Hafter Hex)].
  - destruct g as [err|listing].
    + destruct Hg as [-> ->]. destruct Hout as [-> ->].
      split; [reflexivity|]. exists before. rewrite app_nil_r. reflexivity.
    + intros Hne. destruct (Hg Hne) as (added & Hadd & ->).
      exists before, rest, after, added. split; [|split].
      * rewrite <- app_assoc. reflexivity.
      * exact Hadd.
      * intros d ->. destruct Hout as [-> ->]. auto.
Qed.

(** *** Create *)

Lemma stops_with_for_range {A St} (kvs : list (string * A)) iter (s : St) D :
  (forall key value s', stops_with (iter key value s') D) ->
  stops_with (for_range kvs iter s) D.
Proof.
  intros Hiter. revert s. induction kvs as [|[key value] rest IH]; intros s tr tr' d H;
    simpl in H.
  - discriminate.
  - unfold bind in H. destruct (iter key value s tr) as [tr1 [d1|s1]] eqn:E.
    + simplify_eq. eapply Hiter, E.
    + eapply IH, H.
Qed.

Lemma add_entry_stops {A} c id key value (next : A) :
  stops_with (add_entry c id key value next) (fun d => summary d <> "Invalid Response").
Proof.
  intros tr tr' d H. unfold add_entry in H. run_step H; simpl; discriminate.
Qed.

Lemma create_add_all_stops c data :
  stops_with (create_add_all c data) (fun d => summary d <> "Invalid Response").
Proof.
  unfold create_add_all. destruct (negb _ && negb _).
  - apply stops_with_for_range. intros key value _. apply add_entry_stops.
  - intros tr tr' d H. discriminate.
Qed.

(** What [Create] leaves in the response, by the answer to its opening
    request. *)
Lemma Create_cases data resp :
  let r := client [] (create_request data) in
  exists tr d_or_st,
    Create data resp = (tr, match d_or_st with
                            | inl d => AddError d resp
                            | inr st => State_Set st resp
                            end) /\
    match r with
    | TransportError _ =>
        exists d, d_or_st = inl d /\ summary d = "Client Error"
    | Responded created =>
        if decide (StatusCode created = StatusOK) then
          match json_Decode (Body created) with
          | inl _ => exists d, d_or_st = inl d /\ summary d = "JSON Decode Error"
          | inr responseData =>
              match responseData !! "name" with
              | Some (JString spaceName) =>
                  (exists d, d_or_st = inl d /\ summary d <> "Invalid Response") \/
                  d_or_st = inr (set_ID (StringValue spaceName) data)
              | _ => d_or_st = inl invalid_response
              end
          end
        else exists d, d_or_st = inl d /\ summary d = "API Error"
    end.
Proof.
  intros r. subst r. unfold Create, finish.
  destruct (create_steps data []) as [tr out] eqn:Hrun.
  exists tr, out. split; [destruct out; reflexivity|].
  unfold create_steps in Hrun. cbv zeta in Hrun. unfold bind at 1 in Hrun.
  unfold Post, Do in Hrun. cbv zeta in Hrun.
  unfold create_request, create_url, create_body, json.
  destruct (client [] _) as [err|created].
  - unfold fail in Hrun. simplify_eq. eauto.
  - destruct (decide (StatusCode created = StatusOK)) as [Hok|Hne].
    + rewrite decide_False in Hrun by auto.
      destruct (json_Decode (Body created)) as [err|responseData].
      * unfold fail in Hrun. simplify_eq. eauto.
      * unfold assert_string in Hrun.
        destruct (responseData !! "name") as [[| | |spaceName| |]|];
          cbn [negb] in Hrun;
          try (unfold fail in Hrun; simplify_eq; reflexivity).
        set (data' := set_ID (StringValue spaceName) data) in *.
        rewrite create_add_secrets_view, create_add_variables_view in Hrun.
        unfold bind in Hrun.
        destruct (create_add_all SecretsC data' _) as [tr1 [d1|[]]] eqn:E1.
        { simplify_eq. left. eexists. split; [reflexivity|].
          eapply create_add_all_stops, E1. }
        destruct (create_add_all VariablesC data' _) as [tr2 [d2|[]]] eqn:E2.
        { simplify_eq. left. eexists. split; [reflexivity|].
          eapply create_add_all_stops, E2. }
        unfold ret in Hrun. simplify_eq. right. reflexivity.
    + rewrite decide_True in Hrun by auto. unfold fail in Hrun. simplify_eq. eauto.
Qed.

Lemma AddError_inj d d' resp : AddError d resp = AddError d' resp -> d = d'.
Proof.
  intros H. apply (f_equal Diagnostics) in H. simpl in H.
  apply app_inv_head in H. congruence.
Qed.

Lemma State_Set_not_AddError st d resp : State_Set st resp <> AddError d resp.
Proof.
  intros H. apply (f_equal Diagnostics) in H. simpl in H.
  apply (f_equal length) in H. rewrite length_app in H. simpl in H. lia.
Qed.

(** C9: [Create] stops on the "Invalid Response" error exactly when its
    opening request was answered with status 200 by a body that decodes to
    a map holding no string under "name".  When the map holds the string
    [spaceName] there, a state that [Create] sets is the plan with
    [spaceName] as its identifier; anything else it does is stop on a later
    error. *)
Theorem C9_create_response_shape data resp :
  let r := client [] (create_request data) in
  let resp' := (Create data resp).2 in
  (resp' = AddError invalid_response resp <->
   exists created responseData,
     r = Responded created /\ StatusCode created = StatusOK /\
     json_Decode (Body created) = inr responseData /\
     forall s, responseData !! "name" <> Some (JString s)) /\
  (forall created responseData spaceName,
     r = Responded created -> StatusCode created = StatusOK ->
     json_Decode (Body created) = inr responseData ->
     responseData !! "name" = Some (JString spaceName) ->
     resp' = State_Set (set_ID (StringValue spaceName) data) resp \/
     exists d, resp' = AddError d resp /\ d <> invalid_response).
Proof.
  intros r resp'. subst resp'.
  destruct (Create_cases data resp) as (tr & o & -> & Hcase). fold r in Hcase.
  cbn [snd]. split; [split|].
  - (* the error was added: the answer has the shape described *)
    intros Hresp. destruct o as [d|st]; [|destruct (State_Set_not_AddError _ _ _ Hresp)].
    apply AddError_inj in Hresp. subst d.
    destruct r as [err|created]; [destruct Hcase as (d & [= <-] & Hd); discriminate|].
    destruct (decide (StatusCode created = StatusOK)) as [Hok|Hne];
      [|destruct Hcase as (d & [= <-] & Hd); discriminate].
    destruct (json_Decode (Body created)) as [err|responseData] eqn:Hdec;
      [destruct Hcase as (d & [= <-] & Hd); discriminate|].
    exists created, responseData.
    split; [reflexivity|]. split; [assumption|]. split; [assumption|].
    intros s Hs. rewrite Hs in Hcase.
    destruct Hcase as [(d & [= <-] & Hd)|[=]]. apply Hd. reflexivity.
  - (* the answer has that shape: the error is added *)
    intros (created & responseData & Hr & Hok & Hdec & Hname).
    rewrite Hr in Hcase. rewrite decide_True in Hcase by exact Hok.
    rewrite Hdec in Hcase.
    destruct (responseData !! "name") as [[| | |spaceName| |]|];
      try (subst o; reflexivity).
    destruct (Hname spaceName eq_refl).
  - intros created responseData spaceName Hr Hok Hdec Hname.
    rewrite Hr in Hcase. rewrite decide_True in Hcase by exact Hok.
    rewrite Hdec, Hname in Hcase.
    destruct Hcase as [(d & -> & Hd)| ->]; [right|left; reflexivity].
    exists d. split; [reflexivity|]. intros ->. apply Hd. reflexivity.
Qed.


(** *** What a pass that sets the state has written *)

Lemma update_rename_ok data s tr tr' s' :
  update_rename data s tr = (tr', inr s') ->
  ValueString (Name s') = ValueString (Name data) /\
  Private s' = Private s /\ Hardware s' = Hardware s /\
  Storage s' = Storage s /\ SleepTime s' = SleepTime s.
Proof.
  intros H. unfold update_rename in H. case_decide; run_step H; repeat split.
  destruct (decide (ValueString (Name s') = ValueString (Name data))); tauto.
Qed.

Lemma update_visibility_ok data s tr tr' s' :
  update_visibility data s tr = (tr', inr s') -> s' = s.
Proof.
  intros H. unfold update_visibility in H. case_decide; run_step H; reflexivity.
Qed.

Lemma update_collection_frame c data s tr tr' s' :
  update_collection c data s tr = (tr', inr s') ->
  Name s' = Name s /\ Private s' = Private s /\ Hardware s' = Hardware s /\
  Storage s' = Storage s /\ SleepTime s' = SleepTime s.
Proof.
  intros H. destruct (triple_collection _ _ _ _ _ _ H) as (ext & _ & _ & Hok).
  destruct (Hok _ eq_refl) as [_ [->|[m ->]]]; [auto|]. destruct c; auto.
Qed.

Lemma update_hardware_ok data s tr tr' s' :
  update_hardware data s tr = (tr', inr s') ->
  ValueString (Hardware s') = ValueString (Hardware data) /\
  Name s' = Name s /\ Private s' = Private s /\
  Storage s' = Storage s /\ SleepTime s' = SleepTime s.
Proof.
  intros H. unfold update_hardware in H. case_decide; run_step H; repeat split.
  destruct (decide (ValueString (Hardware s') = ValueString (Hardware data))); tauto.
Qed.

Lemma update_storage_ok data s tr tr' s' :
  update_storage data s tr = (tr', inr s') ->
  ValueString (Storage s') = ValueString (Storage data) /\
  Name s' = Name s /\ Private s' = Private s /\
  Hardware s' = Hardware s /\ SleepTime s' = SleepTime s.
Proof.
  intros H. unfold update_storage in H. case_decide; run_step H; repeat split.
  destruct (decide (ValueString (Storage s') = ValueString (Storage data))); tauto.
Qed.

Lemma update_sleeptime_ok data s tr tr' s' :
  update_sleeptime data s tr = (tr', inr s') ->
  ValueInt64 (SleepTime s') = ValueInt64 (SleepTime data) /\
  Name s' = Name s /\ Private s' = Private s /\
  Hardware s' = Hardware s /\ Storage s' = Storage s.
Proof.
  intros H. unfold update_sleeptime in H. case_decide; run_step H; repeat split.
  destruct (decide (ValueInt64 (SleepTime s') = ValueInt64 (SleepTime data))); tauto.
Qed.

(** C3: of the five scalar properties, a pass that sets the state has
    written four.  The name, hardware, storage and sleep-time of the state
    carry the desired values; the visibility is the observed one, whatever
    the desired one is and whether or not its call was made. *)
Theorem C3_visibility_is_not_overwritten data state resp tr st' :
  Update data state resp = (tr, State_Set st' resp) ->
  Private st' = Private state /\
  ValueString (Name st') = ValueString (Name data) /\
  ValueString (Hardware st') = ValueString (Hardware data) /\
  ValueString (Storage st') = ValueString (Storage data) /\
  ValueInt64 (SleepTime st') = ValueInt64 (SleepTime data).
Proof.
  intros HU. apply Update_sets_state in HU. unfold update_steps in HU.
  apply bind_ok in HU as (tr1 & s1 & H1 & HU).
  apply bind_ok in HU as (tr2 & s2 & H2 & HU).
  apply bind_ok in HU as (tr3 & s3 & H3 & HU).
  apply bind_ok in HU as (tr4 & s4 & H4 & HU).
  apply bind_ok in HU as (tr5 & s5 & H5 & HU).
  apply bind_ok in HU as (tr6 & s6 & H6 & HU).
  apply bind_ok in HU as (tr7 & s7 & H7 & Hret). unfold ret in Hret. simplify_eq.
  rewrite update_secrets_view in H3. rewrite update_variables_view in H4.
  apply update_rename_ok in H1 as (N1 & P1 & W1 & G1 & Z1).
  apply update_visibility_ok in H2 as ->.
  apply update_collection_frame in H3 as (N3 & P3 & W3 & G3 & Z3).
  apply update_collection_frame in H4 as (N4 & P4 & W4 & G4 & Z4).
  apply update_hardware_ok in H5 as (W5 & N5 & P5 & G5 & Z5).
  apply update_storage_ok in H6 as (G6 & N6 & P6 & W6 & Z6).
  apply update_sleeptime_ok in H7 as (Z7 & N7 & P7 & W7 & G7).
  repeat split; congruence.
Qed.

(** *** A managed collection within a pass that sets the state *)

(** The step on a managed collection of a pass that went through: the
    listing got a response; the deletions are those of the listed keys
    when its status is 200 and there are none otherwise; one addition per
    desired entry follows; no other call of the pass is on the collection;
    and the state holds the map built from the additions. *)
Lemma managed_collection_in_pass c data state tr st' elems :
  collection_of c data = MapValue elems ->
  update_steps data state [] = (tr, inr st') ->
  let id := ValueString (ID data) in
  exists listing before dels adds after,
    tr = before ++ [{| sent := list_request c id; got := Responded listing |}]
           ++ dels ++ adds ++ after /\
    Forall (fun e => ~ on_collection c id e) (before ++ after) /\
    (if decide (StatusCode listing = StatusOK) then
       exists existing, json_Decode (Body listing) = inr existing /\
         map sent dels = map (fun kv => delete_request c id kv.1) (range _ existing)
     else dels = []) /\
    map sent adds
      = map (fun kv => add_request c id kv.1 (ValueString kv.2)) (range _ elems) /\
    collection_of c st'
      = MapValue (foldl (fun stateMap kv => <[kv.1 := kv.2]> stateMap) ∅ (range _ elems)).
Proof.
  intros Hm Hrun id. subst id.
  rewrite update_steps_pipeline, (update_pipeline_around c) in Hrun.
  apply pipeline_split in Hrun
    as [(d & _ & [=])|(tr1 & s1 & Hhead & [(d & _ & [=])|(tr2 & s2 & Hstep & Htail)])].
  destruct (off_pipeline _ _ _ _ (off_before_collection c data) _ _ _ Hhead)
    as (before & -> & Hbefore & _).
  destruct (off_pipeline _ _ _ _ (off_after_collection c data) _ _ _ Htail)
    as (after & -> & Hafter & Hst).
  destruct (Hst _ eq_refl) as [_ Hmap].
  destruct (update_collection_ok _ _ _ _ _ _ _ Hm Hstep)
    as (listing & dels & adds & _ & -> & Hdels & Hadds & ->).
  exists listing, before, dels, adds, after. cbn [app] in *.
  split; [rewrite <- ?app_assoc; cbn [app]; rewrite <- ?app_assoc; reflexivity|].
  split; [apply Forall_app; auto|]. split; [exact Hdels|]. split; [exact Hadds|].
  rewrite Hmap. destruct c, s1; reflexivity.
Qed.

(** The listing of a collection occurs once in such a pass. *)
Lemma listing_once c id (before dels adds after : list Exchange) fetch g :
  sent fetch = list_request c id ->
  Forall (fun e => ~ on_collection c id e) (before ++ after) ->
  Forall (fun r => method r <> MethodGet) (map sent dels) ->
  Forall (fun r => method r <> MethodGet) (map sent adds) ->
  In {| sent := list_request c id; got := g |}
    (before ++ [fetch] ++ dels ++ adds ++ after) ->
  got fetch = g.
Proof.
  intros Hfetch Hoff Hd Ha Hin.
  apply Forall_app in Hoff as [Hbefore Hafter].
  rewrite !in_app_iff in Hin. destruct Hin as [Hin|[Hin|[Hin|[Hin|Hin]]]].
  - rewrite Forall_forall in Hbefore. apply list_elem_of_In, Hbefore in Hin.
    destruct Hin. reflexivity.
  - destruct Hin as [->|[]]. reflexivity.
  - apply (in_map sent) in Hin.
    rewrite Forall_forall in Hd. apply list_elem_of_In, Hd in Hin. destruct Hin. reflexivity.
  - apply (in_map sent) in Hin.
    rewrite Forall_forall in Ha. apply list_elem_of_In, Ha in Hin. destruct Hin. reflexivity.
  - rewrite Forall_forall in Hafter. apply list_elem_of_In, Hafter in Hin.
    destruct Hin. reflexivity.
Qed.

Lemma delete_requests_not_get {A} c id (kvs : list (string * A)) :
  Forall (fun r => method r <> MethodGet)
    (map (fun kv => delete_request c id kv.1) kvs).
Proof. apply Forall_forall. intros r Hr%list_elem_of_In%in_map_iff. destruct Hr as (kv & <- & _). discriminate. Qed.

Lemma add_requests_not_get c id (kvs : list (string * TfString)) :
  Forall (fun r => method r <> MethodGet)
    (map (fun kv => add_request c id kv.1 (ValueString kv.2)) kvs).
Proof. apply Forall_forall. intros r Hr%list_elem_of_In%in_map_iff. destruct Hr as (kv & <- & _). discriminate. Qed.

(** The whole of what a pass that sets the state does on a managed
    collection, the order of [range] being one of the entries of the
    map. *)
Lemma replace_all_in_pass c data state tr st' elems :
  (forall A (m : gmap string A), range A m ≡ₚ map_to_list m) ->
  collection_of c data = MapValue elems ->
  update_steps data state [] = (tr, inr st') ->
  let id := ValueString (ID data) in
  exists listing before dels adds after,
    tr = before ++ [{| sent := list_request c id; got := Responded listing |}]
           ++ dels ++ adds ++ after /\
    Forall (fun e => ~ on_collection c id e) (before ++ after) /\
    (forall g, In {| sent := list_request c id; got := g |} tr -> g = Responded listing) /\
    (if decide (StatusCode listing = StatusOK) then
       exists existing, json_Decode (Body listing) = inr existing /\
         map sent dels
           ≡ₚ map (fun kv => delete_request c id kv.1) (map_to_list existing)
     else dels = []) /\
    map sent adds
      ≡ₚ map (fun kv => add_request c id kv.1 (ValueString kv.2)) (map_to_list elems) /\
    collection_of c st' = MapValue elems.
Proof.
  intros Hrange Hm Hrun id. subst id.
  destruct (managed_collection_in_pass _ _ _ _ _ _ Hm Hrun)
    as (listing & before & dels & adds & after & -> & Hoff & Hdels & Hadds & Hmap).
  exists listing, before, dels, adds, after.
  split; [reflexivity|]. split; [exact Hoff|]. split; [|split; [|split]].
  - intros g Hin. symmetry.
    apply (listing_once c (ValueString (ID data)) before dels adds after
             {| sent := list_request c (ValueString (ID data)); got := Responded listing |}
             g eq_refl Hoff); [| |exact Hin].
    + destruct (decide (StatusCode listing = StatusOK)).
      * destruct Hdels as (existing & _ & ->). apply delete_requests_not_get.
      * subst dels. constructor.
    + rewrite Hadds. apply add_requests_not_get.
  - destruct (decide (StatusCode listing = StatusOK)); [|exact Hdels].
    destruct Hdels as (existing & Hdec & Hdels). exists existing.
    split; [exact Hdec|]. rewrite Hdels. apply fmap_Permutation, Hrange.
  - rewrite Hadds. apply fmap_Permutation, Hrange.
  - rewrite Hmap. f_equal. apply foldl_insert_entries, Hrange.
Qed.

(** C4: a managed secrets map is reconciled by replacing everything.  A
    pass that sets the state has listed the remote secrets, once; with the
    listing answered with status 200 by the keys of [existing], it has
    then sent one deletion per listed key (none at all for another
    status), then one addition per desired entry, and nothing else to the
    secrets endpoint; and the state it sets holds exactly the desired
    map. *)
Theorem C4_secrets_replace_all data state resp tr st' elems :
  (forall A (m : gmap string A), range A m ≡ₚ map_to_list m) ->
  Secrets data = MapValue elems ->
  Update data state resp = (tr, State_Set st' resp) ->
  let id := ValueString (ID data) in
  exists listing before dels adds after,
    tr = before ++ [{| sent := list_request SecretsC id; got := Responded listing |}]
           ++ dels ++ adds ++ after /\
    Forall (fun e => ~ on_collection SecretsC id e) (before ++ after) /\
    (forall g, In {| sent := list_request SecretsC id; got := g |} tr ->
       g = Responded listing) /\
    (if decide (StatusCode listing = StatusOK) then
       exists existing, json_Decode (Body listing) = inr existing /\
         map sent dels
           ≡ₚ map (fun kv => delete_request SecretsC id kv.1) (map_to_list existing)
     else dels = []) /\
    map sent adds
      ≡ₚ map (fun kv => add_request SecretsC id kv.1 (ValueString kv.2))
           (map_to_list elems) /\
    Secrets st' = MapValue elems.
Proof.
  intros Hrange Hm HU id. apply Update_sets_state in HU.
  exact (replace_all_in_pass SecretsC data state tr st' elems Hrange Hm HU).
Qed.

(** *** A pass whose plan is the observed state *)

(** A collection step sends to its own endpoint, and only when the map is
    managed. *)
Lemma triple_collection_managed c data s :
  triple (update_collection c data s)
    (fun e => exists c', ~ unset (collection_of c' data) /\
                on_collection c' (ValueString (ID data)) e)
    passed
    (fun s' => s' = s \/ exists m, s' = set_collection c (MapValue m) s).
Proof.
  destruct (collection_of c data) as [| |elems] eqn:Hm.
  - rewrite update_collection_unmanaged by (left; rewrite Hm; reflexivity).
    apply triple_ret. auto.
  - rewrite update_collection_unmanaged by (right; rewrite Hm; reflexivity).
    apply triple_ret. auto.
  - eapply triple_weaken; [apply triple_collection| |auto|auto].
    intros e He. exists c. split; [|exact He].
    rewrite Hm. intros [H|H]; discriminate H.
Qed.

(** A collection step that goes on from a state holding the desired map
    hands that state on. *)
Lemma update_collection_same c data s tr tr' s' :
  (forall A (m : gmap string A), range A m ≡ₚ map_to_list m) ->
  collection_of c s = collection_of c data ->
  update_collection c data s tr = (tr', inr s') -> s' = s.
Proof.
  intros Hrange Heq H. destruct (collection_of c data) as [| |elems] eqn:Hm.
  - rewrite update_collection_unmanaged in H by (left; rewrite Hm; reflexivity).
    unfold ret in H. congruence.
  - rewrite update_collection_unmanaged in H by (right; rewrite Hm; reflexivity).
    unfold ret in H. congruence.
  - destruct (update_collection_ok _ _ _ _ _ _ _ Hm H)
      as (listing & dels & adds & _ & _ & _ & _ & ->).
    rewrite (foldl_insert_entries elems) by apply Hrange.
    rewrite <- Heq. destruct c, s; reflexivity.
Qed.

(** With the plan equal to the state, the pass is its two collection
    steps. *)
Lemma bind_ext_run {A B} (m : M A) (k1 k2 : A -> M B) tr :
  (forall tr1 a, m tr = (tr1, inr a) -> k1 a tr1 = k2 a tr1) ->
  bind m k1 tr = bind m k2 tr.
Proof.
  intros Hk. unfold bind. destruct (m tr) as [tr1 [d|a]]; [reflexivity|].
  apply Hk. reflexivity.
Qed.

Lemma update_steps_equal data tr :
  update_steps data data tr
  = (let* s3 := update_collection SecretsC data data in
     let* s4 := update_collection VariablesC data s3 in
     ret s4) tr.
Proof.
  unfold update_steps.
  unfold update_rename. rewrite decide_False by auto. rewrite bind_ret_l.
  unfold update_visibility. rewrite decide_False by auto. rewrite bind_ret_l.
  rewrite update_secrets_view. apply bind_ext_run. intros tr3 s3 H3.
  rewrite update_variables_view. apply bind_ext_run. intros tr4 s4 H4.
  pose proof (update_collection_frame _ _ _ _ _ _ H3) as (_ & _ & W3 & G3 & Z3).
  pose proof (update_collection_frame _ _ _ _ _ _ H4) as (_ & _ & W4 & G4 & Z4).
  unfold update_hardware. rewrite decide_False by (rewrite W4, W3; auto).
  rewrite bind_ret_l.
  unfold update_storage. rewrite decide_False by (rewrite G4, G3; auto).
  rewrite bind_ret_l.
  unfold update_sleeptime. rewrite decide_False by (rewrite Z4, Z3; auto).
  rewrite bind_ret_l. reflexivity.
Qed.

(** The first call of the two collection steps is the listing of the
    first managed collection. *)
Lemma first_listing_of_steps data c s3 ext3 ext4 out :
  update_collection SecretsC data data [] = (ext3, inr s3) ->
  update_collection VariablesC data s3 ext3 = (ext3 ++ ext4, out) ->
  ~ unset (collection_of c data) ->
  c = SecretsC \/ unset (Secrets data) ->
  exists a rest,
    ext3 ++ ext4 = {| sent := list_request c (ValueString (ID data)); got := a |} :: rest.
Proof.
  intros H3 H4 Hc Hfirst.
  destruct (collection_of c data) as [| |elems] eqn:Hm;
    try (destruct Hc; rewrite ?Hm; unfold unset; simpl; auto; fail).
  destruct c.
  - destruct (update_collection_run _ _ _ _ _ _ _ Hm H3) as (rest & -> & _).
    cbn [app]. eauto.
  - destruct Hfirst as [[=]|Hu].
    rewrite update_collection_unmanaged in H3 by exact Hu.
    unfold ret in H3. injection H3 as <- <-.
    destruct (update_collection_run _ _ _ _ _ _ _ Hm H4) as (rest & -> & _).
    cbn [app]. eauto.
Qed.

(** C2, as amended: a pass whose plan equals the observed state.  With
    both maps unset it issues no call and sets the observed state.  In
    every case its calls go to the endpoints of the managed maps only, and
    a state it sets is the observed one (the order of [range] being one of
    the entries of the map).  But it is not free of calls when a map is
    managed: it opens with the listing of the first managed collection. *)
Theorem C2_update_on_equal_spaces data state resp :
  data = state ->
  let id := ValueString (ID data) in
  (unset (Secrets data) -> unset (Variables data) ->
   Update data state resp = ([], State_Set state resp)) /\
  forall tr resp', Update data state resp = (tr, resp') ->
    Forall (fun e => exists c, ~ unset (collection_of c data) /\ on_collection c id e) tr /\
    (forall c, ~ unset (collection_of c data) ->
       c = SecretsC \/ unset (Secrets data) ->
       exists a rest, tr = {| sent := list_request c id; got := a |} :: rest) /\
    (forall st', resp' = State_Set st' resp ->
       (forall A (m : gmap string A), range A m ≡ₚ map_to_list m) -> st' = state).
Proof.
  intros <- id. subst id. split.
  - intros Hs Hv. unfold Update. rewrite update_steps_equal.
    rewrite (update_collection_unmanaged SecretsC) by exact Hs. rewrite bind_ret_l.
    rewrite (update_collection_unmanaged VariablesC) by exact Hv. rewrite bind_ret_l.
    reflexivity.
  - intros tr resp' HU.
    assert (Hrun : exists out, update_steps data data [] = (tr, out) /\
                     resp' = match out with
                             | inl d => AddError d resp
                             | inr st' => State_Set st' resp
                             end).
    { apply Update_outcome in HU as [(d & Hrun & ->)|(st' & Hrun & ->)]; eauto. }
    destruct Hrun as (out & Hrun & ->). rewrite update_steps_equal in Hrun.
    unfold bind at 1 in Hrun.
    destruct (update_collection SecretsC data data []) as [tr3 [d|s3]] eqn:H3.
    + (* the secrets step stopped the pass *)
      injection Hrun as <- <-.
      destruct (triple_collection_managed _ _ _ _ _ _ H3) as (ext & -> & HP & _).
      split; [exact HP|]. split.
      * intros c Hc Hfirst.
        assert (c = SecretsC) as ->.
        { destruct Hfirst as [->|Hu]; [reflexivity|].
          rewrite update_collection_unmanaged in H3 by exact Hu. discriminate H3. }
        destruct (collection_of SecretsC data) as [| |elems] eqn:Hm;
          try (destruct Hc; rewrite ?Hm; unfold unset; simpl; auto; fail).
        destruct (update_collection_run _ _ _ _ _ _ _ Hm H3) as (rest & Hrest & _).
        cbn [app] in Hrest. eauto.
      * intros st' Hresp. symmetry in Hresp.
        destruct (State_Set_not_AddError _ _ _ Hresp).
    + unfold bind at 1 in Hrun.
      destruct (update_collection VariablesC data s3 tr3) as [tr4 [d|s4]] eqn:H4;
        unfold ret in Hrun; injection Hrun as <- <-;
        destruct (triple_collection_managed _ _ _ _ _ _ H3) as (ext3 & -> & HP3 & _);
        destruct (triple_collection_managed _ _ _ _ _ _ H4) as (ext4 & -> & HP4 & _);
        cbn [app] in *.
      * split; [apply Forall_app; auto|]. split.
        -- intros c Hc Hfirst.
           apply (first_listing_of_steps data c s3 ext3 ext4 (inl d)); assumption.
        -- intros st' Hresp. symmetry in Hresp.
           destruct (State_Set_not_AddError _ _ _ Hresp).
      * split; [apply Forall_app; auto|]. split.
        -- intros c Hc Hfirst.
           apply (first_listing_of_steps data c s3 ext3 ext4 (inr s4)); assumption.
        -- intros st' Hresp Hrange.
           apply (f_equal State) in Hresp. simpl in Hresp. injection Hresp as <-.
           assert (s3 = data) as ->
             by (eapply update_collection_same; [exact Hrange|reflexivity|exact H3]).
           eapply update_collection_same; [exact Hrange|reflexivity|exact H4].
Qed.

(** ** Further properties of the lifecycle methods *)

(** *** Fail-fast *)

Lemma fail_fast_ret {A} (a : A) : fail_fast (ret a).
Proof.
  intros tr tr' out [= <- <-]. exists []. rewrite app_nil_r. repeat split; constructor.
Qed.

Lemma fail_fast_fail {A} s d : fail_fast (@fail A s d).
Proof.
  intros tr tr' out [= <- <-]. exists []. rewrite app_nil_r.
  repeat split; [constructor|discriminate].
Qed.

Lemma removelast_passed l : Forall passed l -> Forall passed (removelast l).
Proof.
  induction 1 as [|e l He Hl IH]; [constructor|].
  destruct l; [constructor|]. simpl. constructor; assumption.
Qed.

Lemma fail_fast_bind {A B} (m : M A) (k : A -> M B) :
  fail_fast m -> (forall a, fail_fast (k a)) -> fail_fast (bind m k).
Proof.
  intros Hm Hk tr tr' out H. unfold bind in H.
  destruct (m tr) as [tr1 [d|a]] eqn:E.
  - simplify_eq. destruct (Hm _ _ _ E) as (ext & -> & Hinit & _).
    exists ext. repeat split; [assumption|discriminate].
  - destruct (Hm _ _ _ E) as (ext1 & -> & _ & Hall1).
    specialize (Hall1 a eq_refl).
    destruct (Hk a _ _ _ H) as (ext2 & -> & Hinit2 & Hall2).
    exists (ext1 ++ ext2). rewrite app_assoc. split; [reflexivity|]. split.
    + destruct ext2 as [|e ext2].
      * rewrite app_nil_r. apply removelast_passed, Hall1.
      * rewrite removelast_app by discriminate. apply Forall_app. split; auto.
    + intros b Hb. apply Forall_app. split; eauto.
Qed.

(** A call followed by code that stops at once, emitting nothing, unless
    the call passed. *)
Lemma fail_fast_call {B} (r : Request) (k : HttpResult -> M B) :
  (forall g, fail_fast (k g)) ->
  (forall g tr, ~ passed {| sent := r; got := g |} -> exists d, k g tr = (tr, inl d)) ->
  fail_fast (bind (Do client r) k).
Proof.
  intros Hk Hstop tr tr' out H. unfold bind, Do in H. cbv zeta in H.
  set (g := client tr r) in *. set (e := {| sent := r; got := g |}) in *.
  destruct (decide (passed e)) as [Hp|Hn].
  - destruct (Hk g _ _ _ H) as (ext & -> & Hinit & Hall).
    exists (e :: ext). rewrite <- app_assoc. split; [reflexivity|]. split.
    + destruct ext; [constructor|]. simpl. constructor; assumption.
    + intros b Hb. constructor; eauto.
  - destruct (Hstop g (tr ++ [e]) Hn) as [d Hd]. rewrite Hd in H. simplify_eq.
    exists [e]. repeat split; [constructor|discriminate].
Qed.

Lemma fail_fast_for_range {A St} (kvs : list (string * A)) iter (s : St) :
  (forall key value s', fail_fast (iter key value s')) ->
  fail_fast (for_range kvs iter s).
Proof.
  intros Hiter. revert s. induction kvs as [|[key value] rest IH]; intros s; simpl.
  - apply fail_fast_ret.
  - apply fail_fast_bind; [apply Hiter|]. intros s'. apply IH.
Qed.

Lemma fail_fast_pipeline l s :
  Forall (fun f => forall s0 : SpaceResourceModel, fail_fast (f s0)) l ->
  fail_fast (pipeline l s).
Proof.
  intros Hl. revert s. induction Hl as [|f l Hf Hl IH]; intros s; simpl.
  - apply fail_fast_ret.
  - apply fail_fast_bind; [apply Hf|]. exact IH.
Qed.

(** A step of at most one call, all of whose successful calls passed, is
    fail-fast. *)
Lemma fail_fast_single {A} (m : M A) P Q :
  triple m P passed Q ->
  (forall tr tr' out, m tr = (tr', out) -> (length tr' <= S (length tr))%nat) ->
  fail_fast m.
Proof.
  intros Hm Hlen tr tr' out H.
  destruct (Hm _ _ _ H) as (ext & -> & _ & Hok).
  specialize (Hlen _ _ _ H). rewrite length_app in Hlen.
  exists ext. split; [reflexivity|]. split.
  - destruct ext as [|e [|e' ext]]; simpl in *; [constructor|constructor|exfalso; lia].
  - intros a Ha. destruct (Hok a Ha). assumption.
Qed.

Ltac at_most_one_call H :=
  run_step H; rewrite ?length_app; simpl; lia.

Lemma fail_fast_rename data s : fail_fast (update_rename data s).
Proof.
  eapply fail_fast_single; [apply triple_rename|]. intros tr tr' out H.
  unfold update_rename in H. case_decide; at_most_one_call H.
Qed.

Lemma fail_fast_visibility data s : fail_fast (update_visibility data s).
Proof.
  eapply fail_fast_single; [apply triple_visibility|]. intros tr tr' out H.
  unfold update_visibility in H. case_decide; at_most_one_call H.
Qed.

Lemma fail_fast_hardware data s : fail_fast (update_hardware data s).
Proof.
  eapply fail_fast_single; [apply triple_hardware|]. intros tr tr' out H.
  unfold update_hardware in H. case_decide; at_most_one_call H.
Qed.

Lemma fail_fast_storage data s : fail_fast (update_storage data s).
Proof.
  eapply fail_fast_single; [apply triple_storage|]. intros tr tr' out H.
  unfold update_storage in H. case_decide; at_most_one_call H.
Qed.

Lemma fail_fast_sleeptime data s : fail_fast (update_sleeptime data s).
Proof.
  eapply fail_fast_single; [apply triple_sleeptime|]. intros tr tr' out H.
  unfold update_sleeptime in H. case_decide; at_most_one_call H.
Qed.

Lemma fail_fast_add_entry {A} c id key value (next : A) :
  fail_fast (add_entry c id key value next).
Proof.
  eapply fail_fast_single; [apply triple_add_entry|]. intros tr tr' out H.
  unfold add_entry in H. at_most_one_call H.
Qed.

Lemma fail_fast_delete_entry c id key : fail_fast (delete_entry c id key).
Proof.
  eapply fail_fast_single; [apply triple_delete_entry|]. intros tr tr' out H.
  unfold delete_entry in H. at_most_one_call H.
Qed.

Lemma fail_fast_collection c data s : fail_fast (update_collection c data s).
Proof.
  unfold update_collection.
  destruct (negb _ && negb _); [|apply fail_fast_ret].
  cbv zeta. unfold Get. apply fail_fast_call.
  - intros [err|listing]; [apply fail_fast_fail|].
    apply fail_fast_bind.
    + unfold delete_existing. case_decide; [|apply fail_fast_ret].
      destruct (json_Decode _); [apply fail_fast_fail|].
      apply fail_fast_for_range. intros. apply fail_fast_delete_entry.
    + intros _. apply fail_fast_bind; [|intros; apply fail_fast_ret].
      unfold add_new. apply fail_fast_for_range. intros. apply fail_fast_add_entry.
  - intros [err|listing] tr Hn.
    + eexists. reflexivity.
    + destruct Hn. unfold passed. simpl. auto.
Qed.

Lemma fail_fast_update_pipeline data :
  Forall (fun f => forall s0 : SpaceResourceModel, fail_fast (f s0))
    (update_pipeline data).
Proof.
  unfold update_pipeline. each_step; intros s0.
  - apply fail_fast_rename.
  - apply fail_fast_visibility.
  - apply fail_fast_collection.
  - apply fail_fast_collection.
  - apply fail_fast_hardware.
  - apply fail_fast_storage.
  - apply fail_fast_sleeptime.
Qed.

(** X1: [Update] is fail-fast.  In every run, whatever the client answers,
    each call but the last got the answer its step goes on from (status
    200, or any response for a listing); when the state is set, the last
    call did too. *)
Theorem Update_fail_fast data state resp :
  let run := Update data state resp in
  Forall passed (removelast run.1) /\
  forall st', run.2 = State_Set st' resp -> Forall passed run.1.
Proof.
  intros run. subst run.
  destruct (Update data state resp) as [tr resp'] eqn:HU. cbn [fst snd].
  pose proof (fail_fast_pipeline _ state (fail_fast_update_pipeline data)) as Hff.
  split.
  - apply Update_outcome in HU as [(d & Hrun & _)|(st' & Hrun & _)];
      rewrite update_steps_pipeline in Hrun;
      destruct (Hff _ _ _ Hrun) as (ext & -> & Hinit & _); exact Hinit.
  - intros st' ->. apply Update_sets_state in HU.
    rewrite update_steps_pipeline in HU.
    destruct (Hff _ _ _ HU) as (ext & -> & _ & Hall). exact (Hall _ eq_refl).
Qed.

(** *** The order of the calls *)

Lemma emits_single {A} (m : M A) q Pok Q :
  triple m (fun e => sent e = q) Pok Q ->
  (forall tr tr' out, m tr = (tr', out) -> (length tr' <= S (length tr))%nat) ->
  emits m (at_most_call q).
Proof.
  intros Hm Hlen tr tr' out H.
  destruct (Hm _ _ _ H) as (ext & -> & HP & _).
  specialize (Hlen _ _ _ H). rewrite length_app in Hlen.
  exists ext. split; [reflexivity|].
  destruct ext as [|[q' a] [|e' ext]]; simpl in *; [left; reflexivity| |exfalso; lia].
  right. exists a. apply Forall_cons in HP as [Hq _]. simpl in Hq. subst. reflexivity.
Qed.

Lemma emits_rename data s : emits (update_rename data s) (at_most_call (move_request data s)).
Proof.
  eapply emits_single; [apply triple_rename|]. intros tr tr' out H.
  unfold update_rename in H. case_decide; at_most_one_call H.
Qed.

Lemma emits_visibility data s :
  emits (update_visibility data s) (at_most_call (settings_request data)).
Proof.
  eapply emits_single; [apply triple_visibility|]. intros tr tr' out H.
  unfold update_visibility in H. case_decide; at_most_one_call H.
Qed.

Lemma emits_hardware data s :
  emits (update_hardware data s) (at_most_call (hardware_request data)).
Proof.
  eapply emits_single; [apply triple_hardware|]. intros tr tr' out H.
  unfold update_hardware in H. case_decide; at_most_one_call H.
Qed.

Lemma emits_storage data s :
  emits (update_storage data s) (at_most_call (storage_request data)).
Proof.
  eapply emits_single; [apply triple_storage|]. intros tr tr' out H.
  unfold update_storage in H. case_decide; at_most_one_call H.
Qed.

Lemma emits_sleeptime data s :
  emits (update_sleeptime data s) (at_most_call (sleeptime_request data)).
Proof.
  eapply emits_single; [apply triple_sleeptime|]. intros tr tr' out H.
  unfold update_sleeptime in H. case_decide; at_most_one_call H.
Qed.

Lemma triple_delete_requests c id listing :
  triple (delete_existing c id listing)
    (fun e => exists key, sent e = delete_request c id key) passed (fun _ => True).
Proof.
  unfold delete_existing. case_decide; [|apply triple_ret; auto].
  destruct (json_Decode (Body listing)); [apply triple_fail|].
  apply triple_for_range. intros key _ _.
  eapply triple_weaken; [apply triple_delete_entry|intros e He; simpl in He; eauto|auto|auto].
Qed.

Lemma triple_add_requests c id elems :
  triple (add_new c id elems)
    (fun e => exists key value, sent e = add_request c id key value) passed
    (fun _ => True).
Proof.
  unfold add_new. apply triple_for_range. intros key value stateMap.
  eapply triple_weaken; [apply triple_add_entry|intros e He; simpl in He; eauto|auto|auto].
Qed.

Lemma emits_collection c data s :
  emits (update_collection c data s) (collection_calls c (ValueString (ID data))).
Proof.
  intros tr tr' out H. unfold update_collection in H.
  destruct (negb _ && negb _).
  2: { unfold ret in H. simplify_eq. exists []. rewrite app_nil_r.
       split; [reflexivity|left; reflexivity]. }
  cbv zeta in H. unfold bind at 1 in H. unfold Get, Do in H. cbv zeta in H.
  fold (list_request c (ValueString (ID data))) in H.
  set (a := client tr _) in *. set (fetch := {| sent := _; got := a |}) in *.
  destruct a as [err|listing] eqn:Ha.
  - unfold fail in H. simplify_eq. exists [fetch]. split; [reflexivity|].
    right. exists (TransportError err), [], []. repeat split; constructor.
  - unfold bind at 1 in H.
    destruct (delete_existing c _ listing _) as [tr1 [d|[]]] eqn:Hdel;
      destruct (triple_delete_requests _ _ _ _ _ _ Hdel) as (dels & -> & Hdels & _).
    + simplify_eq. exists (fetch :: dels). rewrite <- app_assoc.
      split; [reflexivity|]. right. exists (Responded listing), dels, [].
      rewrite app_nil_r. repeat split; [assumption|constructor].
    + unfold bind in H.
      destruct (add_new c _ _ _) as [tr2 added] eqn:Hadd.
      destruct (triple_add_requests _ _ _ _ _ _ Hadd) as (adds & -> & Hadds & _).
      exists (fetch :: dels ++ adds).
      assert (tr' = ((tr ++ [fetch]) ++ dels) ++ adds) as ->.
      { destruct added; unfold ret in H; simplify_eq; reflexivity. }
      rewrite <- !app_assoc. split; [reflexivity|].
      right. exists (Responded listing), dels, adds. auto.
Qed.

Lemma emits_bind {A B} (m : M A) (k : A -> M B) R1 R2 :
  emits m R1 -> (forall a, emits (k a) R2) -> R2 [] ->
  emits (bind m k) (fun ext => exists e1 e2, ext = e1 ++ e2 /\ R1 e1 /\ R2 e2).
Proof.
  intros Hm Hk Hnil tr tr' out H. unfold bind in H.
  destruct (m tr) as [tr1 [d|a]] eqn:E;
    destruct (Hm _ _ _ E) as (e1 & -> & H1).
  - simplify_eq. exists e1. split; [reflexivity|].
    exists e1, []. rewrite app_nil_r. auto.
  - destruct (Hk a _ _ _ H) as (e2 & -> & H2).
    exists (e1 ++ e2). rewrite app_assoc. split; [reflexivity|]. eauto.
Qed.

(** X2: the calls of [Update] come in the order of its blocks.  The trace
    of every run is the rename call (if any), then the visibility call,
    then the calls on the secrets (the listing, deletions, additions),
    then those on the variables, then the hardware, storage and
    sleep-time calls: at most one call for each scalar property. *)
Theorem Update_call_order data state resp :
  let id := ValueString (ID data) in
  exists r v s w h g z,
    (Update data state resp).1 = r ++ v ++ s ++ w ++ h ++ g ++ z /\
    at_most_call (move_request data state) r /\
    at_most_call (settings_request data) v /\
    collection_calls SecretsC id s /\
    collection_calls VariablesC id w /\
    at_most_call (hardware_request data) h /\
    at_most_call (storage_request data) g /\
    at_most_call (sleeptime_request data) z.
Proof.
  intros id.
  set (R7 := fun e6 : list Exchange =>
    exists z e7, e6 = z ++ e7 /\ at_most_call (sleeptime_request data) z /\ e7 = []).
  set (R6 := fun e5 : list Exchange =>
    exists g e6, e5 = g ++ e6 /\ at_most_call (storage_request data) g /\ R7 e6).
  set (R5 := fun e4 : list Exchange =>
    exists h e5, e4 = h ++ e5 /\ at_most_call (hardware_request data) h /\ R6 e5).
  set (R4 := fun e3 : list Exchange =>
    exists w e4, e3 = w ++ e4 /\ collection_calls VariablesC id w /\ R5 e4).
  set (R3 := fun e2 : list Exchange =>
    exists s e3, e2 = s ++ e3 /\ collection_calls SecretsC id s /\ R4 e3).
  set (R2 := fun e1 : list Exchange =>
    exists v e2, e1 = v ++ e2 /\ at_most_call (settings_request data) v /\ R3 e2).
  assert (Hnil : forall q, at_most_call q []) by (left; reflexivity).
  assert (Hcnil : forall c, collection_calls c id []) by (left; reflexivity).
  assert (H7 : R7 []) by (exists [], []; auto).
  assert (H6 : R6 []) by (exists [], []; auto).
  assert (H5 : R5 []) by (exists [], []; auto).
  assert (H4 : R4 []) by (exists [], []; auto).
  assert (H3 : R3 []) by (exists [], []; auto).
  assert (H2 : R2 []) by (exists [], []; auto).
  assert (Hsteps : emits (update_steps data state)
    (fun ext => exists r e1, ext = r ++ e1 /\
                  at_most_call (move_request data state) r /\ R2 e1)).
  { unfold update_steps.
    apply emits_bind; [apply emits_rename| |exact H2].
    intros s1. apply emits_bind; [apply emits_visibility| |exact H3].
    intros s2. rewrite update_secrets_view.
    apply emits_bind; [apply emits_collection| |exact H4].
    intros s3. rewrite update_variables_view.
    apply emits_bind; [apply emits_collection| |exact H5].
    intros s4. apply emits_bind; [apply emits_hardware| |exact H6].
    intros s5. apply emits_bind; [apply emits_storage| |exact H7].
    intros s6. apply emits_bind; [apply emits_sleeptime| |reflexivity].
    intros s7 tr tr' out [= <- <-]. exists []. rewrite app_nil_r. auto. }
  unfold Update, finish.
  destruct (update_steps data state []) as [tr out] eqn:Hrun.
  destruct (Hsteps _ _ _ Hrun)
    as (ext & -> & r & e1 & -> & Hr & v & e2 & -> & Hv & s & e3 & -> & Hs &
        w & e4 & -> & Hw & h & e5 & -> & Hh & g & e6 & -> & Hg & z & e7 & -> & Hz & ->).
  exists r, v, s, w, h, g, z. rewrite app_nil_r.
  split; [destruct out; reflexivity|]. auto 10.
Qed.

(** *** A second pass *)

Lemma settled_steps data :
  Forall (fun f => forall s0, settled data s0 ->
            triple (f s0)
              (fun e => sent e = settings_request data \/
                        on_collection SecretsC (ValueString (ID data)) e \/
                        on_collection VariablesC (ValueString (ID data)) e)
              passed (settled data))
    (update_pipeline data).
Proof.
  unfold update_pipeline. each_step; intros s0 (Hn & Hh & Hg & Hz).
  - unfold update_rename. rewrite decide_False by (intros Hne; apply Hne; assumption).
    apply triple_ret. repeat split; assumption.
  - eapply triple_weaken; [apply triple_visibility|auto|auto|].
    intros s ->. repeat split; assumption.
  - eapply triple_weaken; [apply (triple_collection SecretsC)|auto|auto|].
    intros s [->|[m ->]]; repeat split; assumption.
  - eapply triple_weaken; [apply (triple_collection VariablesC)|auto|auto|].
    intros s [->|[m ->]]; repeat split; assumption.
  - unfold update_hardware. rewrite decide_False by (intros Hne; apply Hne; assumption).
    apply triple_ret. repeat split; assumption.
  - unfold update_storage. rewrite decide_False by (intros Hne; apply Hne; assumption).
    apply triple_ret. repeat split; assumption.
  - unfold update_sleeptime. rewrite decide_False by (intros Hne; apply Hne; assumption).
    apply triple_ret. repeat split; assumption.
Qed.

Lemma steps_written data state tr st' :
  update_steps data state [] = (tr, inr st') ->
  Private st' = Private state /\ settled data st'.
Proof.
  intros HU. unfold update_steps in HU.
  apply bind_ok in HU as (tr1 & s1 & H1 & HU).
  apply bind_ok in HU as (tr2 & s2 & H2 & HU).
  apply bind_ok in HU as (tr3 & s3 & H3 & HU).
  apply bind_ok in HU as (tr4 & s4 & H4 & HU).
  apply bind_ok in HU as (tr5 & s5 & H5 & HU).
  apply bind_ok in HU as (tr6 & s6 & H6 & HU).
  apply bind_ok in HU as (tr7 & s7 & H7 & Hret). unfold ret in Hret. simplify_eq.
  rewrite update_secrets_view in H3. rewrite update_variables_view in H4.
  apply update_rename_ok in H1 as (N1 & P1 & W1 & G1 & Z1).
  apply update_visibility_ok in H2 as ->.
  apply update_collection_frame in H3 as (N3 & P3 & W3 & G3 & Z3).
  apply update_collection_frame in H4 as (N4 & P4 & W4 & G4 & Z4).
  apply update_hardware_ok in H5 as (W5 & N5 & P5 & G5 & Z5).
  apply update_storage_ok in H6 as (G6 & N6 & P6 & W6 & Z6).
  apply update_sleeptime_ok in H7 as (Z7 & N7 & P7 & W7 & G7).
  unfold settled. repeat split; congruence.
Qed.

(** X3: what a second pass does.  After a pass that set the state, a
    further pass with the same plan sends no rename, hardware, storage or
    sleep-time call; and when the plan's visibility differs from the one
    first observed, it opens with the visibility call again. *)
Theorem Update_second_pass data state resp tr st' resp2 :
  Update data state resp = (tr, State_Set st' resp) ->
  let id := ValueString (ID data) in
  let tr2 := (Update data st' resp2).1 in
  Forall (fun e => sent e = settings_request data \/
                   on_collection SecretsC id e \/ on_collection VariablesC id e) tr2 /\
  (Private state <> Private data ->
   exists a rest, tr2 = {| sent := settings_request data; got := a |} :: rest).
Proof.
  intros HU id tr2. subst tr2.
  destruct (steps_written _ _ _ _ (Update_sets_state _ _ _ _ _ HU)) as [Hp Hsettled].
  pose proof Hsettled as (Hn & Hh & Hg & Hz).
  destruct (Update data st' resp2) as [tr2 resp2'] eqn:HU2. cbn [fst].
  assert (Hrun : exists out, pipeline (update_pipeline data) st' [] = (tr2, out)).
  { apply Update_outcome in HU2 as [(d & Hrun & _)|(s & Hrun & _)];
      rewrite update_steps_pipeline in Hrun; eauto. }
  destruct Hrun as [out Hrun]. split.
  - destruct (triple_pipeline _ _ _ _ _ Hsettled (settled_steps data) _ _ _ Hrun)
      as (ext & -> & HP & _). exact HP.
  - intros Hdiff. rewrite <- Hp in Hdiff.
    change (update_pipeline data)
      with ([update_rename data] ++ update_visibility data
              :: [update_collection SecretsC data; update_collection VariablesC data;
                  update_hardware data; update_storage data; update_sleeptime data])
      in Hrun.
    apply pipeline_split in Hrun
      as [(d & Hrun & _)|(tr1 & s1 & Hrun & Hvis)].
    + exfalso. simpl in Hrun. unfold update_rename in Hrun.
      rewrite decide_False in Hrun by (intros Hne; apply Hne; assumption). discriminate Hrun.
    + simpl in Hrun. unfold update_rename in Hrun.
      rewrite decide_False in Hrun by (intros Hne; apply Hne; assumption). injection Hrun as <- <-.
      assert (Hfirst : forall t o, update_visibility data st' [] = (t, o) ->
                 exists a, t = [{| sent := settings_request data; got := a |}]).
      { intros t o Hv. unfold update_visibility in Hv.
        rewrite decide_True in Hv by exact Hdiff. run_step Hv; eexists;
          unfold_names; reflexivity. }
      destruct Hvis as [(d & Hvis & _)|(t2 & s2 & Hvis & Hrest)].
      * destruct (Hfirst _ _ Hvis) as [a ->]. eauto.
      * destruct (Hfirst _ _ Hvis) as [a ->].
        assert (Htrue : Forall (fun f => forall s0 : SpaceResourceModel, True ->
                           triple (f s0) (fun _ => True) passed (fun _ => True))
                  [update_collection SecretsC data; update_collection VariablesC data;
                   update_hardware data; update_storage data; update_sleeptime data]).
        { each_step; intros s0 _.
          - eapply triple_weaken; [apply (triple_collection SecretsC)|auto..].
          - eapply triple_weaken; [apply (triple_collection VariablesC)|auto..].
          - eapply triple_weaken; [apply triple_hardware|auto..].
          - eapply triple_weaken; [apply triple_storage|auto..].
          - eapply triple_weaken; [apply triple_sleeptime|auto..]. }
        destruct (triple_pipeline _ _ _ _ _ I Htrue _ _ _ Hrest) as (ext & -> & _).
        exists a, ext. reflexivity.
Qed.

(** *** The identifier after a rename *)

Lemma append_nil_r (a : string) : a +:+ "" = a.
Proof.
  induction a as [|ch a IH]; [reflexivity|].
  change (String ch (a +:+ "") = String ch a). rewrite IH. reflexivity.
Qed.

Lemma append_assoc (a b c : string) : (a +:+ b) +:+ c = a +:+ (b +:+ c).
Proof.
  induction a as [|ch a IH]; [reflexivity|].
  change (String ch ((a +:+ b) +:+ c) = String ch (a +:+ (b +:+ c))).
  rewrite IH. reflexivity.
Qed.

Lemma Split_from_no_slash piece ns :
  no_slash ns = true -> Split_from piece ns "/" = [piece +:+ ns].
Proof.
  revert piece. induction ns as [|ch ns IH]; intros piece Hns; simpl in *.
  - rewrite append_nil_r. reflexivity.
  - apply andb_true_iff in Hns as [Hch Hns]. apply negb_true_iff in Hch.
    rewrite Hch. rewrite IH by exact Hns. rewrite append_assoc. reflexivity.
Qed.

Lemma Split_from_first piece ns rest :
  no_slash ns = true ->
  exists pieces, Split_from piece (ns +:+ "/" +:+ rest) "/" = (piece +:+ ns) :: pieces.
Proof.
  revert piece. induction ns as [|ch ns IH]; intros piece Hns; simpl in *.
  - rewrite append_nil_r. eauto.
  - apply andb_true_iff in Hns as [Hch Hns]. apply negb_true_iff in Hch.
    rewrite Hch. destruct (IH (piece +:+ String ch "") Hns) as [pieces ->].
    rewrite append_assoc. eauto.
Qed.

(** X4: the target of a rename keeps the namespace.  With an identifier
    ns/rest whose first segment ns holds no slash, the new identifier is
    ns/name for the desired name; an identifier with no slash at all is
    taken whole as the namespace. *)
Theorem toRepo_keeps_namespace data state ns :
  no_slash ns = true ->
  (ValueString (ID state) = ns \/
   exists rest, ValueString (ID state) = ns +:+ "/" +:+ rest) ->
  toRepo data state = ns +:+ "/" +:+ ValueString (Name data).
Proof.
  intros Hns Hid. unfold toRepo, Split. cbn [Sprintf render].
  assert (Hhd : nth 0 (Split_from "" (ValueString (ID state)) "/") "" = ns).
  { destruct Hid as [->|[rest ->]].
    - rewrite Split_from_no_slash by exact Hns. reflexivity.
    - destruct (Split_from_first "" ns rest Hns) as [pieces ->]. reflexivity. }
  rewrite Hhd. rewrite append_nil_r. reflexivity.
Qed.

Lemma update_rename_result data s tr tr' s' :
  update_rename data s tr = (tr', inr s') ->
  s' = if decide (ValueString (Name s) ≠ ValueString (Name data))
       then set_Name (Name data) (set_ID (StringValue (toRepo data s)) s)
       else s.
Proof.
  intros H. unfold update_rename in H. case_decide; run_step H; reflexivity.
Qed.

Lemma kept_after_rename data (f : SpaceResourceModel -> Prop) s1 tr1 tr st' :
  kept f -> f s1 ->
  pipeline [update_visibility data; update_collection SecretsC data;
            update_collection VariablesC data; update_hardware data;
            update_storage data; update_sleeptime data] s1 tr1 = (tr, inr st') ->
  f st'.
Proof.
  intros Hkept Hs1 Hrun.
  assert (Hsteps : Forall (fun g => forall s0, f s0 ->
                      triple (g s0) (fun _ => True) passed f)
            [update_visibility data; update_collection SecretsC data;
             update_collection VariablesC data; update_hardware data;
             update_storage data; update_sleeptime data]).
  { each_step; intros s0 Hs0.
    - eapply triple_weaken; [apply triple_visibility|auto|auto|]. intros s ->. exact Hs0.
    - eapply triple_weaken; [apply (triple_collection SecretsC)|auto|auto|].
      intros s [->|[m ->]]; [exact Hs0|]. apply (Hkept s0 StringNull (MapValue m)), Hs0.
    - eapply triple_weaken; [apply (triple_collection VariablesC)|auto|auto|].
      intros s [->|[m ->]]; [exact Hs0|]. apply (Hkept s0 StringNull (MapValue m)), Hs0.
    - eapply triple_weaken; [apply triple_hardware|auto|auto|].
      intros s [->| ->]; [exact Hs0|]. apply (Hkept s0 (Hardware data) MapNull), Hs0.
    - eapply triple_weaken; [apply triple_storage|auto|auto|].
      intros s [->| ->]; [exact Hs0|]. apply (Hkept s0 (Storage data) MapNull), Hs0.
    - eapply triple_weaken; [apply triple_sleeptime|auto|auto|].
      intros s [->| ->]; [exact Hs0|]. apply (Hkept s0 StringNull MapNull), Hs0. }
  destruct (triple_pipeline _ _ _ _ _ Hs1 Hsteps _ _ _ Hrun) as (ext & _ & _ & Hok).
  destruct (Hok _ eq_refl) as [_ Hf]. exact Hf.
Qed.

(** X5: what a pass leaves of the identity of the space.  In the state a
    pass sets, the identifier and the name are those of a rename when the
    names differed (the identifier being the rename's target) and the
    observed ones otherwise; host, author, last-modified, likes and tags
    are the observed ones. *)
Theorem Update_identifier_and_frame data state resp tr st' :
  Update data state resp = (tr, State_Set st' resp) ->
  (if decide (ValueString (Name state) ≠ ValueString (Name data))
   then ID st' = StringValue (toRepo data state) /\ Name st' = Name data
   else ID st' = ID state /\ Name st' = Name state) /\
  Host st' = Host state /\ Author st' = Author state /\
  LastModified st' = LastModified state /\ Likes st' = Likes state /\
  Tags st' = Tags state.
Proof.
  intros HU. apply Update_sets_state in HU. rewrite update_steps_pipeline in HU.
  unfold update_pipeline in HU. cbn [pipeline] in HU.
  apply bind_ok in HU as (tr1 & s1 & H1 & HU).
  apply update_rename_result in H1.
  apply (kept_after_rename data
           (fun s => ID s = ID s1 /\ Name s = Name s1 /\ Host s = Host s1 /\
                     Author s = Author s1 /\ LastModified s = LastModified s1 /\
                     Likes s = Likes s1 /\ Tags s = Tags s1)) in HU.
  - destruct HU as (-> & -> & -> & -> & -> & -> & ->). subst s1.
    case_decide; auto 10.
  - intros s v m. repeat split; intros; simpl; tauto.
  - repeat split; reflexivity.
Qed.

(** *** The listing of a collection, seen from the whole pass *)

(** The step on a managed collection within a run: the listing found in
    the trace is the call that opens the step, and a step that stops ends
    the pass. *)
Lemma collection_step_in_run c data state resp tr resp' elems g :
  collection_of c data = MapValue elems ->
  Update data state resp = (tr, resp') ->
  In {| sent := list_request c (ValueString (ID data)); got := g |} tr ->
  exists before s1 rest out2 after,
    g = client before (list_request c (ValueString (ID data))) /\
    update_collection c data s1 before
      = (before ++ {| sent := list_request c (ValueString (ID data)); got := g |} :: rest,
         out2) /\
    tr = (before ++ {| sent := list_request c (ValueString (ID data)); got := g |} :: rest)
           ++ after /\
    Forall (fun e => ~ on_collection c (ValueString (ID data)) e) (before ++ after) /\
    match out2 with
    | inl d => after = [] /\ resp' = AddError d resp
    | inr s2 =>
        forall st', resp' = State_Set st' resp -> collection_of c st' = collection_of c s2
    end.
Proof.
  intros Hm HU Hin.
  set (fetch := {| sent := list_request c (ValueString (ID data)); got := g |}) in *.
  assert (Hrun : exists out, update_steps data state [] = (tr, out) /\
                   resp' = match out with
                           | inl d => AddError d resp
                           | inr st' => State_Set st' resp
                           end).
  { apply Update_outcome in HU as [(d & Hrun & ->)|(st' & Hrun & ->)]; eauto. }
  destruct Hrun as (out & Hrun & ->).
  rewrite update_steps_pipeline, (update_pipeline_around c) in Hrun.
  pose proof (off_before_collection c data) as Hhead.
  pose proof (off_after_collection c data) as Htail.
  assert (Hoff : forall l, Forall (fun e => ~ on_collection c (ValueString (ID data)) e) l ->
                   ~ In fetch l).
  { intros l Hl Hfetch. rewrite Forall_forall in Hl.
    apply list_elem_of_In, Hl in Hfetch. apply Hfetch. reflexivity. }
  apply pipeline_split in Hrun
    as [(d & Hrun & ->)|(before & s1 & Hrun & Hstep)].
  { exfalso.
    destruct (off_pipeline _ _ _ _ Hhead _ _ _ Hrun) as (ext & -> & HP & _).
    exact (Hoff _ HP Hin). }
  destruct (off_pipeline _ _ _ _ Hhead _ _ _ Hrun) as (ext & -> & Hbefore & _).
  cbn [app] in *. rename ext into before.
  assert (Hshape : exists tr2 out2 after,
    update_collection c data s1 before = (tr2, out2) /\ tr = tr2 ++ after /\
    Forall (fun e => ~ on_collection c (ValueString (ID data)) e) after /\
    match out2 with
    | inl d => after = [] /\ out = inl d
    | inr s2 => forall st', out = inr st' -> collection_of c st' = collection_of c s2
    end).
  { destruct Hstep as [(d & Hstep & ->)|(tr2 & s2 & Hstep & Hrest)].
    - exists tr, (inl d), []. rewrite app_nil_r. repeat split; auto.
    - destruct (off_pipeline _ _ _ _ Htail _ _ _ Hrest) as (after & -> & Hafter & Hst).
      exists tr2, (inr s2), after. repeat split; auto.
      intros st' ->. destruct (Hst _ eq_refl) as [_ ?]. assumption. }
  clear Hstep. destruct Hshape as (tr2 & out2 & after & Hstep & -> & Hafter & Hout).
  destruct (update_collection_run _ _ _ _ _ _ _ Hm Hstep)
    as (rest & -> & Hrest & _ & _).
  set (g' := client before (list_request c (ValueString (ID data)))) in *.
  assert (g' = g) as Heq.
  { rewrite <- app_assoc in Hin. cbn [app] in Hin.
    apply in_app_or in Hin as [Hin|[Hin|Hin]].
    - exfalso. exact (Hoff _ Hbefore Hin).
    - unfold fetch in Hin. injection Hin as Hin. exact Hin.
    - apply in_app_or in Hin as [Hin|Hin]; exfalso.
      + rewrite Forall_forall in Hrest. apply list_elem_of_In, Hrest in Hin.
        apply Hin. reflexivity.
      + exact (Hoff _ Hafter Hin). }
  exists before, s1, rest, out2, after. unfold fetch. rewrite <- Heq.
  split; [reflexivity|]. split; [exact Hstep|]. split; [reflexivity|].
  split; [apply Forall_app; split; assumption|].
  destruct out2 as [d|s2].
  - destruct Hout as [-> ->]. auto.
  - intros st' Hresp. apply Hout. destruct out as [d|st''].
    + symmetry in Hresp. destruct (State_Set_not_AddError _ _ _ Hresp).
    + apply (f_equal State) in Hresp. simpl in Hresp. congruence.
Qed.

Lemma update_collection_undecodable c data s elems tr listing err :
  collection_of c data = MapValue elems ->
  client tr (list_request c (ValueString (ID data))) = Responded listing ->
  StatusCode listing = StatusOK ->
  json_Decode (Body listing) = inl err ->
  update_collection c data s tr
  = (tr ++ [{| sent := list_request c (ValueString (ID data));
               got := Responded listing |}],
     inl (listing_decode_error c err)).
Proof.
  intros Hm Hg Hok Hdec. unfold update_collection. rewrite Hm.
  cbn [IsNull IsUnknown negb andb]. cbv zeta. unfold bind at 1. unfold Get, Do.
  cbv zeta. fold (list_request c (ValueString (ID data))). rewrite Hg.
  unfold bind at 1. unfold delete_existing.
  rewrite decide_True by exact Hok. rewrite Hdec. reflexivity.
Qed.

(** X6: a listing that cannot be decoded ends the pass.  When the listing
    of a managed collection is answered with status 200 and a body that
    does not decode, [Update] adds the decode error and returns: the
    listing is its last call, so nothing is deleted and nothing added, and
    no state is set. *)
Theorem Update_listing_undecodable c data state resp tr resp' elems listing err :
  collection_of c data = MapValue elems ->
  Update data state resp = (tr, resp') ->
  let fetch := {| sent := list_request c (ValueString (ID data));
                  got := Responded listing |} in
  In fetch tr ->
  StatusCode listing = StatusOK ->
  json_Decode (Body listing) = inl err ->
  resp' = AddError (listing_decode_error c err) resp /\
  exists before, tr = before ++ [fetch].
Proof.
  intros Hm HU fetch Hin Hok Hdec.
  destruct (collection_step_in_run _ _ _ _ _ _ _ _ Hm HU Hin)
    as (before & s1 & rest & out2 & after & Hg & Hstep & -> & _ & Hout).
  rewrite (update_collection_undecodable c data s1 elems before listing err)
    in Hstep by auto.
  injection Hstep as Hrest <-.
  apply app_inv_head in Hrest. injection Hrest as <-.
  destruct Hout as [-> ->]. split; [reflexivity|].
  exists before. rewrite app_nil_r. reflexivity.
Qed.

(** *** The calls of a pass, by the drift *)

Lemma update_rename_calls data s tr tr' s' :
  update_rename data s tr = (tr', inr s') ->
  exists ext, tr' = tr ++ ext /\
    called_iff (ValueString (Name s) ≠ ValueString (Name data)) (move_request data s) ext.
Proof.
  intros H. unfold update_rename in H. unfold called_iff. case_decide.
  - run_step H. eexists. split; [reflexivity|]. eexists. unfold_names. reflexivity.
  - run_step H. exists []. rewrite app_nil_r. auto.
Qed.

Lemma update_visibility_calls data s tr tr' s' :
  update_visibility data s tr = (tr', inr s') ->
  exists ext, tr' = tr ++ ext /\
    called_iff (Private s ≠ Private data) (settings_request data) ext.
Proof.
  intros H. unfold update_visibility in H. unfold called_iff. case_decide.
  - run_step H. eexists. split; [reflexivity|]. eexists. unfold_names. reflexivity.
  - run_step H. exists []. rewrite app_nil_r. auto.
Qed.

Lemma update_hardware_calls data s tr tr' s' :
  update_hardware data s tr = (tr', inr s') ->
  exists ext, tr' = tr ++ ext /\
    called_iff (ValueString (Hardware s) ≠ ValueString (Hardware data))
      (hardware_request data) ext.
Proof.
  intros H. unfold update_hardware in H. unfold called_iff. case_decide.
  - run_step H. eexists. split; [reflexivity|]. eexists. unfold_names. reflexivity.
  - run_step H. exists []. rewrite app_nil_r. auto.
Qed.

Lemma update_storage_calls data s tr tr' s' :
  update_storage data s tr = (tr', inr s') ->
  exists ext, tr' = tr ++ ext /\
    called_iff (ValueString (Storage s) ≠ ValueString (Storage data))
      (storage_request data) ext.
Proof.
  intros H. unfold update_storage in H. unfold called_iff. case_decide.
  - run_step H. eexists. split; [reflexivity|]. eexists. unfold_names. reflexivity.
  - run_step H. exists []. rewrite app_nil_r. auto.
Qed.

Lemma update_sleeptime_calls data s tr tr' s' :
  update_sleeptime data s tr = (tr', inr s') ->
  exists ext, tr' = tr ++ ext /\
    called_iff (ValueInt64 (SleepTime s) ≠ ValueInt64 (SleepTime data))
      (sleeptime_request data) ext.
Proof.
  intros H. unfold update_sleeptime in H. unfold called_iff. case_decide.
  - run_step H. eexists. split; [reflexivity|]. eexists. unfold_names. reflexivity.
  - run_step H. exists []. rewrite app_nil_r. auto.
Qed.

Lemma update_collection_calls c data s tr tr' s' :
  update_collection c data s tr = (tr', inr s') ->
  exists ext, tr' = tr ++ ext /\ listed_iff c data ext.
Proof.
  intros H. unfold listed_iff. cbv zeta.
  destruct (collection_of c data) as [| |elems] eqn:Hm.
  - rewrite update_collection_unmanaged in H by (left; rewrite Hm; reflexivity).
    unfold ret in H. simplify_eq. exists []. rewrite app_nil_r. auto.
  - rewrite update_collection_unmanaged in H by (right; rewrite Hm; reflexivity).
    unfold ret in H. simplify_eq. exists []. rewrite app_nil_r. auto.
  - destruct (update_collection_ok _ _ _ _ _ _ _ Hm H)
      as (listing & dels & adds & _ & -> & Hdels & Hadds & _).
    eexists. split; [reflexivity|]. cbn [app]. exists (Responded listing), (dels ++ adds).
    split; [reflexivity|]. apply Forall_app. split.
    + destruct (decide (StatusCode listing = StatusOK)); [|subst dels; constructor].
      destruct Hdels as (existing & _ & Hdels).
      apply Forall_forall. intros x Hx%list_elem_of_In%(in_map sent).
      rewrite Hdels in Hx. apply in_map_iff in Hx as (kv & Hkv & _). unfold on_collection. rewrite <- Hkv.
      split; [reflexivity|discriminate].
    + apply Forall_forall. intros x Hx%list_elem_of_In%(in_map sent).
      rewrite Hadds in Hx. apply in_map_iff in Hx as (kv & Hkv & _). unfold on_collection. rewrite <- Hkv.
      split; [reflexivity|discriminate].
Qed.

(** X7: the calls of a pass follow the drift.  A pass that sets the state
    has sent one call for each scalar property whose desired value differs
    from the one given as observed and none for the others; for each map,
    a listing with the calls that follow it when the configuration manages
    the map and nothing when it leaves the map out; all in the order of
    the blocks. *)
Theorem Update_calls_follow_drift data state resp tr st' :
  Update data state resp = (tr, State_Set st' resp) ->
  exists r v s w h g z,
    tr = r ++ v ++ s ++ w ++ h ++ g ++ z /\
    called_iff (ValueString (Name state) ≠ ValueString (Name data))
      (move_request data state) r /\
    called_iff (Private state ≠ Private data) (settings_request data) v /\
    listed_iff SecretsC data s /\
    listed_iff VariablesC data w /\
    called_iff (ValueString (Hardware state) ≠ ValueString (Hardware data))
      (hardware_request data) h /\
    called_iff (ValueString (Storage state) ≠ ValueString (Storage data))
      (storage_request data) g /\
    called_iff (ValueInt64 (SleepTime state) ≠ ValueInt64 (SleepTime data))
      (sleeptime_request data) z.
Proof.
  intros HU. apply Update_sets_state in HU. unfold update_steps in HU.
  apply bind_ok in HU as (tr1 & s1 & H1 & HU).
  apply bind_ok in HU as (tr2 & s2 & H2 & HU).
  apply bind_ok in HU as (tr3 & s3 & H3 & HU).
  apply bind_ok in HU as (tr4 & s4 & H4 & HU).
  apply bind_ok in HU as (tr5 & s5 & H5 & HU).
  apply bind_ok in HU as (tr6 & s6 & H6 & HU).
  apply bind_ok in HU as (tr7 & s7 & H7 & HU).
  unfold ret in HU. injection HU as <- <-.
  rewrite update_secrets_view in H3. rewrite update_variables_view in H4.
  pose proof (update_rename_ok _ _ _ _ _ H1) as (_ & P1 & W1 & G1 & Z1).
  pose proof (update_visibility_ok _ _ _ _ _ H2) as ->.
  pose proof (update_collection_frame _ _ _ _ _ _ H3) as (_ & _ & W3 & G3 & Z3).
  pose proof (update_collection_frame _ _ _ _ _ _ H4) as (_ & _ & W4 & G4 & Z4).
  pose proof (update_hardware_ok _ _ _ _ _ H5) as (_ & _ & _ & G5 & Z5).
  pose proof (update_storage_ok _ _ _ _ _ H6) as (_ & _ & _ & _ & Z6).
  apply update_rename_calls in H1 as (r & -> & Hr).
  apply update_visibility_calls in H2 as (v & -> & Hv).
  apply update_collection_calls in H3 as (s & -> & Hs).
  apply update_collection_calls in H4 as (w & -> & Hw).
  apply update_hardware_calls in H5 as (h & -> & Hh).
  apply update_storage_calls in H6 as (g & -> & Hg).
  apply update_sleeptime_calls in H7 as (z & -> & Hz).
  exists r, v, s, w, h, g, z.
  rewrite P1 in Hv. rewrite W4, W3, W1 in Hh. rewrite G5, G4, G3, G1 in Hg.
  rewrite Z6, Z5, Z4, Z3, Z1 in Hz.
  split; [cbn [app]; rewrite <- ?app_assoc; reflexivity|].
  repeat (split; [assumption|]). assumption.
Qed.

(** X8: either managed map is reconciled by replacing everything.  A
    pass that sets the state has sent, on each managed collection, secrets
    or variables: its listing, once; then the deletions, those of the
    listed keys when the listing was answered with status 200 and none at
    all otherwise; then one addition per desired entry; and nothing else
    on that collection.  The state set holds exactly the desired map. *)
Theorem Update_collection_replace_all c data state resp tr st' elems :
  (forall A (m : gmap string A), range A m ≡ₚ map_to_list m) ->
  collection_of c data = MapValue elems ->
  Update data state resp = (tr, State_Set st' resp) ->
  let id := ValueString (ID data) in
  exists listing before dels adds after,
    tr = before ++ [{| sent := list_request c id; got := Responded listing |}]
           ++ dels ++ adds ++ after /\
    Forall (fun e => ~ on_collection c id e) (before ++ after) /\
    (forall g, In {| sent := list_request c id; got := g |} tr -> g = Responded listing) /\
    (if decide (StatusCode listing = StatusOK) then
       exists existing, json_Decode (Body listing) = inr existing /\
         map sent dels
           ≡ₚ map (fun kv => delete_request c id kv.1) (map_to_list existing)
     else dels = []) /\
    map sent adds
      ≡ₚ map (fun kv => add_request c id kv.1 (ValueString kv.2)) (map_to_list elems) /\
    collection_of c st' = MapValue elems.
Proof.
  intros Hrange Hm HU id. apply Update_sets_state in HU.
  exact (replace_all_in_pass c data state tr st' elems Hrange Hm HU).
Qed.

(** *** Create *)

(** The additions of [Create] to one collection, when they all went
    through: one per entry of the planned map, in the order of [range]. *)
Lemma create_loop_ok c id (kvs : list (string * TfString)) tr tr' u :
  for_range kvs (fun key value _ => add_entry c id key value tt) tt tr = (tr', inr u) ->
  exists ext, tr' = tr ++ ext /\
    map sent ext = map (fun kv => add_request c id kv.1 (ValueString kv.2)) kvs.
Proof.
  revert tr. induction kvs as [|[key value] rest IH]; intros tr H; simpl in H.
  - unfold ret in H. simplify_eq. exists []. rewrite app_nil_r. auto.
  - apply bind_ok in H as (tr1 & [] & H1 & H2).
    apply add_entry_ok in H1 as [_ [g ->]].
    apply IH in H2 as (ext & -> & Hext).
    eexists (_ :: ext). rewrite <- app_assoc. split; [reflexivity|].
    simpl. rewrite Hext. reflexivity.
Qed.

Lemma create_add_all_ok c data tr tr' u :
  create_add_all c data tr = (tr', inr u) ->
  exists ext, tr' = tr ++ ext /\
    map sent ext
    = match collection_of c data with
      | MapValue elems =>
          map (fun kv => add_request c (ValueString (ID data)) kv.1 (ValueString kv.2))
            (range _ elems)
      | _ => []
      end.
Proof.
  intros H. unfold create_add_all in H.
  destruct (collection_of c data) as [| |elems];
    cbn [IsNull IsUnknown negb andb Elements] in H;
    try (unfold ret in H; simplify_eq; exists []; rewrite app_nil_r; auto; fail).
  apply create_loop_ok in H. exact H.
Qed.

Lemma fail_fast_create_add_all c data : fail_fast (create_add_all c data).
Proof.
  unfold create_add_all. destruct (negb _ && negb _); [|apply fail_fast_ret].
  apply fail_fast_for_range. intros. apply fail_fast_add_entry.
Qed.

Lemma triple_create_add_all c data :
  triple (create_add_all c data)
    (fun e => exists c id key value, sent e = add_request c id key value) passed
    (fun _ => True).
Proof.
  unfold create_add_all. destruct (negb _ && negb _); [|apply triple_ret; auto].
  apply triple_for_range. intros key value _.
  eapply triple_weaken; [apply triple_add_entry| |auto|auto].
  intros e He. simpl in He. eauto.
Qed.

(** [Create] after its opening call: it has stopped, or the answer named
    the space and the additions run on the plan with that identifier. *)
Lemma create_steps_run data tr out :
  create_steps data [] = (tr, out) ->
  let e := {| sent := create_request data; got := client [] (create_request data) |} in
  (tr = [e] /\ exists d, out = inl d) \/
  (exists created responseData name,
     client [] (create_request data) = Responded created /\
     StatusCode created = StatusOK /\
     json_Decode (Body created) = inr responseData /\
     responseData !! "name" = Some (JString name) /\
     (let* _ := create_add_all SecretsC (set_ID (StringValue name) data) in
      let* _ := create_add_all VariablesC (set_ID (StringValue name) data) in
      ret (set_ID (StringValue name) data)) [e] = (tr, out)).
Proof.
  intros Hrun. cbv zeta.
  unfold create_steps in Hrun. cbv zeta in Hrun. unfold bind at 1 in Hrun.
  unfold Post, Do in Hrun. cbv zeta in Hrun.
  unfold create_request, create_url, create_body, json.
  destruct (client [] _) as [err|created].
  - unfold fail in Hrun. simplify_eq. left. eauto.
  - destruct (decide (StatusCode created = StatusOK)) as [Hok|Hne].
    + rewrite decide_False in Hrun by auto.
      destruct (json_Decode (Body created)) as [err|responseData] eqn:Hdec.
      * unfold fail in Hrun. simplify_eq. left. eauto.
      * unfold assert_string in Hrun.
        destruct (responseData !! "name") as [[| | |spaceName| |]|] eqn:Hname;
          cbn [negb] in Hrun;
          try (unfold fail in Hrun; simplify_eq; left; eauto; fail).
        rewrite create_add_secrets_view, create_add_variables_view in Hrun.
        right. exists created, responseData, spaceName.
        repeat (split; [first [assumption|reflexivity]|]). exact Hrun.
    + rewrite decide_True in Hrun by auto. unfold fail in Hrun. simplify_eq.
      left. eauto.
Qed.

Lemma fail_fast_create_tail data' :
  fail_fast (let* _ := create_add_all SecretsC data' in
             let* _ := create_add_all VariablesC data' in
             ret data').
Proof.
  apply fail_fast_bind; [apply fail_fast_create_add_all|]. intros _.
  apply fail_fast_bind; [apply fail_fast_create_add_all|]. intros _.
  apply fail_fast_ret.
Qed.

(** X9: [Create] files the secrets and variables under the name the
    server returned.  When [Create] sets the state, its opening call was
    answered with status 200 and a document holding a string under "name";
    the state is the plan with that string as identifier; and the calls
    that follow are one addition per planned secret, then one per planned
    variable, each addressed to the space of that name, every one of them
    answered with status 200. *)
Theorem Create_adds_under_returned_name data resp tr st :
  Create data resp = (tr, State_Set st resp) ->
  exists created responseData name adds_s adds_v,
    client [] (create_request data) = Responded created /\
    StatusCode created = StatusOK /\
    json_Decode (Body created) = inr responseData /\
    responseData !! "name" = Some (JString name) /\
    st = set_ID (StringValue name) data /\
    tr = {| sent := create_request data; got := Responded created |}
           :: adds_s ++ adds_v /\
    map sent adds_s
    = match Secrets data with
      | MapValue elems =>
          map (fun kv => add_request SecretsC name kv.1 (ValueString kv.2)) (range _ elems)
      | _ => []
      end /\
    map sent adds_v
    = match Variables data with
      | MapValue elems =>
          map (fun kv => add_request VariablesC name kv.1 (ValueString kv.2))
            (range _ elems)
      | _ => []
      end /\
    Forall passed tr.
Proof.
  intros HC. unfold Create, finish in HC.
  destruct (create_steps data []) as [tr0 [d|st0]] eqn:Hrun.
  { apply (f_equal snd) in HC. simpl in HC. symmetry in HC.
    destruct (State_Set_not_AddError _ _ _ HC). }
  pose proof (f_equal fst HC) as Htr. simpl in Htr. subst tr0.
  apply (f_equal (fun r => State r.2)) in HC. simpl in HC. injection HC as ->.
  destruct (create_steps_run _ _ _ Hrun)
    as [(_ & d & [=])|(created & responseData & name & Hc & Hok & Hdec & Hname & Htail)].
  exists created, responseData, name.
  pose proof (fail_fast_create_tail (set_ID (StringValue name) data) _ _ _ Htail)
    as (ext & Hext & _ & Hpassed).
  specialize (Hpassed _ eq_refl).
  apply bind_ok in Htail as (tr1 & [] & H1 & Htail).
  apply bind_ok in Htail as (tr2 & [] & H2 & Htail).
  unfold ret in Htail. injection Htail as -> ->.
  apply create_add_all_ok in H1 as (adds_s & -> & Hs).
  apply create_add_all_ok in H2 as (adds_v & -> & Hv).
  exists adds_s, adds_v. rewrite Hc in *.
  do 5 (split; [first [assumption|reflexivity]|]).
  split; [cbn [app]; reflexivity|].
  split; [exact Hs|]. split; [exact Hv|].
  rewrite Hext. apply Forall_app. split; [|exact Hpassed].
  constructor; [|constructor]. unfold passed. simpl. auto.
Qed.

(** X10: [Create] is fail-fast and never rolls back.  Every call after
    the opening one is the addition of a secret or a variable, so a space
    that was created is not deleted again when an addition fails; each
    call but the last was answered with status 200; and the method ends
    either on an error, setting no state, or on a state with every call
    answered with status 200. *)
Theorem Create_never_rolls_back data resp :
  let run := Create data resp in
  (exists a rest,
     run.1 = {| sent := create_request data; got := a |} :: rest /\
     Forall (fun e => exists c id key value, sent e = add_request c id key value) rest) /\
  Forall passed (removelast run.1) /\
  ((exists d, run.2 = AddError d resp /\ State run.2 = State resp) \/
   (exists st, run.2 = State_Set st resp /\ Forall passed run.1)).
Proof.
  intros run. subst run. unfold Create, finish.
  destruct (create_steps data []) as [tr out] eqn:Hrun.
  destruct (create_steps_run _ _ _ Hrun)
    as [(-> & d & ->)|(created & responseData & name & Hc & Hok & Hdec & Hname & Htail)].
  - cbn [fst snd]. split; [|split].
    + eexists _, []. split; [reflexivity|constructor].
    + constructor.
    + left. exists d. split; reflexivity.
  - set (data' := set_ID (StringValue name) data) in *.
    set (e := {| sent := create_request data; got := _ |}) in *.
    assert (He : passed e).
    { unfold passed, e. simpl. rewrite Hc. auto. }
    pose proof (fail_fast_create_tail data' _ _ _ Htail) as (ext & -> & Hinit & Hall).
    assert (Hshape : Forall
              (fun e => exists c id key value, sent e = add_request c id key value) ext).
    { assert (Ht : triple (let* _ := create_add_all SecretsC data' in
                           let* _ := create_add_all VariablesC data' in ret data')
                     (fun e => exists c id key value, sent e = add_request c id key value)
                     passed (fun _ => True)).
      { eapply triple_bind; [apply triple_create_add_all|]. intros _ _.
        eapply triple_bind; [apply triple_create_add_all|]. intros _ _.
        apply triple_ret. exact I. }
      destruct (Ht _ _ _ Htail) as (ext' & Hext' & Hcalls & _).
      apply app_inv_head in Hext'. subst ext'. exact Hcalls. }
    split; [|split].
    + destruct out; cbn [fst]; exists (client [] (create_request data)), ext;
        (split; [reflexivity|exact Hshape]).
    + assert (Forall passed (removelast ([e] ++ ext))) as Hrem.
      { destruct ext as [|x ext]; [constructor|].
        cbn [app]. change (Forall passed (e :: removelast (x :: ext))).
        constructor; assumption. }
      destruct out; exact Hrem.
    + destruct out as [d|st]; cbn [fst snd].
      * left. exists d. split; reflexivity.
      * right. exists st. split; [reflexivity|].
        apply Forall_app. split; [constructor; [exact He|constructor]|].
        apply (Hall _ eq_refl).
Qed.

(** *** Read and Delete *)

Local Abbreviation read_steps := (read_steps client).
Local Abbreviation Read := (Read client).
Local Abbreviation delete_steps := (delete_steps client).
Local Abbreviation Delete := (Delete client).

(** X11: [Read] never refreshes.  It sends one GET for the space of the
    identifier in the state; on a failed call it adds an error and sets no
    state; on any answer with status 200, whatever its body, it sets the
    very state it was given. *)
Theorem Read_never_refreshes data resp :
  let run := Read data resp in
  let g := client [] (read_request data) in
  run.1 = [{| sent := read_request data; got := g |}] /\
  (failed g -> exists d, run.2 = AddError d resp /\ State run.2 = State resp) /\
  (~ failed g -> run.2 = State_Set data resp).
Proof.
  intros run g. subst run g. unfold Read, finish, read_steps. cbv zeta.
  unfold bind, Get, Do. cbv zeta. unfold read_request.
  destruct (client [] _) as [err|httpResp]; simpl.
  - split; [reflexivity|]. split; [eauto|]. intros Hn. destruct Hn. exact I.
  - case_decide; simpl.
    + split; [reflexivity|]. split; [eauto|]. intros Hn. contradiction.
    + split; [reflexivity|]. split; [intros Hf; contradiction|reflexivity].
Qed.

Lemma Delete_run data resp2 :
  let g := client [] (space_delete_request data) in
  (Delete data resp2).1 = [{| sent := space_delete_request data; got := g |}] /\
  (failed g -> exists d, (Delete data resp2).2 = AddError d resp2) /\
  (~ failed g -> (Delete data resp2).2 = resp2).
Proof.
  intros g. subst g. unfold Delete, delete_steps. cbv zeta.
  unfold bind, NewRequest_Do, Do. cbv zeta.
  unfold space_delete_request, delete_url, delete_body, json.
  destruct (client [] _) as [err|httpResp]; simpl.
  - split; [reflexivity|]. split; [eauto|]. intros Hn. destruct Hn. exact I.
  - case_decide; simpl.
    + split; [reflexivity|]. split; [eauto|]. intros Hn. contradiction.
    + split; [reflexivity|]. split; [intros Hf; contradiction|reflexivity].
Qed.

(** X12: [Delete] names the space by the planned name.  Whether [Create]
    or [Update] set the state, [Delete] on that state sends one DELETE
    whose body carries the name of the plan, not the identifier of the
    space; it adds an error exactly when that call failed and leaves the
    response as it is otherwise. *)
Theorem Delete_names_planned_space data state resp tr st resp2 :
  Create data resp = (tr, State_Set st resp) \/
  Update data state resp = (tr, State_Set st resp) ->
  let run := Delete st resp2 in
  let g := client [] (space_delete_request data) in
  run.1 = [{| sent := space_delete_request data; got := g |}] /\
  (failed g -> exists d, run.2 = AddError d resp2) /\
  (~ failed g -> run.2 = resp2).
Proof.
  intros Hset run g. subst run g.
  assert (Hname : ValueString (Name st) = ValueString (Name data)).
  { destruct Hset as [HC|HU].
    - unfold Create, finish in HC.
      destruct (create_steps data []) as [tr0 [d|st0]] eqn:Hrun.
      { apply (f_equal snd) in HC. simpl in HC. symmetry in HC.
        destruct (State_Set_not_AddError _ _ _ HC). }
      apply (f_equal (fun r => State r.2)) in HC. simpl in HC. injection HC as ->.
      destruct (create_steps_run _ _ _ Hrun)
        as [(_ & d & [=])|(created & responseData & name & _ & _ & _ & _ & Htail)].
      apply bind_ok in Htail as (tr1 & [] & _ & Htail).
      apply bind_ok in Htail as (tr2 & [] & _ & Htail).
      unfold ret in Htail. injection Htail as _ <-. reflexivity.
    - destruct (steps_written _ _ _ _ (Update_sets_state _ _ _ _ _ HU))
        as [_ (Hn & _)]. exact Hn. }
  assert (Hreq : space_delete_request st = space_delete_request data).
  { unfold space_delete_request, delete_body. rewrite Hname. reflexivity. }
  rewrite <- Hreq. apply Delete_run.
Qed.

End Steps.

(** ** Runs on concrete spaces *)

(** C1: with the name and the hardware tier both drifting, the rename is
    sent first and the state gets the new identifier alice/new, but the
    hardware call is built from the identifier of the plan and still goes
    to the endpoint of alice/old. *)
Theorem C1_hardware_call_keeps_old_identifier :
  let observed := space "alice/old" "old" false "cpu-basic" MapNull in
  let plan := space "alice/old" "new" false "t4-small" MapNull in
  exists st',
    Update decode_examples map_order (scripted []) plan observed (response_for observed)
    = ([ {| sent := move_request plan observed; got := answer 200 "{}" |};
         {| sent := hardware_request plan; got := answer 200 "{}" |} ],
       State_Set st' (response_for observed)) /\
    body (move_request plan observed) = move_body "alice/old" "alice/new" /\
    ID st' = StringValue "alice/new" /\
    url (hardware_request plan) = "https://huggingface.co/api/spaces/alice/old/hardware".
Proof.
  eexists. split; [vm_compute; reflexivity|]. repeat split.
Qed.

(** C3 on a concrete space: the plan makes the space private, the settings
    call is answered with 200, and the state [Update] sets is still
    public. *)
Lemma C3_visibility_stays_public :
  let observed := space "alice/demo" "demo" false "cpu-basic" MapNull in
  let plan := space "alice/demo" "demo" true "cpu-basic" MapNull in
  Update decode_examples map_order (scripted []) plan observed (response_for observed)
  = ([ {| sent := settings_request plan; got := answer 200 "{}" |} ],
     State_Set observed (response_for observed)) /\
  Private observed = BoolValue false /\ Private plan = BoolValue true.
Proof.
  split; [vm_compute; reflexivity|].
  exact (let observed := space "alice/demo" "demo" false "cpu-basic" MapNull in
         let plan := space "alice/demo" "demo" true "cpu-basic" MapNull in
         match C3_visibility_is_not_overwritten decode_examples map_order (scripted [])
                 plan observed (response_for observed)
                 [ {| sent := settings_request plan; got := answer 200 "{}" |} ]
                 observed eq_refl
         with conj H _ => conj H eq_refl end).
Defined.

(** C8: the bodies are formatted text, and a value that holds a double
    quote runs into the text around it.  Two different secrets get the
    same "add" body, so no decoder gives back the key and value of every
    body; the same happens between the name and the SDK of a creation
    body; and a name can put a second "type" field in a deletion body. *)
Theorem C8_bodies_are_interpolated :
  let key1 := "k" in
  let value1 := raw "1', 'value': '2" in
  let key2 := raw "k', 'value': '1" in
  let value2 := "2" in
  (key1, value1) <> (key2, value2) /\
  entry_body key1 value1 = raw "{'key': 'k', 'value': '1', 'value': '2'}" /\
  entry_body key2 value2 = raw "{'key': 'k', 'value': '1', 'value': '2'}" /\
  body (add_request SecretsC "alice/demo" key1 value1)
    = body (add_request SecretsC "alice/demo" key2 value2) /\
  ~ (exists decode : string -> option (string * string),
       forall key value, decode (entry_body key value) = Some (key, value)) /\
  (let plan := space "" "demo" false "cpu-basic" MapNull in
   create_body (set_Name (StringValue (raw "demo', 'private': true, 'sdk': 'docker")) plan)
   = raw "{'type': 'space', 'name': 'demo', 'private': true, 'sdk': 'docker', 'private': false, 'sdk': 'gradio', 'template': '', 'hardware': 'cpu-basic', 'storage': 'small', 'sleepTime': 3600}" /\
   delete_body (set_Name (StringValue (raw "demo', 'type': 'model")) plan)
   = raw "{'type': 'space', 'name': 'demo', 'type': 'model'}").
Proof.
  intros key1 value1 key2 value2.
  assert (Hsame : entry_body key1 value1 = entry_body key2 value2) by reflexivity.
  split; [discriminate|]. split; [reflexivity|]. split; [reflexivity|].
  split; [reflexivity|]. split; [|split; reflexivity].
  intros [decode Hdecode].
  pose proof (Hdecode key1 value1) as H1. pose proof (Hdecode key2 value2) as H2.
  rewrite Hsame in H1. rewrite H1 in H2. discriminate.
Qed.

(** ** The theorems at concrete inputs *)

(** C2 at an input: plan and state are the same space, with the secrets
    a and b.  The pass lists the secrets, deletes both and adds both
    again, and sets the state it was given. *)
Lemma C2_equal_spaces_with_secrets :
  let observed := space "alice/demo" "demo" false "cpu-basic" secrets_ab in
  let resp := response_for observed in
  let client := scripted [answer 200 (raw "{'a': '1', 'b': '2'}")] in
  let tr :=
    [ {| sent := list_request SecretsC "alice/demo";
         got := answer 200 (raw "{'a': '1', 'b': '2'}") |};
      {| sent := delete_request SecretsC "alice/demo" "a"; got := answer 200 "{}" |};
      {| sent := delete_request SecretsC "alice/demo" "b"; got := answer 200 "{}" |};
      {| sent := add_request SecretsC "alice/demo" "a" "1"; got := answer 200 "{}" |};
      {| sent := add_request SecretsC "alice/demo" "b" "2"; got := answer 200 "{}" |} ] in
  observed = observed /\
  Update decode_examples map_order client observed observed resp
  = (tr, State_Set observed resp) /\
  (unset (Secrets observed) -> unset (Variables observed) ->
   Update decode_examples map_order client observed observed resp
   = ([], State_Set observed resp)) /\
  forall tr' resp',
    Update decode_examples map_order client observed observed resp = (tr', resp') ->
    Forall (fun e => exists c, ~ unset (collection_of c observed) /\
                       on_collection c "alice/demo" e) tr' /\
    (forall c, ~ unset (collection_of c observed) ->
       c = SecretsC \/ unset (Secrets observed) ->
       exists a rest, tr' = {| sent := list_request c "alice/demo"; got := a |} :: rest) /\
    (forall st', resp' = State_Set st' resp ->
       (forall A (m : gmap string A), map_order A m ≡ₚ map_to_list m) -> st' = observed).
Proof.
  intros observed resp client tr.
  assert (H1 : observed = observed) by reflexivity.
  split; [exact H1|]. split; [vm_compute; reflexivity|].
  exact (C2_update_on_equal_spaces decode_examples map_order client
           observed observed resp H1).
Defined.

(** C2 as stated fails: with equal plan and state whose secrets map is
    managed, [Update] lists, deletes and adds again. *)
Lemma C2_equal_managed_spaces_are_reconciled :
  ~ (forall json_Decode range client data state resp,
       data = state ->
       Update json_Decode range client data state resp = ([], State_Set state resp)).
Proof.
  intros H.
  specialize (H decode_examples map_order
                (scripted [answer 200 (raw "{'a': '1', 'b': '2'}")])
                (space "alice/demo" "demo" false "cpu-basic" secrets_ab)
                (space "alice/demo" "demo" false "cpu-basic" secrets_ab)
                (response_for (space "alice/demo" "demo" false "cpu-basic" secrets_ab))
                eq_refl).
  vm_compute in H. discriminate H.
Qed.

(** C4 at the input of the specification: the remote secrets are a and b,
    the desired ones b and c. *)
Lemma C4_replaces_ab_by_bc :
  let observed := space "alice/demo" "demo" false "cpu-basic" secrets_ab in
  let plan := space "alice/demo" "demo" false "cpu-basic" secrets_bc in
  let resp := response_for observed in
  let client := scripted [answer 200 (raw "{'a': '1', 'b': '2'}")] in
  let tr :=
    [ {| sent := list_request SecretsC "alice/demo";
         got := answer 200 (raw "{'a': '1', 'b': '2'}") |};
      {| sent := delete_request SecretsC "alice/demo" "a"; got := answer 200 "{}" |};
      {| sent := delete_request SecretsC "alice/demo" "b"; got := answer 200 "{}" |};
      {| sent := add_request SecretsC "alice/demo" "c" "3"; got := answer 200 "{}" |};
      {| sent := add_request SecretsC "alice/demo" "b" "2"; got := answer 200 "{}" |} ] in
  (forall A (m : gmap string A), map_order A m ≡ₚ map_to_list m) /\
  Secrets plan = secrets_bc /\
  Update decode_examples map_order client plan observed resp
  = (tr, State_Set plan resp) /\
  exists listing before dels adds after,
    tr = before ++ [{| sent := list_request SecretsC "alice/demo";
                       got := Responded listing |}] ++ dels ++ adds ++ after /\
    Forall (fun e => ~ on_collection SecretsC "alice/demo" e) (before ++ after) /\
    (forall g, In {| sent := list_request SecretsC "alice/demo"; got := g |} tr ->
       g = Responded listing) /\
    (if decide (StatusCode listing = StatusOK) then
       exists existing, decode_examples (Body listing) = inr existing /\
         map sent dels
           ≡ₚ map (fun kv => delete_request SecretsC "alice/demo" kv.1)
                (map_to_list existing)
     else dels = []) /\
    map sent adds
      ≡ₚ map (fun kv => add_request SecretsC "alice/demo" kv.1 (ValueString kv.2))
           (map_to_list (Elements secrets_bc)) /\
    Secrets plan = MapValue (Elements secrets_bc).
Proof.
  intros observed plan resp client tr.
  assert (H1 : forall A (m : gmap string A), map_order A m ≡ₚ map_to_list m)
    by (intros A m; reflexivity).
  assert (H2 : Secrets plan = secrets_bc) by reflexivity.
  assert (H3 : Update decode_examples map_order client plan observed resp
               = (tr, State_Set plan resp)) by (vm_compute; reflexivity).
  split; [exact H1|]. split; [exact H2|]. split; [exact H3|].
  exact (C4_secrets_replace_all decode_examples map_order client
           plan observed resp tr plan (Elements secrets_bc) H1 H2 H3).
Defined.

(** C5 at an input: the plan renames the space and leaves its secrets
    unset; the state keeps the secrets it had. *)
Lemma C5_unset_secrets_kept :
  let observed := space "alice/old" "old" false "cpu-basic" secrets_ab in
  let plan := space "alice/old" "new" false "cpu-basic" MapNull in
  let run := Update decode_examples map_order (scripted []) plan observed
               (response_for observed) in
  unset (collection_of SecretsC plan) /\
  Forall (fun e => ~ on_collection SecretsC "alice/old" e) run.1 /\
  ((exists d, run.2 = AddError d (response_for observed)) \/
   (exists st', run.2 = State_Set st' (response_for observed) /\
                collection_of SecretsC st' = secrets_ab)).
Proof.
  intros observed plan run.
  assert (H1 : unset (collection_of SecretsC plan)) by (left; reflexivity).
  assert (H2 : Update decode_examples map_order (scripted []) plan observed
                 (response_for observed) = (run.1, run.2)) by (vm_compute; reflexivity).
  split; [exact H1|].
  exact (C5_unset_collection_untouched decode_examples map_order (scripted [])
           SecretsC plan observed (response_for observed) run.1 run.2 H1 H2).
Defined.

(** C6 at an input: the rename is answered with 200, the hardware call
    with 500. *)
Lemma C6_rename_then_hardware_500 :
  let observed := space "alice/old" "old" false "cpu-basic" MapNull in
  let plan := space "alice/old" "new" false "t4-small" MapNull in
  let client := scripted [answer 200 "{}"; answer 500 "boom"] in
  let run := Update decode_examples map_order client plan observed
               (response_for observed) in
  run.1 = [ {| sent := move_request plan observed; got := answer 200 "{}" |};
            {| sent := hardware_request plan; got := answer 500 "boom" |} ] /\
  run.2 = AddError (hardware_error (answer 500 "boom")) (response_for observed) /\
  Forall (fun e => ~ after_hardware plan (sent e)) run.1 /\
  State run.2 = Some observed.
Proof.
  intros observed plan client run.
  split; [vm_compute; reflexivity|].
  refine (C6_hardware_failure_aborts decode_examples map_order client
            plan observed (response_for observed) run.1 run.2
            {| StatusCode := 200; Body := {| content := "{}"; read_err := None |} |}
            (answer 500 "boom") _ _ _ _ _ _).
  - vm_compute. reflexivity.
  - vm_compute. left. reflexivity.
  - reflexivity.
  - reflexivity.
  - vm_compute. right. left. reflexivity.
  - vm_compute. discriminate.
Defined.

(** C6 as stated fails: after the rename has succeeded and the hardware
    call has failed, the state in the response is the one it came with;
    it holds neither the new identifier nor the new name. *)
Lemma C6_partial_state_is_not_returned :
  ~ (forall json_Decode range client data state resp tr resp' renamed g,
       Update json_Decode range client data state resp = (tr, resp') ->
       In {| sent := move_request data state; got := Responded renamed |} tr ->
       StatusCode renamed = StatusOK -> read_err (Body renamed) = None ->
       In {| sent := hardware_request data; got := g |} tr ->
       failed g ->
       exists st', State resp' = Some st' /\
                   ID st' = StringValue (toRepo data state) /\ Name st' = Name data).
Proof.
  intros H.
  pose (observed := space "alice/old" "old" false "cpu-basic" MapNull).
  pose (plan := space "alice/old" "new" false "t4-small" MapNull).
  pose (client := scripted [answer 200 "{}"; answer 500 "boom"]).
  pose (run := Update decode_examples map_order client plan observed
                 (response_for observed)).
  destruct (H decode_examples map_order client plan observed (response_for observed)
              run.1 run.2
              {| StatusCode := 200; Body := {| content := "{}"; read_err := None |} |}
              (answer 500 "boom")) as (st' & Hst & Hid & _).
  - vm_compute. reflexivity.
  - vm_compute. left. reflexivity.
  - reflexivity.
  - reflexivity.
  - vm_compute. right. left. reflexivity.
  - vm_compute. discriminate.
  - vm_compute in Hst. injection Hst as <-. vm_compute in Hid. discriminate Hid.
Qed.

(** C7 at an input: the listing of the secrets is answered with 404, and
    the two desired secrets are added right after it. *)
Lemma C7_listing_404_skips_deletion :
  let observed := space "alice/demo" "demo" false "cpu-basic" secrets_ab in
  let plan := space "alice/demo" "demo" false "cpu-basic" secrets_bc in
  let client := scripted [answer 404 "Not Found"] in
  let run := Update decode_examples map_order client plan observed
               (response_for observed) in
  let fetch := {| sent := list_request SecretsC "alice/demo";
                  got := answer 404 "Not Found" |} in
  run.1 = [ fetch;
            {| sent := add_request SecretsC "alice/demo" "c" "3"; got := answer 200 "{}" |};
            {| sent := add_request SecretsC "alice/demo" "b" "2"; got := answer 200 "{}" |} ] /\
  (Exists (deletes_on SecretsC "alice/demo") run.1 -> False) /\
  exists before adds after added,
    run.1 = before ++ fetch :: adds ++ after /\
    add_new map_order client SecretsC "alice/demo" (Elements secrets_bc) (before ++ [fetch])
      = (before ++ fetch :: adds, added) /\
    forall d, added = inl d ->
      after = [] /\ run.2 = AddError d (response_for observed).
Proof.
  intros observed plan client run fetch.
  split; [vm_compute; reflexivity|].
  destruct (C7_listing_decides_deletion decode_examples map_order client
              SecretsC plan observed (response_for observed) run.1 run.2
              (Elements secrets_bc) (answer 404 "Not Found"))
    as [Hdel Hadd].
  - reflexivity.
  - vm_compute. reflexivity.
  - vm_compute. left. reflexivity.
  - split.
    + intros Hex. destruct (Hdel Hex) as (listing & [= <-] & Hok). discriminate Hok.
    + apply Hadd. discriminate.
Defined.

(** ** The further properties at concrete inputs *)

(** X3 at an input: the plan makes a public space private.  The first pass
    sends the settings call and sets a state that is still public; the
    second pass opens with the same call. *)
Lemma Update_second_pass_repeats_visibility :
  let observed := space "alice/demo" "demo" false "cpu-basic" MapNull in
  let plan := space "alice/demo" "demo" true "cpu-basic" MapNull in
  let resp := response_for observed in
  Update decode_examples map_order (scripted []) plan observed resp
  = ([ {| sent := settings_request plan; got := answer 200 "{}" |} ],
     State_Set observed resp) /\
  let tr2 := (Update decode_examples map_order (scripted []) plan observed resp).1 in
  Forall (fun e => sent e = settings_request plan \/
                   on_collection SecretsC "alice/demo" e \/
                   on_collection VariablesC "alice/demo" e) tr2 /\
  (Private observed <> Private plan ->
   exists a rest, tr2 = {| sent := settings_request plan; got := a |} :: rest).
Proof.
  intros observed plan resp.
  assert (H : Update decode_examples map_order (scripted []) plan observed resp
              = ([ {| sent := settings_request plan; got := answer 200 "{}" |} ],
                 State_Set observed resp)) by (vm_compute; reflexivity).
  split; [exact H|].
  exact (Update_second_pass decode_examples map_order (scripted [])
           plan observed resp _ observed resp H).
Defined.

(** X4 at an input: renaming alice/old to new gives alice/new. *)
Lemma toRepo_alice_new :
  let observed := space "alice/old" "old" false "cpu-basic" MapNull in
  let plan := space "alice/old" "new" false "cpu-basic" MapNull in
  no_slash "alice" = true /\
  (ValueString (ID observed) = "alice" \/
   exists rest, ValueString (ID observed) = "alice" +:+ "/" +:+ rest) /\
  toRepo plan observed = "alice" +:+ "/" +:+ ValueString (Name plan).
Proof.
  intros observed plan.
  assert (H1 : no_slash "alice" = true) by reflexivity.
  assert (H2 : ValueString (ID observed) = "alice" \/
               exists rest, ValueString (ID observed) = "alice" +:+ "/" +:+ rest)
    by (right; exists "old"; reflexivity).
  split; [exact H1|]. split; [exact H2|].
  exact (toRepo_keeps_namespace plan observed "alice" H1 H2).
Defined.

(** X5 at an input: a rename answered with 200. *)
Lemma Update_rename_sets_identifier :
  let observed := space "alice/old" "old" false "cpu-basic" MapNull in
  let plan := space "alice/old" "new" false "cpu-basic" MapNull in
  let resp := response_for observed in
  let st' := set_Name (StringValue "new") (set_ID (StringValue "alice/new") observed) in
  Update decode_examples map_order (scripted []) plan observed resp
  = ([ {| sent := move_request plan observed; got := answer 200 "{}" |} ],
     State_Set st' resp) /\
  (if decide (ValueString (Name observed) ≠ ValueString (Name plan))
   then ID st' = StringValue (toRepo plan observed) /\ Name st' = Name plan
   else ID st' = ID observed /\ Name st' = Name observed) /\
  Host st' = Host observed /\ Author st' = Author observed /\
  LastModified st' = LastModified observed /\ Likes st' = Likes observed /\
  Tags st' = Tags observed.
Proof.
  intros observed plan resp st'.
  assert (H : Update decode_examples map_order (scripted []) plan observed resp
              = ([ {| sent := move_request plan observed; got := answer 200 "{}" |} ],
                 State_Set st' resp)) by (vm_compute; reflexivity).
  split; [exact H|].
  exact (Update_identifier_and_frame decode_examples map_order (scripted [])
           plan observed resp _ st' H).
Defined.

(** X6 at an input: the listing of the secrets is answered with status 200
    and a body that is no JSON document. *)
Lemma Update_listing_not_json :
  let observed := space "alice/demo" "demo" false "cpu-basic" secrets_ab in
  let plan := space "alice/demo" "demo" false "cpu-basic" secrets_bc in
  let resp := response_for observed in
  let client := scripted [answer 200 "<html>"] in
  let run := Update decode_examples map_order client plan observed resp in
  let fetch := {| sent := list_request SecretsC "alice/demo";
                  got := answer 200 "<html>" |} in
  run.1 = [fetch] /\
  run.2 = AddError (listing_decode_error SecretsC "invalid character") resp /\
  exists before, run.1 = before ++ [fetch].
Proof.
  intros observed plan resp client run fetch.
  split; [vm_compute; reflexivity|].
  refine (Update_listing_undecodable decode_examples map_order client SecretsC
            plan observed resp run.1 run.2 (Elements secrets_bc)
            {| StatusCode := 200; Body := {| content := "<html>"; read_err := None |} |}
            "invalid character" _ _ _ _ _).
  - reflexivity.
  - vm_compute. reflexivity.
  - vm_compute. left. reflexivity.
  - reflexivity.
  - vm_compute. reflexivity.
Defined.

(** X7 at an input: the name and the hardware tier have drifted, and
    nothing else; the pass is the rename and the hardware call. *)
Lemma Update_two_drifts_two_calls :
  let observed := space "alice/old" "old" false "cpu-basic" MapNull in
  let plan := space "alice/old" "new" false "t4-small" MapNull in
  let resp := response_for observed in
  let st' := set_Hardware (StringValue "t4-small")
               (set_Name (StringValue "new")
                  (set_ID (StringValue "alice/new") observed)) in
  let tr := [ {| sent := move_request plan observed; got := answer 200 "{}" |};
              {| sent := hardware_request plan; got := answer 200 "{}" |} ] in
  Update decode_examples map_order (scripted []) plan observed resp
  = (tr, State_Set st' resp) /\
  exists r v s w h g z,
    tr = r ++ v ++ s ++ w ++ h ++ g ++ z /\
    called_iff (ValueString (Name observed) ≠ ValueString (Name plan))
      (move_request plan observed) r /\
    called_iff (Private observed ≠ Private plan) (settings_request plan) v /\
    listed_iff SecretsC plan s /\
    listed_iff VariablesC plan w /\
    called_iff (ValueString (Hardware observed) ≠ ValueString (Hardware plan))
      (hardware_request plan) h /\
    called_iff (ValueString (Storage observed) ≠ ValueString (Storage plan))
      (storage_request plan) g /\
    called_iff (ValueInt64 (SleepTime observed) ≠ ValueInt64 (SleepTime plan))
      (sleeptime_request plan) z.
Proof.
  intros observed plan resp st' tr.
  assert (H : Update decode_examples map_order (scripted []) plan observed resp
              = (tr, State_Set st' resp)) by (vm_compute; reflexivity).
  split; [exact H|].
  exact (Update_calls_follow_drift decode_examples map_order (scripted [])
           plan observed resp tr st' H).
Defined.

(** X8 at an input: the remote variables are a and b, the desired ones b
    and c. *)
Lemma Update_variables_ab_to_bc :
  let observed := set_Variables secrets_ab
                    (space "alice/demo" "demo" false "cpu-basic" MapNull) in
  let plan := set_Variables secrets_bc
                (space "alice/demo" "demo" false "cpu-basic" MapNull) in
  let resp := response_for observed in
  let client := scripted [answer 200 (raw "{'a': '1', 'b': '2'}")] in
  let tr :=
    [ {| sent := list_request VariablesC "alice/demo";
         got := answer 200 (raw "{'a': '1', 'b': '2'}") |};
      {| sent := delete_request VariablesC "alice/demo" "a"; got := answer 200 "{}" |};
      {| sent := delete_request VariablesC "alice/demo" "b"; got := answer 200 "{}" |};
      {| sent := add_request VariablesC "alice/demo" "c" "3"; got := answer 200 "{}" |};
      {| sent := add_request VariablesC "alice/demo" "b" "2"; got := answer 200 "{}" |} ] in
  (forall A (m : gmap string A), map_order A m ≡ₚ map_to_list m) /\
  collection_of VariablesC plan = secrets_bc /\
  Update decode_examples map_order client plan observed resp
  = (tr, State_Set plan resp) /\
  exists listing before dels adds after,
    tr = before ++ [{| sent := list_request VariablesC "alice/demo";
                       got := Responded listing |}] ++ dels ++ adds ++ after /\
    Forall (fun e => ~ on_collection VariablesC "alice/demo" e) (before ++ after) /\
    (forall g, In {| sent := list_request VariablesC "alice/demo"; got := g |} tr ->
       g = Responded listing) /\
    (if decide (StatusCode listing = StatusOK) then
       exists existing, decode_examples (Body listing) = inr existing /\
         map sent dels
           ≡ₚ map (fun kv => delete_request VariablesC "alice/demo" kv.1)
                (map_to_list existing)
     else dels = []) /\
    map sent adds
      ≡ₚ map (fun kv => add_request VariablesC "alice/demo" kv.1 (ValueString kv.2))
           (map_to_list (Elements secrets_bc)) /\
    collection_of VariablesC plan = MapValue (Elements secrets_bc).
Proof.
  intros observed plan resp client tr.
  assert (H1 : forall A (m : gmap string A), map_order A m ≡ₚ map_to_list m)
    by (intros A m; reflexivity).
  assert (H2 : collection_of VariablesC plan = secrets_bc) by reflexivity.
  assert (H3 : Update decode_examples map_order client plan observed resp
               = (tr, State_Set plan resp)) by (vm_compute; reflexivity).
  split; [exact H1|]. split; [exact H2|]. split; [exact H3|].
  exact (Update_collection_replace_all decode_examples map_order client VariablesC
           plan observed resp tr plan (Elements secrets_bc) H1 H2 H3).
Defined.

(** X9 at an input: the server names the new space alice/demo, and the
    two planned secrets are added to the space of that name. *)
Lemma Create_adds_to_alice_demo :
  let plan := space "" "demo" false "cpu-basic" secrets_ab in
  let resp := {| State := None; Diagnostics := [] |} in
  let client := scripted [answer 200 (raw "{'name': 'alice/demo'}")] in
  let tr :=
    [ {| sent := create_request plan; got := answer 200 (raw "{'name': 'alice/demo'}") |};
      {| sent := add_request SecretsC "alice/demo" "a" "1"; got := answer 200 "{}" |};
      {| sent := add_request SecretsC "alice/demo" "b" "2"; got := answer 200 "{}" |} ] in
  let st := set_ID (StringValue "alice/demo") plan in
  Create decode_examples map_order client plan resp = (tr, State_Set st resp) /\
  exists created responseData name adds_s adds_v,
    client [] (create_request plan) = Responded created /\
    StatusCode created = StatusOK /\
    decode_examples (Body created) = inr responseData /\
    responseData !! "name" = Some (JString name) /\
    st = set_ID (StringValue name) plan /\
    tr = {| sent := create_request plan; got := Responded created |}
           :: adds_s ++ adds_v /\
    map sent adds_s
    = match Secrets plan with
      | MapValue elems =>
          map (fun kv => add_request SecretsC name kv.1 (ValueString kv.2))
            (map_order _ elems)
      | _ => []
      end /\
    map sent adds_v
    = match Variables plan with
      | MapValue elems =>
          map (fun kv => add_request VariablesC name kv.1 (ValueString kv.2))
            (map_order _ elems)
      | _ => []
      end /\
    Forall passed tr.
Proof.
  intros plan resp client tr st.
  assert (H : Create decode_examples map_order client plan resp
              = (tr, State_Set st resp)) by (vm_compute; reflexivity).
  split; [exact H|].
  exact (Create_adds_under_returned_name decode_examples map_order client
           plan resp tr st H).
Defined.

(** X12 at an input: the space created as alice/demo from the plan named
    demo is deleted under the name demo. *)
Lemma Delete_created_space_by_name :
  let plan := space "" "demo" false "cpu-basic" MapNull in
  let resp := {| State := None; Diagnostics := [] |} in
  let client := scripted [answer 200 (raw "{'name': 'alice/demo'}")] in
  let st := set_ID (StringValue "alice/demo") plan in
  let tr := [ {| sent := create_request plan;
                 got := answer 200 (raw "{'name': 'alice/demo'}") |} ] in
  (Create decode_examples map_order client plan resp = (tr, State_Set st resp) \/
   Update decode_examples map_order client plan plan resp = (tr, State_Set st resp)) /\
  body (space_delete_request plan) = raw "{'type': 'space', 'name': 'demo'}" /\
  let run := Delete client st (response_for st) in
  let g := client [] (space_delete_request plan) in
  run.1 = [{| sent := space_delete_request plan; got := g |}] /\
  (failed g -> exists d, run.2 = AddError d (response_for st)) /\
  (~ failed g -> run.2 = response_for st).
Proof.
  intros plan resp client st tr.
  assert (H : Create decode_examples map_order client plan resp
              = (tr, State_Set st resp)) by (vm_compute; reflexivity).
  split; [left; exact H|]. split; [reflexivity|].
  exact (Delete_names_planned_space decode_examples map_order client
           plan plan resp tr st (response_for st) (or_introl H)).
Defined.
